(** * Quest planner and presenter: a shallow embedding of [quest_generator.py]

    The development follows the layout of the Python module:
    the data model (dataclasses), the helper functions (identifier
    sanitizer, line codec, HTML escaping, JSON projection), the HTML
    renderer and the part of the Tk editor that mutates the project.

    Python [str] values are sequences of Unicode code points and are modelled
    as lists of [N]; the string methods the module calls are modelled in
    [PyStr].  [str.lower] is the Unicode lowercase mapping, which is a table of
    the Python runtime and not of this program: it is a parameter of the model
    ([str_lower]). *)

From Stdlib Require Import List NArith ZArith Bool Arith Lia String Ascii.
From Stdlib Require Import Floats.SpecFloat.
From Stdlib Require DecimalNat DecimalFacts.
From ExtLib Require Import Structures.Monad.
Import ListNotations.
Import MonadNotation.
Local Open Scope monad_scope.

Set Implicit Arguments.
Set Warnings "-register-all".

(** ** Python strings *)

Module PyStr.

Definition codepoint := N.
Definition pystr := list codepoint.

(** Decoder for the UTF-8 bytes of a literal of this file, so that the
    literals of the Python source can be written as they are. *)
Fixpoint utf8_decode (bs : list N) : pystr :=
  match bs with
  | [] => []
  | b0 :: t =>
      if (b0 <? 128)%N then b0 :: utf8_decode t
      else if (b0 <? 224)%N then
        match t with
        | b1 :: t1 => ((b0 - 192) * 64 + (b1 - 128))%N :: utf8_decode t1
        | _ => []
        end
      else if (b0 <? 240)%N then
        match t with
        | b1 :: b2 :: t2 =>
            ((b0 - 224) * 4096 + (b1 - 128) * 64 + (b2 - 128))%N
              :: utf8_decode t2
        | _ => []
        end
      else
        match t with
        | b1 :: b2 :: b3 :: t3 =>
            ((b0 - 240) * 262144 + (b1 - 128) * 4096
             + (b2 - 128) * 64 + (b3 - 128))%N :: utf8_decode t3
        | _ => []
        end
  end.

Definition lit (s : string) : pystr :=
  utf8_decode (map N_of_ascii (list_ascii_of_string s)).

(** The double quote character, spliced into literals. *)
Definition dq : pystr := [34%N].
Definition nl : pystr := [10%N].

(** Truth value of a string: [bool(s)] is [len(s) != 0]. *)
Definition truthy (s : pystr) : bool :=
  match s with [] => false | _ :: _ => true end.

(** [a or b] on strings. *)
Definition str_or (a b : pystr) : pystr := if truthy a then a else b.

Definition cp_eqb (a b : codepoint) : bool := N.eqb a b.

Fixpoint str_eqb (a b : pystr) : bool :=
  match a, b with
  | [], [] => true
  | x :: a', y :: b' => cp_eqb x y && str_eqb a' b'
  | _, _ => false
  end.

(** [x in xs] for a list or a set of strings. *)
Definition str_in (x : pystr) (xs : list pystr) : bool :=
  existsb (str_eqb x) xs.

(** Characters removed by [str.strip()] without argument: the code points
    for which CPython's [Py_UNICODE_ISSPACE] holds. *)
Definition is_space (c : codepoint) : bool :=
  ((9 <=? c) && (c <=? 13) || (28 <=? c) && (c <=? 32)
   || (c =? 133) || (c =? 160) || (c =? 5760)
   || (8192 <=? c) && (c <=? 8202)
   || (c =? 8232) || (c =? 8233) || (c =? 8239) || (c =? 8287)
   || (c =? 12288))%N.

Fixpoint drop_while (p : codepoint -> bool) (s : pystr) : pystr :=
  match s with
  | [] => []
  | c :: t => if p c then drop_while p t else s
  end.

Definition lstrip_chars (p : codepoint -> bool) (s : pystr) : pystr :=
  drop_while p s.
Definition rstrip_chars (p : codepoint -> bool) (s : pystr) : pystr :=
  rev (drop_while p (rev s)).
Definition strip_chars (p : codepoint -> bool) (s : pystr) : pystr :=
  rstrip_chars p (lstrip_chars p s).

Definition str_strip (s : pystr) : pystr := strip_chars is_space s.
Definition str_rstrip (s : pystr) : pystr := rstrip_chars is_space s.

(** [s.replace(old, new)] where [old] is one code point; every call of
    [replace] in the module has a pattern of length one. *)
Definition str_replace1 (old : codepoint) (new : pystr) (s : pystr) : pystr :=
  flat_map (fun c => if cp_eqb c old then new else [c]) s.

(** [sep.join(parts)]. *)
Fixpoint str_join (sep : pystr) (parts : list pystr) : pystr :=
  match parts with
  | [] => []
  | [p] => p
  | p :: rest => p ++ sep ++ str_join sep rest
  end.

(** [re.sub(r"[C]+", repl, s)] for a character class [C] given as a
    predicate: every maximal run of characters of the class is replaced by
    [repl].  [in_run] tells that the previous character was in the class. *)
Fixpoint re_sub_plus (p : codepoint -> bool) (repl : pystr)
         (in_run : bool) (s : pystr) : pystr :=
  match s with
  | [] => []
  | c :: t =>
      if p c then
        if in_run then re_sub_plus p repl true t
        else repl ++ re_sub_plus p repl true t
      else c :: re_sub_plus p repl false t
  end.

(** [re.sub(r"C{2,}", repl, s)]: maximal runs of length at least two are
    replaced by [repl]; a single character of the class stays. *)
Fixpoint re_sub_2plus (p : codepoint -> bool) (repl : pystr)
         (in_run : bool) (s : pystr) : pystr :=
  match s with
  | [] => []
  | c :: t =>
      if p c then
        if in_run then re_sub_2plus p repl true t
        else match t with
             | c' :: _ =>
                 if p c' then repl ++ re_sub_2plus p repl true t
                 else c :: re_sub_2plus p repl false t
             | [] => [c]
             end
      else c :: re_sub_2plus p repl false t
  end.

(** Line boundaries of [str.splitlines()]. *)
Definition is_linebreak (c : codepoint) : bool :=
  ((10 <=? c) && (c <=? 13) || (28 <=? c) && (c <=? 30)
   || (c =? 133) || (c =? 8232) || (c =? 8233))%N.

(** [s.splitlines()]; [cur] is the current line, reversed.  A carriage
    return followed by a line feed is one boundary. *)
Fixpoint splitlines_from (cur : pystr) (s : pystr) : list pystr :=
  match s with
  | [] => match cur with [] => [] | _ => [rev cur] end
  | c :: t =>
      if is_linebreak c then
        match t with
        | c' :: t' =>
            if cp_eqb c 13%N && cp_eqb c' 10%N
            then rev cur :: splitlines_from [] t'
            else rev cur :: splitlines_from [] t
        | [] => [rev cur]
        end
      else splitlines_from (c :: cur) t
  end.

Definition str_splitlines (s : pystr) : list pystr := splitlines_from [] s.

(** [str(i)] for a non-negative integer. *)
Fixpoint digits_of_uint (d : Decimal.uint) : pystr :=
  match d with
  | Decimal.Nil => []
  | Decimal.D0 d => 48%N :: digits_of_uint d
  | Decimal.D1 d => 49%N :: digits_of_uint d
  | Decimal.D2 d => 50%N :: digits_of_uint d
  | Decimal.D3 d => 51%N :: digits_of_uint d
  | Decimal.D4 d => 52%N :: digits_of_uint d
  | Decimal.D5 d => 53%N :: digits_of_uint d
  | Decimal.D6 d => 54%N :: digits_of_uint d
  | Decimal.D7 d => 55%N :: digits_of_uint d
  | Decimal.D8 d => 56%N :: digits_of_uint d
  | Decimal.D9 d => 57%N :: digits_of_uint d
  end.

Definition str_of_nat (n : nat) : pystr := digits_of_uint (Nat.to_uint n).

(** Substring tests, used to state what an output contains. *)
Fixpoint prefixb (p s : pystr) : bool :=
  match p, s with
  | [], _ => true
  | x :: p', y :: s' => cp_eqb x y && prefixb p' s'
  | _ :: _, [] => false
  end.

Fixpoint containsb (sub s : pystr) : bool :=
  prefixb sub s || match s with [] => false | _ :: t => containsb sub t end.

Definition contains (sub s : pystr) : Prop :=
  exists pre post, s = pre ++ sub ++ post.

Definition starts_with (p s : pystr) : Prop := exists post, s = p ++ post.
Definition ends_with (p s : pystr) : Prop := exists pre, s = pre ++ p.

End PyStr.
Import PyStr.

(** ** Data model (the dataclasses) *)

Record Option_ := mkOption {
  label : pystr;
  target : pystr
}.

Record Node := mkNode {
  node_id : pystr;
  title : pystr;
  scene : pystr;
  dialog : pystr;
  content : pystr;
  info_items : list pystr;
  tech_flags : list pystr;
  outcomes : list pystr;
  notes : pystr;
  options : list Option_
}.

Record QuestMeta := mkQuestMeta {
  quest_name : pystr;
  region : pystr;
  short_description : pystr;
  quest_giver : pystr;
  prerequisite : pystr;
  quest_type : pystr;
  meta_short : pystr;
  rewards : pystr;
  important_flags : pystr;
  version_stamp : pystr
}.

Record QuestProject := mkQuestProject {
  meta : QuestMeta;
  nodes : list Node
}.

(** [Node(...)] with the defaults of the dataclass for the fields that the
    call sites of the module leave out. *)
Definition Node_default (id ttl : pystr) (opts : list Option_) : Node :=
  mkNode id ttl [] [] [] [] [] [] [] opts.

(** [QuestMeta()]. *)
Definition QuestMeta_default : QuestMeta :=
  mkQuestMeta (lit "Neue Quest") (lit "Unbekannt")
    (lit "Kurzbeschreibung hier…") [] [] [] [] [] [] [].

(** ** Helper functions *)

Definition idchar (c : codepoint) : bool :=
  ((97 <=? c) && (c <=? 122) || (48 <=? c) && (c <=? 57)
   || (c =? 45) || (c =? 95))%N.

Definition is_dash (c : codepoint) : bool := (c =? 45)%N.

Section Helpers.

(** [str.lower] of the Python runtime. *)
Variable str_lower : pystr -> pystr.

(** The statements of [sanitize_id] before its [return]: the value of
    [raw] that the last line tests. *)
Definition sanitize_id_cleaned (raw : pystr) : pystr :=
  let raw := str_lower (str_strip raw) in
  let raw :=
    str_replace1 223%N (lit "ss")
      (str_replace1 252%N (lit "ue")
         (str_replace1 246%N (lit "oe")
            (str_replace1 228%N (lit "ae") raw))) in
  let raw := re_sub_plus (fun c => negb (idchar c)) (lit "-") false raw in
  strip_chars is_dash (re_sub_2plus is_dash (lit "-") false raw).

Definition sanitize_id (raw : pystr) : pystr :=
  str_or (sanitize_id_cleaned raw) (lit "node").

End Helpers.

Definition lines_to_list (text : pystr) : list pystr :=
  map str_strip
    (filter (fun ln => truthy (str_strip ln)) (str_splitlines text)).

Definition list_to_lines (items : list pystr) : pystr :=
  str_join nl items.

Definition html_escape (s : pystr) : pystr :=
  str_replace1 62%N (lit "&gt;")
    (str_replace1 60%N (lit "&lt;")
       (str_replace1 38%N (lit "&amp;") s)).

(** Lowercasing of the ASCII letters only: an instance of [str_lower] that
    agrees with Python on ASCII text, used to run the model. *)
Definition ascii_lower (s : pystr) : pystr :=
  map (fun c => if ((65 <=? c) && (c <=? 90))%N then (c + 32)%N else c) s.

(** ** Python values, exceptions and effects *)

Inductive exn := AttributeError | TypeError | IndexError.

Inductive result (A : Type) : Type :=
| Ok (a : A)
| Raised (e : exn).
Arguments Raised {A} e.

#[export] Instance Monad_result : Monad result := {
  ret := fun _ a => Ok a;
  bind := fun _ _ m k => match m with Ok a => k a | Raised e => Raised e end
}.

Fixpoint mapM_result {A B : Type} (f : A -> result B) (l : list A)
  : result (list B) :=
  match l with
  | [] => Ok []
  | x :: t =>
      match f x with
      | Ok y => match mapM_result f t with
                | Ok ys => Ok (y :: ys)
                | Raised e => Raised e
                end
      | Raised e => Raised e
      end
  end.

(** [l[i]] on a list. *)
Definition list_index {A : Type} (l : list A) (i : nat) : result A :=
  match nth_error l i with
  | Some x => Ok x
  | None => Raised IndexError
  end.

(** Truth value of a list. *)
Definition list_truthy {A : Type} (l : list A) : bool :=
  match l with [] => false | _ :: _ => true end.

(** What [json.load] returns: the Python values of a JSON document.  A
    [dict] keeps its keys in insertion order; [dict_get] reads the first
    binding of a key. *)
Inductive json : Type :=
| JNull
| JBool (b : bool)
| JInt (z : Z)
| JFloat (f : spec_float)
| JStr (s : pystr)
| JArr (l : list json)
| JObj (m : list (pystr * json)).

Fixpoint dict_get (m : list (pystr * json)) (k : pystr) (dflt : json) : json :=
  match m with
  | [] => dflt
  | (k', v) :: m' => if str_eqb k k' then v else dict_get m' k dflt
  end.

(** [v.get(k, dflt)]: only a dict has the method. *)
Definition py_get (v : json) (k : pystr) (dflt : json) : result json :=
  match v with
  | JObj m => Ok (dict_get m k dflt)
  | _ => Raised AttributeError
  end.

Definition py_truthy (v : json) : bool :=
  match v with
  | JNull => false
  | JBool b => b
  | JInt z => negb (Z.eqb z 0)
  | JFloat f => match f with S754_zero _ => false | _ => true end
  | JStr s => truthy s
  | JArr l => list_truthy l
  | JObj m => list_truthy m
  end.

Definition py_or (v dflt : json) : json := if py_truthy v then v else dflt.

(** [for x in v]: a list yields its elements, a dict its keys, a string its
    characters; the other values are not iterable. *)
Definition py_iter (v : json) : result (list json) :=
  match v with
  | JArr l => Ok l
  | JObj m => Ok (map (fun kv => JStr (fst kv)) m)
  | JStr s => Ok (map (fun c => JStr [c]) s)
  | _ => Raised TypeError
  end.

(** The dataclass instances that [project_from_jsonable] builds: Python does
    not check the annotations, so a field holds whatever the document had. *)
Module Dyn.
Record Option_ := mkOption { label : json; target : json }.
Record Node := mkNode {
  node_id : json; title : json; scene : json; dialog : json;
  content : json; info_items : json; tech_flags : json; outcomes : json;
  notes : json; options : list Option_
}.
Record QuestMeta := mkQuestMeta {
  quest_name : json; region : json; short_description : json;
  quest_giver : json; prerequisite : json; quest_type : json;
  meta_short : json; rewards : json; important_flags : json;
  version_stamp : json
}.
Record QuestProject := mkQuestProject { meta : QuestMeta; nodes : list Node }.
End Dyn.

(** A well-typed project seen as such instances. *)
Definition jstrs (l : list pystr) : json := JArr (map JStr l).

Definition dyn_of_option (o : Option_) : Dyn.Option_ :=
  Dyn.mkOption (JStr (label o)) (JStr (target o)).

Definition dyn_of_node (n : Node) : Dyn.Node :=
  Dyn.mkNode (JStr (node_id n)) (JStr (title n)) (JStr (scene n))
    (JStr (dialog n)) (JStr (content n)) (jstrs (info_items n))
    (jstrs (tech_flags n)) (jstrs (outcomes n)) (JStr (notes n))
    (map dyn_of_option (options n)).

Definition dyn_of_meta (m : QuestMeta) : Dyn.QuestMeta :=
  Dyn.mkQuestMeta (JStr (quest_name m)) (JStr (region m))
    (JStr (short_description m)) (JStr (quest_giver m))
    (JStr (prerequisite m)) (JStr (quest_type m)) (JStr (meta_short m))
    (JStr (rewards m)) (JStr (important_flags m)) (JStr (version_stamp m)).

Definition dyn_of_project (p : QuestProject) : Dyn.QuestProject :=
  Dyn.mkQuestProject (dyn_of_meta (meta p)) (map dyn_of_node (nodes p)).

(** ** Persistence: projection to and from JSON values *)

Definition option_to_dict (opt : Option_) : json :=
  JObj [(lit "label", JStr (label opt)); (lit "target", JStr (target opt))].

Definition option_from_dict (d : json) : result Dyn.Option_ :=
  l <- py_get d (lit "label") (JStr []) ;;
  t <- py_get d (lit "target") (JStr []) ;;
  ret (Dyn.mkOption l t).

(** [asdict(p.meta)]. *)
Definition meta_to_jsonable (m : QuestMeta) : json :=
  JObj [ (lit "quest_name", JStr (quest_name m));
         (lit "region", JStr (region m));
         (lit "short_description", JStr (short_description m));
         (lit "quest_giver", JStr (quest_giver m));
         (lit "prerequisite", JStr (prerequisite m));
         (lit "quest_type", JStr (quest_type m));
         (lit "meta_short", JStr (meta_short m));
         (lit "rewards", JStr (rewards m));
         (lit "important_flags", JStr (important_flags m));
         (lit "version_stamp", JStr (version_stamp m)) ].

(** The dict built for one node: the fields of [asdict(n)] except
    [options], then [options]. *)
Definition node_to_jsonable (n : Node) : json :=
  JObj [ (lit "node_id", JStr (node_id n));
         (lit "title", JStr (title n));
         (lit "scene", JStr (scene n));
         (lit "dialog", JStr (dialog n));
         (lit "content", JStr (content n));
         (lit "info_items", jstrs (info_items n));
         (lit "tech_flags", jstrs (tech_flags n));
         (lit "outcomes", jstrs (outcomes n));
         (lit "notes", JStr (notes n));
         (lit "options", JArr (map option_to_dict (options n))) ].

Definition project_to_jsonable (p : QuestProject) : json :=
  JObj [ (lit "meta", meta_to_jsonable (meta p));
         (lit "nodes", JArr (map node_to_jsonable (nodes p))) ].

(** The meta record: every field of [QuestMeta] read with [meta_d.get]
    and the empty string as default. *)
Definition meta_from_jsonable (meta_d : json) : result Dyn.QuestMeta :=
  a <- py_get meta_d (lit "quest_name") (JStr []) ;;
  b <- py_get meta_d (lit "region") (JStr []) ;;
  c <- py_get meta_d (lit "short_description") (JStr []) ;;
  d <- py_get meta_d (lit "quest_giver") (JStr []) ;;
  e <- py_get meta_d (lit "prerequisite") (JStr []) ;;
  f <- py_get meta_d (lit "quest_type") (JStr []) ;;
  g <- py_get meta_d (lit "meta_short") (JStr []) ;;
  h <- py_get meta_d (lit "rewards") (JStr []) ;;
  i <- py_get meta_d (lit "important_flags") (JStr []) ;;
  j <- py_get meta_d (lit "version_stamp") (JStr []) ;;
  ret (Dyn.mkQuestMeta a b c d e f g h i j).

(** The body of the loop over [nodes_d]. *)
Definition node_from_jsonable (nd : json) : result Dyn.Node :=
  a <- py_get nd (lit "node_id") (JStr (lit "node")) ;;
  b <- py_get nd (lit "title") (JStr []) ;;
  c <- py_get nd (lit "scene") (JStr []) ;;
  d <- py_get nd (lit "dialog") (JStr []) ;;
  e <- py_get nd (lit "content") (JStr []) ;;
  f <- py_get nd (lit "info_items") (JArr []) ;;
  g <- py_get nd (lit "tech_flags") (JArr []) ;;
  h <- py_get nd (lit "outcomes") (JArr []) ;;
  i <- py_get nd (lit "notes") (JStr []) ;;
  o <- py_get nd (lit "options") (JArr []) ;;
  os <- py_iter (py_or o (JArr [])) ;;
  opts <- mapM_result option_from_dict os ;;
  ret (Dyn.mkNode a b c d e (py_or f (JArr [])) (py_or g (JArr []))
         (py_or h (JArr [])) i opts).

Definition project_from_jsonable (d : json) : result Dyn.QuestProject :=
  meta_d <- py_get d (lit "meta") (JObj []) ;;
  nodes_d <- py_get d (lit "nodes") (JArr []) ;;
  m <- meta_from_jsonable meta_d ;;
  nds <- py_iter nodes_d ;;
  ns <- mapM_result node_from_jsonable nds ;;
  ret (Dyn.mkQuestProject m ns).

(** The decoding steps of [_load_project] (the two statements after
    [json.load]): decode, and give a project without nodes the node
    [Node(node_id="start", title="Start")]. *)
Definition load_project_data (data : json) : result Dyn.QuestProject :=
  p <- project_from_jsonable data ;;
  if negb (list_truthy (Dyn.nodes p))
  then ret (Dyn.mkQuestProject (Dyn.meta p)
              (Dyn.nodes p ++ [dyn_of_node (Node_default (lit "start") (lit "Start") [])]))
  else ret p.

(** ** HTML renderer *)

Definition CSS_BLOCK : pystr :=
  str_join nl
    [ [];
      lit "  <style>";
      lit "    :root{";
      lit "      --bg: #eef4ff;";
      lit "      --card: #ffffff;";
      lit "      --text: #111827;";
      lit "      --muted: #475569;";
      lit "      --line: rgba(15, 23, 42, .12);";
      lit "      --accent: #2f6feb;";
      lit "      --accent-soft: rgba(47,111,235,.12);";
      lit "      --shadow: 0 10px 24px rgba(15,23,42,.08);";
      lit "      --radius: 14px;";
      lit "    }";
      lit "    * { box-sizing: border-box; }";
      lit "    html { scroll-behavior: smooth; }";
      lit "    body{";
      lit "      margin: 0;";
      lit "      font-family: ui-sans-serif, system-ui, -apple-system, Segoe UI, Roboto, Helvetica, Arial, " ++ dq ++ lit "Noto Sans" ++ dq ++ lit ", " ++ dq ++ lit "Apple Color Emoji" ++ dq ++ lit ", " ++ dq ++ lit "Segoe UI Emoji" ++ dq ++ lit ";";
      lit "      background: var(--bg);";
      lit "      color: var(--text);";
      lit "      line-height: 1.55;";
      lit "    }";
      lit "    header, main, footer{";
      lit "      max-width: 980px;";
      lit "      margin: 0 auto;";
      lit "      padding: 18px 18px;";
      lit "    }";
      lit "    header{ padding-top: 28px; }";
      lit "    header h1{";
      lit "      margin: 0 0 6px 0;";
      lit "      font-size: clamp(1.4rem, 2.3vw, 2rem);";
      lit "      letter-spacing: .2px;";
      lit "    }";
      lit "    header p{ margin: 6px 0 0 0; color: var(--muted); }";
      lit "    hr{";
      lit "      border: 0;";
      lit "      border-top: 1px solid var(--line);";
      lit "      margin: 18px 0;";
      lit "    }";
      lit "    section{";
      lit "      background: var(--card);";
      lit "      border: 1px solid var(--line);";
      lit "      border-radius: var(--radius);";
      lit "      box-shadow: var(--shadow);";
      lit "      padding: 18px 18px;";
      lit "      margin: 14px 0;";
      lit "      scroll-margin-top: 14px;";
      lit "    }";
      lit "    main { padding-bottom: 45vh; }";
      [];
      lit "    section h2{ margin: 0 0 10px 0; font-size: 1.25rem; }";
      lit "    section h3{ margin: 14px 0 8px 0; font-size: 1.05rem; }";
      [];
      lit "    section:target{";
      lit "      border-color: var(--accent);";
      lit "      background: linear-gradient(0deg, #fff, #fff) padding-box,";
      lit "                  linear-gradient(135deg, rgba(47,111,235,.35), rgba(47,111,235,0)) border-box;";
      lit "      box-shadow: 0 14px 35px rgba(47,111,235,.18), var(--shadow);";
      lit "      position: relative;";
      lit "    }";
      lit "    section:target::before{";
      lit "      content: " ++ dq ++ lit "Aktiver Knoten" ++ dq ++ lit ";";
      lit "      position: absolute;";
      lit "      top: -10px;";
      lit "      right: 14px;";
      lit "      font-size: .78rem;";
      lit "      color: var(--accent);";
      lit "      background: #fff;";
      lit "      border: 1px solid rgba(47,111,235,.35);";
      lit "      padding: 4px 8px;";
      lit "      border-radius: 999px;";
      lit "      box-shadow: 0 8px 16px rgba(15,23,42,.08);";
      lit "    }";
      [];
      lit "    nav{";
      lit "      display: flex;";
      lit "      flex-wrap: wrap;";
      lit "      gap: 8px;";
      lit "      margin-top: 10px;";
      lit "    }";
      lit "    nav a{";
      lit "      display: inline-block;";
      lit "      text-decoration: none;";
      lit "      color: var(--accent);";
      lit "      background: var(--accent-soft);";
      lit "      border: 1px solid rgba(47,111,235,.25);";
      lit "      padding: 6px 10px;";
      lit "      border-radius: 999px;";
      lit "      font-weight: 600;";
      lit "      font-size: .92rem;";
      lit "    }";
      lit "    nav a:hover{ filter: brightness(0.98); text-decoration: underline; }";
      [];
      lit "    ul, ol { margin: 8px 0 0 22px; }";
      lit "    li { margin: 4px 0; }";
      [];
      lit "    details{";
      lit "      margin-top: 10px;";
      lit "      padding: 10px 12px;";
      lit "      border: 1px dashed rgba(15,23,42,.18);";
      lit "      border-radius: 12px;";
      lit "      background: rgba(255,255,255,.6);";
      lit "    }";
      lit "    summary{ cursor: pointer; font-weight: 700; color: var(--text); }";
      [];
      lit "    blockquote{";
      lit "      margin: 10px 0;";
      lit "      padding: 10px 12px;";
      lit "      border-left: 4px solid rgba(47,111,235,.45);";
      lit "      background: rgba(47,111,235,.06);";
      lit "      border-radius: 10px;";
      lit "      color: #0f172a;";
      lit "    }";
      lit "    pre{";
      lit "      margin: 0;";
      lit "      padding: 10px 12px;";
      lit "      background: rgba(15,23,42,.06);";
      lit "      border: 1px solid rgba(15,23,42,.10);";
      lit "      border-radius: 10px;";
      lit "      overflow: auto;";
      lit "      font-family: ui-monospace, SFMono-Regular, Menlo, Monaco, Consolas, " ++ dq ++ lit "Liberation Mono" ++ dq ++ lit ", " ++ dq ++ lit "Courier New" ++ dq ++ lit ", monospace;";
      lit "      font-size: .92rem;";
      lit "      white-space: pre-wrap;";
      lit "    }";
      lit "    code{";
      lit "      font-family: ui-monospace, SFMono-Regular, Menlo, Monaco, Consolas, " ++ dq ++ lit "Liberation Mono" ++ dq ++ lit ", " ++ dq ++ lit "Courier New" ++ dq ++ lit ", monospace;";
      lit "      font-size: .92em;";
      lit "    }";
      [];
      lit "    footer small{ color: var(--muted); }";
      [];
      lit "    .flash{ animation: flashGlow .7s ease-out; }";
      lit "    @keyframes flashGlow{";
      lit "      0% { box-shadow: 0 0 0 rgba(47,111,235,0); }";
      lit "      40% { box-shadow: 0 0 0 6px rgba(47,111,235,.18), 0 16px 36px rgba(47,111,235,.20); }";
      lit "      100% { box-shadow: 0 0 0 rgba(47,111,235,0); }";
      lit "    }";
      lit "  </style>";
      [] ].


Definition JS_BLOCK : pystr :=
  str_join nl
    [ [];
      lit "  <script>";
      lit "    (function(){";
      lit "      function focusTargetFromHash(){";
      lit "        const id = location.hash ? location.hash.slice(1) : " ++ dq ++ dq ++ lit ";";
      lit "        if(!id) return;";
      lit "        const el = document.getElementById(id);";
      lit "        if(!el) return;";
      lit "        el.scrollIntoView({ behavior: " ++ dq ++ lit "smooth" ++ dq ++ lit ", block: " ++ dq ++ lit "start" ++ dq ++ lit " });";
      lit "        el.classList.add(" ++ dq ++ lit "flash" ++ dq ++ lit ");";
      lit "        setTimeout(()=> el.classList.remove(" ++ dq ++ lit "flash" ++ dq ++ lit "), 700);";
      lit "      }";
      lit "      window.addEventListener(" ++ dq ++ lit "load" ++ dq ++ lit ", focusTargetFromHash);";
      lit "      window.addEventListener(" ++ dq ++ lit "hashchange" ++ dq ++ lit ", focusTargetFromHash);";
      lit "    })();";
      lit "  </script>";
      [] ].



(** What rendering can do besides returning: raise, or read the wall clock
    ([now_stamp]). *)
Inductive Eff (A : Type) : Type :=
| Ret (a : A)
| Throw (e : exn)
| ReadClock (k : pystr -> Eff A).
Arguments Throw {A} e.

Fixpoint Eff_bind {A B : Type} (m : Eff A) (f : A -> Eff B) : Eff B :=
  match m with
  | Ret a => f a
  | Throw e => Throw e
  | ReadClock k => ReadClock (fun t => Eff_bind (k t) f)
  end.

#[export] Instance Monad_Eff : Monad Eff := {
  ret := fun _ a => Ret a;
  bind := fun _ _ m k => Eff_bind m k
}.

Definition lift_result {A : Type} (r : result A) : Eff A :=
  match r with Ok a => Ret a | Raised e => Throw e end.

(** A run against a wall clock whose formatted time is [now]. *)
Fixpoint run_Eff {A : Type} (now : pystr) (m : Eff A) : result A :=
  match m with
  | Ret a => Ok a
  | Throw e => Raised e
  | ReadClock k => run_Eff now (k now)
  end.

(** [datetime.now().strftime("%Y-%m-%d %H:%M")]. *)
Definition now_stamp : Eff pystr := ReadClock (fun t => Ret t).

Definition render_nav (nodes : list Node) : pystr :=
  let parts :=
    [ lit "<nav aria-label=" ++ dq ++ lit "Quest-Navigation" ++ dq ++ lit ">";
      lit "<a href=" ++ dq ++ lit "#top" ++ dq ++ lit ">Übersicht</a>" ]
    ++ map (fun n =>
              let label := html_escape (str_or (title n) (node_id n)) in
              lit "<a href=" ++ dq ++ lit "#" ++ html_escape (node_id n) ++ dq
                ++ lit ">" ++ label ++ lit "</a>") nodes
    ++ [ lit "</nav>" ] in
  str_join (lit "
      ") parts.

Definition render_meta_list (meta : QuestMeta) : pystr :=
  let items :=
    [ (lit "Questgeber", quest_giver meta);
      (lit "Voraussetzung", prerequisite meta);
      (lit "Art", quest_type meta);
      (lit "Kurzbeschreibung", meta_short meta);
      (lit "Belohnungen", rewards meta);
      (lit "Wichtige Flags", important_flags meta) ] in
  let lis :=
    map (fun kv =>
           let v := str_or (str_strip (snd kv)) (lit "—") in
           lit "<li><strong>" ++ html_escape (fst kv) ++ lit ":</strong> "
             ++ html_escape v ++ lit "</li>") items in
  str_join (lit "
        ") lis.

(** One item of the option list. *)
Definition render_option (node_ids : list pystr) (opt : Option_) : pystr :=
  let label := html_escape (str_or (str_strip (label opt)) (lit "Option")) in
  let target := str_strip (target opt) in
  if negb (str_in target node_ids) then
    lit "<li><a href=" ++ dq ++ lit "#" ++ html_escape (str_or target (lit "top"))
      ++ dq ++ lit ">" ++ label ++ lit "</a> <em style=" ++ dq
      ++ lit "color:#b42318;" ++ dq ++ lit ">(Ziel unbekannt)</em></li>"
  else
    lit "<li><a href=" ++ dq ++ lit "#" ++ html_escape target ++ dq ++ lit ">"
      ++ label ++ lit "</a></li>".

Definition render_options (node : Node) (node_ids : list pystr) : pystr :=
  if negb (list_truthy (options node)) then lit "<p><em>Keine Optionen.</em></p>"
  else
    let out :=
      [ lit "<h3>Optionen</h3>"; lit "<ol>" ]
      ++ map (render_option node_ids) (options node)
      ++ [ lit "</ol>" ] in
    str_join (lit "
      ") out.

Definition render_list_block (title : pystr) (items : list pystr) : pystr :=
  if negb (list_truthy items) then []
  else
    let lis :=
      str_join (lit "
        ")
        (map (fun it => lit "<li>" ++ html_escape it ++ lit "</li>") items) in
    str_rstrip
      (str_join nl
      [ [];
        lit "      <p><strong>" ++ html_escape title ++ lit ":</strong></p>";
        lit "      <ul>";
        lit "        " ++ lis;
        lit "      </ul>";
        [] ]).

Definition render_details (title : pystr) (items : list pystr) : pystr :=
  if negb (list_truthy items) then []
  else
    let lis :=
      str_join (lit "
          ")
        (map (fun it => lit "<li>" ++ html_escape it ++ lit "</li>") items) in
    str_rstrip
      (str_join nl
      [ [];
        lit "      <details>";
        lit "        <summary>" ++ html_escape title ++ lit "</summary>";
        lit "        <ul>";
        lit "          " ++ lis;
        lit "        </ul>";
        lit "      </details>";
        [] ]).

Definition render_node_section (node : Node) (node_ids : list pystr) : pystr :=
  let h2 := html_escape (str_or (str_strip (title node)) (node_id node)) in
  let scene := str_strip (scene node) in
  let dialog := str_strip (dialog node) in
  let content := str_strip (content node) in
  let notes := str_strip (notes node) in
  let parts :=
    [ lit "<section id=" ++ dq ++ html_escape (node_id node) ++ dq ++ lit ">";
      lit "  <h2>" ++ h2 ++ lit "</h2>" ] in
  let parts :=
    if truthy scene
    then parts ++ [ lit "  <p><strong>Szene:</strong> " ++ html_escape scene ++ lit "</p>" ]
    else parts in
  let parts :=
    if truthy content
    then parts ++ [ lit "  <p><strong>Inhalt:</strong> " ++ html_escape content ++ lit "</p>" ]
    else parts in
  let parts :=
    if truthy dialog
    then parts ++ [ lit "  <p><strong>Dialog:</strong></p>";
                    lit "  <blockquote>";
                    lit "    <pre>";
                    html_escape dialog;
                    lit "    </pre>";
                    lit "  </blockquote>" ]
    else parts in
  let info_block := render_list_block (lit "Wichtige Information") (info_items node) in
  let parts := if truthy info_block then parts ++ [ info_block ] else parts in
  let tech_details := render_details (lit "Technik/Flags") (tech_flags node) in
  let parts := if truthy tech_details then parts ++ [ tech_details ] else parts in
  let outcomes_details :=
    render_details (lit "Enden/Outcomes (Notizblock)") (outcomes node) in
  let parts :=
    if truthy outcomes_details then parts ++ [ outcomes_details ] else parts in
  let parts := parts ++ [ render_options node node_ids ] in
  let parts :=
    if truthy notes
    then parts ++ [ lit "  <p><strong>Notizen:</strong> " ++ html_escape notes ++ lit "</p>" ]
    else parts in
  let parts :=
    parts ++ [ lit "  <p><a href=" ++ dq ++ lit "#top" ++ dq ++ lit ">↑ Zur Übersicht</a></p>";
               lit "</section>" ] in
  str_join (lit "
    ") parts.

(** The overview section of [render_html]; [first] is the anchor of the link
    to the start. *)
Definition render_top_section (meta : QuestMeta) (first : pystr) : pystr :=
  str_rstrip
    (str_join nl
    [ [];
      lit "    <section id=" ++ dq ++ lit "top" ++ dq ++ lit ">";
      lit "      <h2>Übersicht</h2>";
      lit "      <p><strong>Kurzbeschreibung:</strong> " ++ html_escape (str_or (str_strip (short_description meta)) (lit "—")) ++ lit "</p>";
      lit "      <p><strong>Quest Metadaten</strong></p>";
      lit "      <ul>";
      lit "        " ++ render_meta_list meta;
      lit "      </ul>";
      lit "      <hr>";
      lit "      <p><a href=" ++ dq ++ lit "#" ++ html_escape first ++ dq ++ lit ">→ Zum Start</a></p>";
      lit "    </section>";
      [] ]).

(** The document template of [render_html]. *)
Definition render_document (meta : QuestMeta) (include_js : bool)
           (title_ nav version top_section node_sections : pystr) : pystr :=
  str_join nl
    [ lit "<!doctype html>";
      lit "<html lang=" ++ dq ++ lit "de" ++ dq ++ lit ">";
      lit "<head>";
      lit "  <meta charset=" ++ dq ++ lit "utf-8" ++ dq ++ lit " />";
      lit "  <meta name=" ++ dq ++ lit "viewport" ++ dq ++ lit " content=" ++ dq ++ lit "width=device-width,initial-scale=1" ++ dq ++ lit " />";
      lit "  <title>" ++ html_escape title_ ++ lit "</title>";
      CSS_BLOCK;
      lit "</head>";
      lit "<body>";
      [];
      lit "  <header>";
      lit "    <h1>Quest: " ++ html_escape (str_or (str_strip (quest_name meta)) (lit "—")) ++ lit "</h1>";
      lit "    <p><strong>Region:</strong> " ++ html_escape (str_or (str_strip (region meta)) (lit "—")) ++ lit "</p>";
      lit "    " ++ nav;
      lit "    <hr>";
      lit "  </header>";
      [];
      lit "  <main>";
      top_section;
      [];
      lit "    " ++ node_sections;
      [];
      lit "    <section id=" ++ dq ++ lit "end" ++ dq ++ lit ">";
      lit "      <h2>Ende / Notizen</h2>";
      lit "      <p>[Hier kannst du „Was der Spieler gelernt hat“, „Welche Weltinfos gesetzt wurden“ und „Follow-ups“ reinschreiben.]</p>";
      lit "      <p><a href=" ++ dq ++ lit "#top" ++ dq ++ lit ">↑ Zur Übersicht</a></p>";
      lit "    </section>";
      lit "  </main>";
      [];
      lit "  <footer>";
      lit "    <hr>";
      lit "    <p><small>Quest-Präsentator — Stand: " ++ html_escape version ++ lit "</small></p>";
      lit "  </footer>";
      [];
      (if include_js then JS_BLOCK else []);
      [];
      lit "</body>";
      lit "</html>";
      [] ].

Definition render_html (project : QuestProject) (include_js : bool) : Eff pystr :=
  let meta := meta project in
  let nodes := nodes project in
  let node_ids := map node_id nodes in
  let title_ := str_strip (lit "Quest-Präsentator: " ++ quest_name meta) in
  let nav := render_nav nodes in
  version <- (let v := str_strip (version_stamp meta) in
              if truthy v then ret v else now_stamp) ;;
  first <- (if list_truthy nodes
            then n <- lift_result (list_index nodes 0) ;; ret (node_id n)
            else ret (lit "top")) ;;
  let top_section := render_top_section meta first in
  let node_sections :=
    str_join (lit "

    ") (map (fun n => render_node_section n node_ids) nodes) in
  ret (render_document meta include_js title_ nav version top_section node_sections).

(** The document [render_html] returns when the footer stamp is
    [version]: its body after [version] has been determined. *)
Definition render_html_with (version : pystr) (project : QuestProject)
           (include_js : bool) : pystr :=
  let meta := meta project in
  let nodes := nodes project in
  let node_ids := map node_id nodes in
  let first := match nodes with [] => lit "top" | n :: _ => node_id n end in
  render_document meta include_js
    (str_strip (lit "Quest-Präsentator: " ++ quest_name meta))
    (render_nav nodes) version (render_top_section meta first)
    (str_join (lit "

    ") (map (fun n => render_node_section n node_ids) nodes)).

(** ** The editor: the state of [QuestEditorApp] and the methods that
    change the project *)

(** The entry fields and text boxes of the meta data box. *)
Record MetaForm := mkMetaForm {
  var_quest_name : pystr;
  var_region : pystr;
  var_quest_giver : pystr;
  var_prereq : pystr;
  var_type : pystr;
  var_version : pystr;
  txt_short : pystr;
  txt_meta_short : pystr;
  txt_rewards : pystr;
  txt_imp_flags : pystr
}.

(** The widgets of the node editor; [tree_opts] holds the rows
    (label, target) of the option table. *)
Record NodeForm := mkNodeForm {
  var_node_id : pystr;
  var_node_title : pystr;
  txt_scene : pystr;
  txt_content : pystr;
  txt_dialog : pystr;
  txt_info : pystr;
  txt_tech : pystr;
  txt_outcomes : pystr;
  txt_notes : pystr;
  tree_opts : list (pystr * pystr)
}.

(** A call of [messagebox]. *)
Inductive Dialog :=
| ShowError (title_ message : pystr)
| ShowWarning (title_ message : pystr)
| ShowInfo (title_ message : pystr).

Record App := mkApp {
  project : QuestProject;
  current_node_index : option nat;
  meta_form : MetaForm;
  node_form : NodeForm;
  lst_nodes : list pystr;
  lst_selection : option nat;
  dialogs : list Dialog
}.

(** Methods run on the state and may raise; what was written before an
    exception stays written. *)
Definition Ed (A : Type) : Type := App -> result A * App.

#[export] Instance Monad_Ed : Monad Ed := {
  ret := fun _ a st => (Ok a, st);
  bind := fun _ _ m k st =>
            match m st with
            | (Ok a, st') => k a st'
            | (Raised e, st') => (Raised e, st')
            end
}.

Definition ed_get : Ed App := fun st => (Ok st, st).
Definition ed_modify (f : App -> App) : Ed unit := fun st => (Ok tt, f st).
Definition ed_lift {A : Type} (r : result A) : Ed A := fun st => (r, st).

Definition set_project (p : QuestProject) (st : App) : App :=
  mkApp p (current_node_index st) (meta_form st) (node_form st)
    (lst_nodes st) (lst_selection st) (dialogs st).
Definition set_current_node_index (i : option nat) (st : App) : App :=
  mkApp (project st) i (meta_form st) (node_form st)
    (lst_nodes st) (lst_selection st) (dialogs st).
Definition set_node_form (f : NodeForm) (st : App) : App :=
  mkApp (project st) (current_node_index st) (meta_form st) f
    (lst_nodes st) (lst_selection st) (dialogs st).
Definition set_listbox (items : list pystr) (sel : option nat) (st : App) : App :=
  mkApp (project st) (current_node_index st) (meta_form st) (node_form st)
    items sel (dialogs st).
Definition show_dialog (d : Dialog) (st : App) : App :=
  mkApp (project st) (current_node_index st) (meta_form st) (node_form st)
    (lst_nodes st) (lst_selection st) (dialogs st ++ [d]).

(** [var_node_id.set(v)]. *)
Definition set_var_node_id (v : pystr) (f : NodeForm) : NodeForm :=
  mkNodeForm v (var_node_title f) (txt_scene f) (txt_content f) (txt_dialog f)
    (txt_info f) (txt_tech f) (txt_outcomes f) (txt_notes f) (tree_opts f).

(** [l[i] = x] for an index inside the list. *)
Fixpoint list_set {A : Type} (l : list A) (i : nat) (x : A) : list A :=
  match l, i with
  | [], _ => []
  | _ :: t, O => x :: t
  | y :: t, S i' => y :: list_set t i' x
  end.

Definition _apply_meta_from_ui : Ed unit :=
  ed_modify (fun st =>
    let f := meta_form st in
    let m :=
      mkQuestMeta (str_strip (var_quest_name f)) (str_strip (var_region f))
        (str_strip (txt_short f)) (str_strip (var_quest_giver f))
        (str_strip (var_prereq f)) (str_strip (var_type f))
        (str_strip (txt_meta_short f)) (str_strip (txt_rewards f))
        (str_strip (txt_imp_flags f)) (str_strip (var_version f)) in
    set_project (mkQuestProject m (nodes (project st))) st).

Definition _refresh_node_list : Ed unit :=
  ed_modify (fun st =>
    set_listbox
      (map (fun n => node_id n ++ lit "  —  " ++ title n) (nodes (project st)))
      None st).

(** The loop of [_add_node] that looks for a free id, from the counter [i]:
    [while new_id in existing: i += 1].  [fuel] bounds the number of
    increments; [fresh_index_in_fuel] shows that the bound given in
    [_add_node] is never reached. *)
Fixpoint fresh_index (base : pystr) (existing : list pystr) (fuel i : nat) : nat :=
  if str_in (base ++ lit "-" ++ str_of_nat i) existing then
    match fuel with
    | O => i
    | S fuel' => fresh_index base existing fuel' (S i)
    end
  else i.

(** The statements of [_add_node] that create the node and append it. *)
Definition add_new_node (p : QuestProject) : QuestProject :=
  let base := lit "knoten" in
  let existing := map node_id (nodes p) in
  let i := fresh_index base existing (List.length existing) 1 in
  let new_id := base ++ lit "-" ++ str_of_nat i in
  let new_node :=
    Node_default new_id (lit "Knoten " ++ str_of_nat i)
      [mkOption (lit "Weiter") (lit "end")] in
  mkQuestProject (meta p) (nodes p ++ [new_node]).

Section Editor.

Variable str_lower : pystr -> pystr.

(** The node that [_apply_current_node] writes from the form. *)
Definition node_from_form (node_id_ : pystr) (f : NodeForm) : Node :=
  let title_ := str_strip (var_node_title f) in
  mkNode node_id_ (str_or title_ node_id_)
    (str_strip (txt_scene f))
    (str_rstrip (txt_dialog f))
    (str_strip (txt_content f))
    (lines_to_list (txt_info f))
    (lines_to_list (txt_tech f))
    (lines_to_list (txt_outcomes f))
    (str_strip (txt_notes f))
    (map (fun row =>
            mkOption (str_strip (fst row))
              (sanitize_id str_lower (str_strip (snd row))))
       (tree_opts f)).

Definition _apply_current_node (silent : bool) : Ed unit :=
  st <- ed_get ;;
  match current_node_index st with
  | None => ret tt
  | Some idx =>
      n <- ed_lift (list_index (nodes (project st)) idx) ;;
      let node_id_ := sanitize_id str_lower (var_node_id (node_form st)) in
      let collides :=
        if negb (str_eqb node_id_ (node_id n))
        then str_in node_id_ (map node_id (nodes (project st)))
        else false in
      if collides then
        (if negb silent
         then ed_modify (show_dialog
                (ShowError (lit "ID existiert")
                   (lit "Die Knoten-ID '" ++ node_id_
                      ++ lit "' gibt es schon. Wähle eine andere.")))
         else ret tt) ;;
        ed_modify (fun st =>
          set_node_form (set_var_node_id (node_id n) (node_form st)) st)
      else
        ed_modify (fun st =>
          set_project
            (mkQuestProject (meta (project st))
               (list_set (nodes (project st)) idx
                  (node_from_form node_id_ (node_form st)))) st) ;;
        _refresh_node_list
  end.

(** [_select_node]: the form is filled from the node ([_set_text],
    [_reload_options_tree]) and the list box selects it. *)
Definition _select_node (idx : nat) : Ed unit :=
  st <- ed_get ;;
  (match current_node_index st with
   | Some _ => _apply_current_node true
   | None => ret tt
   end) ;;
  ed_modify (set_current_node_index (Some idx)) ;;
  st <- ed_get ;;
  n <- ed_lift (list_index (nodes (project st)) idx) ;;
  ed_modify (set_node_form
    (mkNodeForm (node_id n) (title n) (scene n) (content n) (dialog n)
       (list_to_lines (info_items n)) (list_to_lines (tech_flags n))
       (list_to_lines (outcomes n)) (notes n)
       (map (fun o => (label o, target o)) (options n)))) ;;
  ed_modify (fun st => set_listbox (lst_nodes st) (Some idx) st).

Definition _add_node : Ed unit :=
  _apply_meta_from_ui ;;
  _apply_current_node true ;;
  ed_modify (fun st => set_project (add_new_node (project st)) st) ;;
  _refresh_node_list ;;
  st <- ed_get ;;
  _select_node (List.length (nodes (project st)) - 1).

End Editor.

(** The state after a rejected change of id: the form shows the old id
    again, and the error dialog has been shown unless [silent]. *)
Definition rejected_state (silent : bool) (new_id : pystr) (n : Node)
           (st : App) : App :=
  let st1 :=
    if silent then st
    else show_dialog
           (ShowError (lit "ID existiert")
              (lit "Die Knoten-ID '" ++ new_id
                 ++ lit "' gibt es schon. Wähle eine andere.")) st in
  set_node_form (set_var_node_id (node_id n) (node_form st1)) st1.

(** A state of the editor with the nodes [start] and [finish], the first
    one selected, and [Finish!] typed into the id field. *)
Definition st_rename : App :=
  mkApp
    (mkQuestProject QuestMeta_default
       [ Node_default (lit "start") (lit "Start") [];
         Node_default (lit "finish") (lit "Finish") [] ])
    (Some 0)
    (mkMetaForm (lit "Neue Quest") (lit "Unbekannt") [] [] [] (lit "v1")
       (lit "Kurzbeschreibung hier…") [] [] [])
    (mkNodeForm (lit "Finish!") (lit "Start") [] [] [] [] [] [] [] [])
    [ lit "start  —  Start"; lit "finish  —  Finish" ]
    (Some 0)
    [].

(** The form shows the node [n] without pending edits: writing the form
    back, as [_apply_current_node] does, gives [n] again. *)
Definition form_in_sync (str_lower : pystr -> pystr) (st : App) (n : Node)
  : Prop :=
  node_from_form str_lower
    (sanitize_id str_lower (var_node_id (node_form st))) (node_form st) = n.

(** The state of the editor after [__init__], with the version field as
    typed by the user. *)
Definition st_initial : App :=
  mkApp
    (mkQuestProject QuestMeta_default
       [ Node_default (lit "start") (lit "Start: Ardea") [] ])
    (Some 0)
    (mkMetaForm (lit "Neue Quest") (lit "Unbekannt") [] [] [] (lit "v1")
       (lit "Kurzbeschreibung hier…") [] [] [])
    (mkNodeForm (lit "start") (lit "Start: Ardea") [] [] [] [] [] [] [] [])
    [ lit "start  —  Start: Ardea" ]
    (Some 0)
    [].

(** The state after [__init__] with [knoten-1] typed into the id field and
    not yet applied. *)
Definition st_pending_id : App :=
  mkApp
    (mkQuestProject QuestMeta_default
       [ Node_default (lit "start") (lit "Start: Ardea") [] ])
    (Some 0)
    (mkMetaForm (lit "Neue Quest") (lit "Unbekannt") [] [] [] (lit "v1")
       (lit "Kurzbeschreibung hier…") [] [] [])
    (mkNodeForm (lit "knoten-1") (lit "Start: Ardea") [] [] [] [] [] [] [] [])
    [ lit "start  —  Start: Ardea" ]
    (Some 0)
    [].

(** A state whose selected index lies behind the last node. *)
Definition st_stale_index : App :=
  mkApp
    (mkQuestProject QuestMeta_default
       [ Node_default (lit "start") (lit "Start: Ardea") [] ])
    (Some 1)
    (mkMetaForm (lit "Neue Quest") (lit "Unbekannt") [] [] [] (lit "v1")
       (lit "Kurzbeschreibung hier…") [] [] [])
    (mkNodeForm (lit "start") (lit "Start: Ardea") [] [] [] [] [] [] [] [])
    [ lit "start  —  Start: Ardea" ]
    (Some 0)
    [].

(** The form holds no pending edit: no node is selected, or the selected
    index is inside the graph and the form shows that node as it is
    ([form_in_sync]). *)
Definition no_pending_edit (str_lower : pystr -> pystr) (st : App) : Prop :=
  match current_node_index st with
  | None => True
  | Some idx =>
      exists n, nth_error (nodes (project st)) idx = Some n
                /\ form_in_sync str_lower st n
  end.

(** ** The editor: deleting and moving nodes *)

(** [del l[i]] for an index inside the list. *)
Definition list_del {A : Type} (l : list A) (i : nat) : list A :=
  firstn i l ++ skipn (S i) l.

Section EditorMore.

Variable str_lower : pystr -> pystr.

(** [_delete_node]; [askyesno] is the answer of the user to the question
    dialog with the given title and message. *)
Definition _delete_node (askyesno : pystr -> pystr -> bool) : Ed unit :=
  st <- ed_get ;;
  match current_node_index st with
  | None => ret tt
  | Some idx =>
      if List.length (nodes (project st)) <=? 1 then
        ed_modify (show_dialog
          (ShowWarning (lit "Nein.")
             (lit "Mindestens ein Knoten muss bleiben. (Sonst stolpert die HTML über die Leere.)")))
      else
        n <- ed_lift (list_index (nodes (project st)) idx) ;;
        if negb (askyesno (lit "Knoten löschen")
                   (lit "Knoten '" ++ node_id n ++ lit "' wirklich löschen?"))
        then ret tt
        else
          ed_modify (fun st =>
            set_project
              (mkQuestProject (meta (project st))
                 (list_del (nodes (project st)) idx)) st) ;;
          ed_modify (set_current_node_index None) ;;
          _refresh_node_list ;;
          _select_node str_lower (Nat.max 0 (idx - 1))
  end.

(** [_move_node(direction)]; the buttons call it with [-1] and [1].  The
    right-hand side of the swap reads [nodes[new_idx]], then [nodes[idx]]. *)
Definition _move_node (direction : Z) : Ed unit :=
  st <- ed_get ;;
  match current_node_index st with
  | None => ret tt
  | Some idx =>
      let new_idx := (Z.of_nat idx + direction)%Z in
      if ((new_idx <? 0) || (Z.of_nat (List.length (nodes (project st))) <=? new_idx))%Z
      then ret tt
      else
        _apply_current_node str_lower true ;;
        st <- ed_get ;;
        a <- ed_lift (list_index (nodes (project st)) (Z.to_nat new_idx)) ;;
        b <- ed_lift (list_index (nodes (project st)) idx) ;;
        ed_modify (fun st =>
          set_project
            (mkQuestProject (meta (project st))
               (list_set (list_set (nodes (project st)) idx a)
                  (Z.to_nat new_idx) b)) st) ;;
        _refresh_node_list ;;
        _select_node str_lower (Z.to_nat new_idx)
  end.

End EditorMore.

(** ** Predicates used in the statements *)

(** [re.fullmatch(r"[a-z0-9_-]+", s)]. *)
Definition valid_id (s : pystr) : bool := truthy s && forallb idchar s.

(** The first character, if any, is outside the class [p]. *)
Definition hd_not (p : codepoint -> bool) (s : pystr) : bool :=
  match s with [] => true | c :: _ => negb (p c) end.

(** No two adjacent characters of the class [p]. *)
Fixpoint no_run2 (p : codepoint -> bool) (s : pystr) : bool :=
  match s with
  | [] => true
  | c :: t => negb (p c && negb (hd_not p t)) && no_run2 p t
  end.

Definition NoRun2 (p : codepoint -> bool) (s : pystr) : Prop :=
  forall a x y b, s = a ++ x :: y :: b -> p x = true -> p y = true -> False.

Definition IdChars (s : pystr) : Prop := Forall (fun c => idchar c = true) s.

(** What the last three steps of [sanitize_id] establish. *)
Record CleanId (s : pystr) : Prop := {
  clean_chars : IdChars s;
  clean_nonempty : s <> [];
  clean_no_run : NoRun2 is_dash s;
  clean_first : hd_not is_dash s = true;
  clean_last : hd_not is_dash (rev s) = true
}.

(** Escaping of one character by [html_escape]. *)
Definition esc_char (c : codepoint) : pystr :=
  if cp_eqb c 38%N then lit "&amp;"
  else if cp_eqb c 60%N then lit "&lt;"
  else if cp_eqb c 62%N then lit "&gt;"
  else [c].

(** Every [<] of the string is followed, inside the string, by two
    characters that are not [b>]: the string opens no [<b>] tag and none can
    arise where it is joined to other text. *)
Fixpoint tagsafe (s : pystr) : bool :=
  match s with
  | [] => true
  | c :: t =>
      (if cp_eqb c 60%N then
         match t with
         | c1 :: c2 :: _ => negb (cp_eqb c1 98%N && cp_eqb c2 62%N)
         | _ => false
         end
       else true) && tagsafe t
  end.

(** [x] occurs in [s], and [y] occurs after it. *)
Definition occurs_before (x y s : pystr) : Prop :=
  exists pre mid post, s = pre ++ x ++ mid ++ y ++ post.

(** No [<] of the string is followed by the characters [a], [b]; as for
    [tagsafe], every [<] has two characters behind it. *)
Fixpoint no_tag2 (a b : codepoint) (s : pystr) : bool :=
  match s with
  | [] => true
  | c :: t =>
      (if cp_eqb c 60%N then
         match t with
         | c1 :: c2 :: _ => negb (cp_eqb c1 a && cp_eqb c2 b)
         | _ => false
         end
       else true) && no_tag2 a b t
  end.

(** Every [&] of the string starts one of the entities [&amp;], [&lt;],
    [&gt;], and the entity lies inside the string. *)
Fixpoint amp_ok (s : pystr) : bool :=
  match s with
  | [] => true
  | c :: t =>
      (if cp_eqb c 38%N
       then prefixb (lit "amp;") t || prefixb (lit "lt;") t
            || prefixb (lit "gt;") t
       else true) && amp_ok t
  end.

(** No line boundary of [str.splitlines] in the string. *)
Definition one_line (s : pystr) : Prop :=
  Forall (fun c => is_linebreak c = false) s.

(** The string is what [strip()] returns for it: no white space at either
    end. *)
Definition stripped (s : pystr) : Prop :=
  hd_not is_space s = true /\ hd_not is_space (rev s) = true.

(** The link of a node in the navigation list of [render_nav]. *)
Definition nav_link (n : Node) : pystr :=
  lit "<a href=" ++ dq ++ lit "#" ++ html_escape (node_id n) ++ dq
    ++ lit ">" ++ html_escape (str_or (title n) (node_id n)) ++ lit "</a>".

(** [x] is an element of the list, and [y] a later one. *)
Definition before_in {A : Type} (x y : A) (l : list A) : Prop :=
  exists a b c, l = a ++ x :: b ++ y :: c.



(** The names of the fields of a node in a document. *)
Definition node_keys : list pystr :=
  [ lit "node_id"; lit "title"; lit "scene"; lit "dialog"; lit "content";
    lit "info_items"; lit "tech_flags"; lit "outcomes"; lit "notes";
    lit "options" ].

(** The graph of the example of the specification: [start] with the choice
    [Go] to [finish], and [finish] without choice. *)
Definition p_ardea : QuestProject :=
  mkQuestProject
    (mkQuestMeta (lit "Ardea") [] [] [] [] [] [] [] [] [])
    [ Node_default (lit "start") (lit "Start")
        [mkOption (lit "Go") (lit "finish")];
      Node_default (lit "finish") (lit "Finish") [] ].

(** The state after [_apply_current_node] has written the form into the
    node at [idx]: the node is replaced and the list box is filled anew. *)
Definition applied_state (str_lower : pystr -> pystr) (idx : nat) (st : App)
  : App :=
  let nodes' :=
    list_set (nodes (project st)) idx
      (node_from_form str_lower
         (sanitize_id str_lower (var_node_id (node_form st))) (node_form st)) in
  set_listbox
    (map (fun n => node_id n ++ lit "  —  " ++ title n) nodes') None
    (set_project (mkQuestProject (meta (project st)) nodes') st).

(** The form filled from a node by [_select_node]. *)
Definition form_of_node (n : Node) : NodeForm :=
  mkNodeForm (node_id n) (title n) (scene n) (content n) (dialog n)
    (list_to_lines (info_items n)) (list_to_lines (tech_flags n))
    (list_to_lines (outcomes n)) (notes n)
    (map (fun o => (label o, target o)) (options n)).

(** The editor on the example graph, [start] selected and shown in the
    form. *)
Definition st_ardea : App :=
  mkApp p_ardea (Some 0)
    (mkMetaForm (lit "Ardea") [] [] [] [] (lit "v1") [] [] [] [])
    (form_of_node
       (Node_default (lit "start") (lit "Start")
          [mkOption (lit "Go") (lit "finish")]))
    [ lit "start  —  Start"; lit "finish  —  Finish" ]
    (Some 0)
    [].

(** ** Strings: basic facts *)

Section StringFacts.

Variable p : codepoint -> bool.

Lemma drop_while_suffix s : exists a, s = a ++ drop_while p s.
Proof.
  induction s as [|c t [a IH]]; simpl.
  - exists []; reflexivity.
  - destruct (p c).
    + exists (c :: a). simpl. congruence.
    + exists []. reflexivity.
Qed.

Lemma drop_while_hd s : hd_not p (drop_while p s) = true.
Proof.
  induction s as [|c t IH]; simpl; auto.
  destruct (p c) eqn:E; auto. simpl. now rewrite E.
Qed.

Lemma drop_while_id s : hd_not p s = true -> drop_while p s = s.
Proof.
  destruct s as [|c t]; simpl; auto.
  destruct (p c); simpl; congruence.
Qed.

Lemma drop_while_snoc a c :
  p c = false -> drop_while p (a ++ [c]) = drop_while p a ++ [c].
Proof.
  intros Hc. induction a as [|x a IH]; simpl.
  - now rewrite Hc.
  - destruct (p x); auto.
Qed.

Lemma rstrip_chars_prefix s : exists b, s = rstrip_chars p s ++ b.
Proof.
  unfold rstrip_chars.
  destruct (drop_while_suffix (rev s)) as [a Ha].
  exists (rev a).
  rewrite <- rev_app_distr, <- Ha. now rewrite rev_involutive.
Qed.

Lemma rstrip_chars_keeps_hd s :
  hd_not p s = true -> hd_not p (rstrip_chars p s) = true.
Proof.
  unfold rstrip_chars. destruct s as [|c t]; simpl; auto.
  intros Hc. apply negb_true_iff in Hc.
  rewrite drop_while_snoc by assumption.
  rewrite rev_app_distr. simpl. now rewrite Hc.
Qed.

Lemma strip_chars_infix s : exists a b, s = a ++ strip_chars p s ++ b.
Proof.
  unfold strip_chars, lstrip_chars.
  destruct (drop_while_suffix s) as [a Ha].
  destruct (rstrip_chars_prefix (drop_while p s)) as [b Hb].
  exists a, b. now rewrite <- Hb.
Qed.

Lemma strip_chars_hd s : hd_not p (strip_chars p s) = true.
Proof.
  unfold strip_chars, lstrip_chars.
  apply rstrip_chars_keeps_hd, drop_while_hd.
Qed.

Lemma strip_chars_last s : hd_not p (rev (strip_chars p s)) = true.
Proof.
  unfold strip_chars, rstrip_chars. rewrite rev_involutive.
  apply drop_while_hd.
Qed.

Lemma rstrip_chars_id s :
  hd_not p (rev s) = true -> rstrip_chars p s = s.
Proof.
  intros H. unfold rstrip_chars.
  rewrite drop_while_id by assumption. apply rev_involutive.
Qed.

Lemma strip_chars_id s :
  hd_not p s = true -> hd_not p (rev s) = true -> strip_chars p s = s.
Proof.
  intros H1 H2. unfold strip_chars, lstrip_chars.
  rewrite drop_while_id by assumption. now apply rstrip_chars_id.
Qed.

Lemma strip_chars_Forall (Q : codepoint -> Prop) s :
  Forall Q s -> Forall Q (strip_chars p s).
Proof.
  intros H. destruct (strip_chars_infix s) as (a & b & E).
  rewrite E in H. apply Forall_app in H as [_ H].
  now apply Forall_app in H as [H _].
Qed.

Lemma hd_not_Forall (Q : codepoint -> Prop) s :
  (forall c, Q c -> p c = false) -> Forall Q s -> hd_not p s = true.
Proof.
  intros HQ H. destruct H as [|c t Hc _]; simpl; auto.
  now rewrite (HQ c Hc).
Qed.

(** A rstrip after a literal tail that ends in a visible character removes
    only what follows that character. *)
Lemma rstrip_chars_app_visible s c w :
  p c = false -> forallb p w = true ->
  rstrip_chars p (s ++ c :: w) = s ++ [c].
Proof.
  intros Hc Hw. unfold rstrip_chars.
  rewrite rev_app_distr. simpl rev. rewrite <- app_assoc. simpl.
  assert (G : forall u v, forallb p u = true ->
                          drop_while p (rev u ++ v) = drop_while p v).
  { induction u as [|x u IH]; simpl; intros v Hu; auto.
    apply andb_true_iff in Hu as [Hx Hu].
    rewrite <- app_assoc. rewrite IH by assumption. simpl. now rewrite Hx. }
  rewrite G by assumption. simpl. rewrite Hc.
  simpl. rewrite rev_involutive. reflexivity.
Qed.

Lemma no_run2_NoRun2 s : no_run2 p s = true -> NoRun2 p s.
Proof.
  induction s as [|c t IH]; intros H a x y b E Hx Hy.
  - destruct a; discriminate.
  - simpl in H. apply andb_true_iff in H as [H1 H2].
    destruct a as [|a0 a]; simpl in E; injection E as -> ->.
    + simpl in H1. now rewrite Hx, Hy in H1.
    + eapply IH; eauto.
Qed.

Lemma NoRun2_infix a s b : NoRun2 p (a ++ s ++ b) -> NoRun2 p s.
Proof.
  intros H a' x y b' -> Hx Hy.
  apply (H (a ++ a') x y (b' ++ b)); auto.
  rewrite <- !app_assoc. reflexivity.
Qed.

Lemma NoRun2_tail c s : NoRun2 p (c :: s) -> NoRun2 p s.
Proof.
  intros H. apply (@NoRun2_infix [c] s []). now rewrite app_nil_r.
Qed.

End StringFacts.

(** ** The identifier sanitizer *)

Lemma idchar_spec c :
  idchar c = true <->
  (97 <= c <= 122 \/ 48 <= c <= 57 \/ c = 45 \/ c = 95)%N.
Proof.
  unfold idchar.
  rewrite !orb_true_iff, !andb_true_iff, !N.leb_le, !N.eqb_eq. tauto.
Qed.

Lemma idchar_not_space c : idchar c = true -> is_space c = false.
Proof.
  intros H. apply idchar_spec in H. apply not_true_is_false. unfold is_space.
  rewrite !orb_true_iff, !andb_true_iff, !N.leb_le, !N.eqb_eq. lia.
Qed.

Lemma idchar_not_upper c :
  idchar c = true -> ((65 <=? c) && (c <=? 90))%N = false.
Proof.
  intros H. apply idchar_spec in H. apply not_true_is_false.
  rewrite andb_true_iff, !N.leb_le. lia.
Qed.

Lemma idchar_neq c d :
  idchar c = true -> idchar d = false -> cp_eqb c d = false.
Proof.
  intros Hc Hd. unfold cp_eqb. destruct (N.eqb_spec c d); auto. congruence.
Qed.

Lemma valid_id_spec s : valid_id s = true <-> s <> [] /\ IdChars s.
Proof.
  unfold valid_id, IdChars. rewrite andb_true_iff, forallb_forall, Forall_forall.
  destruct s; simpl; intuition congruence.
Qed.

Lemma IdChars_valid s : IdChars s -> valid_id (str_or s (lit "node")) = true.
Proof.
  intros H. unfold str_or. destruct s as [|c t]; simpl truthy; cbv iota.
  - reflexivity.
  - apply valid_id_spec. split; [discriminate | assumption].
Qed.

Section RegexFacts.

Variable p : codepoint -> bool.

Lemma re_sub_plus_Forall (Q : codepoint -> Prop) repl b s :
  Forall Q repl -> (forall c, p c = false -> Q c) ->
  Forall Q (re_sub_plus p repl b s).
Proof.
  intros Hr HQ. revert b.
  induction s as [|c t IH]; intros b; simpl; auto.
  destruct (p c) eqn:E.
  - destruct b; auto. apply Forall_app; auto.
  - constructor; auto.
Qed.

Lemma re_sub_plus_id repl b s :
  Forall (fun c => p c = false) s -> re_sub_plus p repl b s = s.
Proof.
  intros H. revert b.
  induction H as [|c t Hc _ IH]; intros b; simpl; auto.
  rewrite Hc. now rewrite IH.
Qed.

Lemma re_sub_2plus_Forall (Q : codepoint -> Prop) repl b s :
  Forall Q repl -> Forall Q s -> Forall Q (re_sub_2plus p repl b s).
Proof.
  intros Hr H. revert b.
  induction H as [|c t Hc Ht IH]; intros b; simpl; auto.
  destruct (p c).
  - destruct b; auto.
    destruct t as [|c' t']; auto.
    destruct (p c').
    + apply Forall_app; auto.
    + constructor; auto.
  - constructor; auto.
Qed.

Lemma re_sub_2plus_hd d s :
  p d = true ->
  hd_not p (re_sub_2plus p [d] true s) = true
  /\ (hd_not p s = true -> hd_not p (re_sub_2plus p [d] false s) = true).
Proof.
  intros Hd. induction s as [|c t [IH1 IH2]]; simpl; auto.
  destruct (p c) eqn:E; simpl.
  - split; auto. discriminate.
  - rewrite E. auto.
Qed.

Lemma no_run2_cons c s :
  (p c = false \/ hd_not p s = true) ->
  no_run2 p s = true -> no_run2 p (c :: s) = true.
Proof.
  intros H Hs. simpl. rewrite Hs, andb_true_r.
  destruct H as [-> | ->]; auto. now rewrite andb_false_r.
Qed.

Lemma re_sub_2plus_no_run2 d b s :
  p d = true -> no_run2 p (re_sub_2plus p [d] b s) = true.
Proof.
  intros Hd. revert b.
  induction s as [|c t IH]; intros b; auto.
  cbn [re_sub_2plus].
  destruct (p c) eqn:E.
  - destruct b; auto.
    destruct t as [|c' t']; [simpl; now rewrite E|].
    destruct (p c') eqn:E'.
    + cbn [app]. apply no_run2_cons; auto.
      right. exact (proj1 (@re_sub_2plus_hd d (c' :: t') Hd)).
    + apply no_run2_cons; auto.
      right. apply (proj2 (@re_sub_2plus_hd d (c' :: t') Hd)).
      simpl. now rewrite E'.
  - apply no_run2_cons; auto.
Qed.

Lemma re_sub_2plus_id repl s :
  NoRun2 p s -> re_sub_2plus p repl false s = s.
Proof.
  induction s as [|c t IH]; intros H; auto.
  cbn [re_sub_2plus].
  assert (IH' := IH (NoRun2_tail H)).
  destruct (p c) eqn:E; [|now rewrite IH'].
  destruct t as [|c' t']; auto.
  destruct (p c') eqn:E'; [|now rewrite IH'].
  exfalso. exact (H [] c c' t' eq_refl E E').
Qed.

End RegexFacts.

Lemma str_replace1_id old new s :
  Forall (fun c => cp_eqb c old = false) s -> str_replace1 old new s = s.
Proof.
  unfold str_replace1.
  induction 1 as [|c t Hc _ IH]; simpl; auto.
  rewrite Hc. simpl. now rewrite IH.
Qed.

Section Sanitizer.

Variable str_lower : pystr -> pystr.

Lemma sanitize_id_IdChars_pre raw :
  IdChars
    (strip_chars is_dash
       (re_sub_2plus is_dash (lit "-") false
          (re_sub_plus (fun c => negb (idchar c)) (lit "-") false raw))).
Proof.
  apply strip_chars_Forall, re_sub_2plus_Forall.
  - repeat constructor.
  - apply re_sub_plus_Forall.
    + repeat constructor.
    + intros c Hc. now apply negb_false_iff in Hc.
Qed.

Lemma sanitize_id_clean raw : CleanId (sanitize_id str_lower raw).
Proof.
  unfold sanitize_id, sanitize_id_cleaned.
  set (u := re_sub_plus _ _ _ _).
  pose proof (sanitize_id_IdChars_pre
                (str_replace1 223%N (lit "ss")
                   (str_replace1 252%N (lit "ue")
                      (str_replace1 246%N (lit "oe")
                         (str_replace1 228%N (lit "ae")
                            (str_lower (str_strip raw))))))) as Hc.
  fold u in Hc.
  set (w := re_sub_2plus is_dash (lit "-") false u) in *.
  assert (Hw : NoRun2 is_dash w).
  { apply no_run2_NoRun2. apply re_sub_2plus_no_run2. reflexivity. }
  unfold str_or.
  destruct (strip_chars is_dash w) as [|c t] eqn:E; simpl truthy; cbv iota.
  - split; try reflexivity.
    + repeat constructor.
    + discriminate.
    + apply no_run2_NoRun2. reflexivity.
  - rewrite <- E. split.
    + now rewrite E.
    + rewrite E. discriminate.
    + destruct (strip_chars_infix is_dash w) as (a & b & Hab).
      rewrite Hab in Hw. eapply NoRun2_infix; exact Hw.
    + apply strip_chars_hd.
    + apply strip_chars_last.
Qed.

(** C4. [sanitize_id] is a total function, and for every input string,
    the empty string and strings of punctuation included, its result is
    non-empty and matches [^[a-z0-9_-]+$]; the result is the literal
    [node] when the cleaned string is empty. *)
Theorem sanitize_id_valid :
  forall raw : pystr,
    valid_id (sanitize_id str_lower raw) = true
    /\ sanitize_id str_lower raw <> []
    /\ (sanitize_id_cleaned str_lower raw = []
        -> sanitize_id str_lower raw = lit "node").
Proof.
  intros raw.
  destruct (sanitize_id_clean raw) as [Hc Hn _ _ _].
  split; [|split]; auto.
  - apply valid_id_spec. auto.
  - unfold sanitize_id. intros ->. reflexivity.
Qed.

Lemma sanitize_id_fixes_clean s :
  str_lower s = s -> CleanId s -> sanitize_id str_lower s = s.
Proof.
  intros Hl [Hc Hn Hr Hf Hla].
  assert (Hc' : IdChars (rev s)) by now apply Forall_rev.
  unfold sanitize_id, sanitize_id_cleaned, str_strip.
  rewrite (@strip_chars_id is_space s);
    try (eapply hd_not_Forall; [exact idchar_not_space | assumption]).
  rewrite Hl.
  assert (R : forall old new,
             idchar old = false -> str_replace1 old new s = s).
  { intros old new Ho. apply str_replace1_id.
    eapply Forall_impl; [|exact Hc]. intros c Hi. now apply idchar_neq. }
  rewrite (R 228%N), (R 246%N), (R 252%N), (R 223%N) by reflexivity.
  rewrite re_sub_plus_id
    by (eapply Forall_impl; [|exact Hc]; intros c Hi; simpl; now rewrite Hi).
  rewrite re_sub_2plus_id by assumption.
  rewrite strip_chars_id by assumption.
  unfold str_or. destruct s; [congruence | reflexivity].
Qed.

(** C5. [sanitize_id] is idempotent.  The statement needs of [str.lower]
    only that it leaves strings over [a-z0-9_-] as they are, which holds of
    Python's. *)
Theorem sanitize_id_idempotent :
  (forall s, IdChars s -> str_lower s = s) ->
  forall x : pystr,
    sanitize_id str_lower (sanitize_id str_lower x) = sanitize_id str_lower x.
Proof.
  intros Hlower x.
  pose proof (sanitize_id_clean x) as Hx.
  apply sanitize_id_fixes_clean; auto.
  apply Hlower, Hx.
Qed.

End Sanitizer.

Lemma ascii_lower_IdChars s : IdChars s -> ascii_lower s = s.
Proof.
  unfold ascii_lower.
  induction 1 as [|c t Hc _ IH]; simpl; auto.
  rewrite (idchar_not_upper _ Hc). now rewrite IH.
Qed.

Lemma sanitize_id_idempotent_witness :
  (forall s, IdChars s -> ascii_lower s = s)
  /\ sanitize_id ascii_lower
       (sanitize_id ascii_lower (lit "  Der Händler -- (Teil 2)! "))
     = sanitize_id ascii_lower (lit "  Der Händler -- (Teil 2)! ").
Proof.
  split.
  - exact ascii_lower_IdChars.
  - apply (@sanitize_id_idempotent ascii_lower ascii_lower_IdChars).
Defined.

Example sanitize_id_umlaut :
  sanitize_id ascii_lower (lit "  Der Händler -- (Teil 2)! ")
  = lit "der-haendler-teil-2".
Proof. vm_compute. reflexivity. Qed.

Example sanitize_id_punct : sanitize_id ascii_lower (lit "?!") = lit "node".
Proof. vm_compute. reflexivity. Qed.

Example sanitize_id_empty : sanitize_id ascii_lower [] = lit "node".
Proof. vm_compute. reflexivity. Qed.

(** ** Persistence *)

Lemma py_or_arr l : py_or (JArr l) (JArr []) = JArr l.
Proof. destruct l; reflexivity. Qed.

Lemma py_or_jstrs l : py_or (jstrs l) (JArr []) = jstrs l.
Proof. apply py_or_arr. Qed.

Lemma option_roundtrip o :
  option_from_dict (option_to_dict o) = Ok (dyn_of_option o).
Proof. destruct o. reflexivity. Qed.

Lemma mapM_result_map {A B C : Type} (f : B -> result C) (g : A -> B)
      (h : A -> C) (l : list A) :
  (forall x, f (g x) = Ok (h x)) ->
  mapM_result f (map g l) = Ok (map h l).
Proof.
  intros H. induction l as [|x t IH]; simpl; auto.
  now rewrite H, IH.
Qed.

Lemma meta_roundtrip m :
  meta_from_jsonable (meta_to_jsonable m) = Ok (dyn_of_meta m).
Proof. destruct m. reflexivity. Qed.

Lemma node_roundtrip n :
  node_from_jsonable (node_to_jsonable n) = Ok (dyn_of_node n).
Proof.
  destruct n as [a b c d e f g h i o].
  unfold node_from_jsonable, node_to_jsonable. cbn.
  rewrite py_or_arr. cbn.
  rewrite (mapM_result_map option_from_dict option_to_dict dyn_of_option)
    by apply option_roundtrip.
  now rewrite !py_or_jstrs.
Qed.

Lemma map_JStr_inj l l' : map JStr l = map JStr l' -> l = l'.
Proof.
  revert l'. induction l as [|x t IH]; intros [|y t'] E;
    try discriminate; auto.
  simpl in E. injection E as -> E. f_equal. auto.
Qed.

Lemma dyn_of_option_inj o o' : dyn_of_option o = dyn_of_option o' -> o = o'.
Proof. destruct o, o'. unfold dyn_of_option. simpl. congruence. Qed.

Lemma map_inj {A B : Type} (f : A -> B) :
  (forall x y, f x = f y -> x = y) ->
  forall l l', map f l = map f l' -> l = l'.
Proof.
  intros Hf. induction l as [|x t IH]; intros [|y t'] E;
    try discriminate; auto.
  simpl in E. injection E as E1 E2. f_equal; auto.
Qed.

Lemma dyn_of_node_inj n n' : dyn_of_node n = dyn_of_node n' -> n = n'.
Proof.
  destruct n, n'. unfold dyn_of_node, jstrs. simpl. intros E.
  injection E as E1 E2 E3 E4 E5 E6 E7 E8 E9 E10.
  apply map_JStr_inj in E6, E7, E8.
  apply (map_inj dyn_of_option dyn_of_option_inj) in E10.
  congruence.
Qed.

Lemma dyn_of_project_inj p p' :
  dyn_of_project p = dyn_of_project p' -> p = p'.
Proof.
  destruct p as [m ns], p' as [m' ns']. intros E.
  pose proof (f_equal Dyn.meta E) as E1.
  pose proof (f_equal Dyn.nodes E) as E2. simpl in E1, E2.
  apply (map_inj dyn_of_node dyn_of_node_inj) in E2.
  destruct m, m'. unfold dyn_of_meta in E1. simpl in E1. congruence.
Qed.

(** C1. Decoding the encoding of a quest graph gives back the graph: the
    meta fields, the nodes in order, every field of every node, and its
    options in order with label and target.  [project_from_jsonable] returns
    the instances [dyn_of_project g], which determine [g].  The statement
    holds for every graph, with or without the invariants on the node ids. *)
Theorem project_jsonable_roundtrip :
  forall g : QuestProject,
    project_from_jsonable (project_to_jsonable g) = Ok (dyn_of_project g)
    /\ (forall g', project_from_jsonable (project_to_jsonable g')
                   = project_from_jsonable (project_to_jsonable g) ->
                   g' = g).
Proof.
  assert (R : forall g, project_from_jsonable (project_to_jsonable g)
                        = Ok (dyn_of_project g)).
  { intros [m ns]. unfold project_from_jsonable, project_to_jsonable. cbn.
    rewrite (mapM_result_map node_from_jsonable node_to_jsonable dyn_of_node)
      by apply node_roundtrip.
    reflexivity. }
  intros g. split; [apply R|].
  intros g' E. rewrite !R in E.
  apply dyn_of_project_inj. congruence.
Qed.

Example roundtrip_example :
  let g := mkQuestProject
             (mkQuestMeta (lit "Ardea") (lit "Tal") [] [] [] [] [] [] [] [])
             [ mkNode (lit "start") (lit "Start") [] (lit "Hallo") []
                 [lit "a"; lit "b"] [] [] []
                 [mkOption (lit "Go") (lit "finish")];
               Node_default (lit "finish") (lit "Finish") [] ] in
  project_from_jsonable (project_to_jsonable g) = Ok (dyn_of_project g).
Proof. vm_compute. reflexivity. Qed.

Lemma load_project_data_nonempty data q :
  load_project_data data = Ok q -> Dyn.nodes q <> [].
Proof.
  unfold load_project_data.
  destruct (project_from_jsonable data) as [p|e]; cbn; [|discriminate].
  destruct (Dyn.nodes p) as [|n ns] eqn:E; cbn; intros H;
    injection H as H; subst q; cbn.
  - discriminate.
  - rewrite E. discriminate.
Qed.

(** C3. A document that decodes without an exception to a project with no
    node is given, by the decoding steps of [_load_project], the single
    node [start] with title [Start] and defaults elsewhere; so what these
    steps return always has a node. *)
Theorem load_project_data_start :
  forall (data : json) (p : Dyn.QuestProject),
    project_from_jsonable data = Ok p ->
    (Dyn.nodes p = [] ->
     load_project_data data
     = Ok (Dyn.mkQuestProject (Dyn.meta p)
             [dyn_of_node (Node_default (lit "start") (lit "Start") [])]))
    /\ (exists q, load_project_data data = Ok q /\ Dyn.nodes q <> []).
Proof.
  intros data p Hp. split.
  - intros Hn. unfold load_project_data. rewrite Hp. cbn. now rewrite Hn.
  - assert (exists q, load_project_data data = Ok q) as [q Hq].
    { unfold load_project_data. rewrite Hp. cbn.
      destruct (list_truthy (Dyn.nodes p)); cbn; eauto. }
    exists q. split; auto. eapply load_project_data_nonempty; eauto.
Qed.

Lemma load_project_data_start_witness :
  let empty_meta :=
    Dyn.mkQuestMeta (JStr []) (JStr []) (JStr []) (JStr []) (JStr [])
      (JStr []) (JStr []) (JStr []) (JStr []) (JStr []) in
  project_from_jsonable (JObj []) = Ok (Dyn.mkQuestProject empty_meta [])
  /\ load_project_data (JObj [])
     = Ok (Dyn.mkQuestProject empty_meta
             [dyn_of_node (Node_default (lit "start") (lit "Start") [])]).
Proof.
  split.
  - reflexivity.
  - apply (proj1 (@load_project_data_start (JObj []) _ eq_refl)). reflexivity.
Defined.

Example load_empty_nodes_list :
  exists q, load_project_data
              (JObj [(lit "meta", JObj [(lit "quest_name", JStr (lit "Q"))]);
                     (lit "nodes", JArr [])]) = Ok q
            /\ map Dyn.node_id (Dyn.nodes q) = [JStr (lit "start")].
Proof. eexists. split; [vm_compute; reflexivity | reflexivity]. Qed.

Example load_not_a_dict :
  load_project_data (JArr []) = Raised AttributeError.
Proof. reflexivity. Qed.

(** ** Substrings *)

Lemma contains_refl s : contains s s.
Proof. exists [], []. now rewrite List.app_nil_r. Qed.

Lemma contains_app_l sub a b : contains sub a -> contains sub (a ++ b).
Proof.
  intros (x & y & ->). exists x, (y ++ b). now rewrite <- !app_assoc.
Qed.

Lemma contains_app_r sub a b : contains sub b -> contains sub (a ++ b).
Proof.
  intros (x & y & ->). exists (a ++ x), y. now rewrite <- !app_assoc.
Qed.

Lemma contains_trans a b c : contains a b -> contains b c -> contains a c.
Proof.
  intros (x & y & ->) (x' & y' & ->).
  exists (x' ++ x), (y ++ y'). now rewrite <- !app_assoc.
Qed.

Lemma contains_join sep x parts :
  In x parts -> contains x (str_join sep parts).
Proof.
  induction parts as [|p rest IH]; [contradiction|].
  intros [->|H].
  - destruct rest; simpl; [apply contains_refl|].
    apply contains_app_l, contains_refl.
  - destruct rest as [|q rest']; [contradiction|].
    change (str_join sep (p :: q :: rest'))
      with (p ++ sep ++ str_join sep (q :: rest')).
    apply contains_app_r, contains_app_r, IH, H.
Qed.

Lemma prefixb_spec p s : prefixb p s = true <-> starts_with p s.
Proof.
  unfold starts_with. revert s.
  induction p as [|x p IH]; intros s; simpl.
  - split; eauto.
  - destruct s as [|y s].
    + split; [discriminate | intros [post H]; discriminate].
    + unfold cp_eqb. rewrite andb_true_iff, N.eqb_eq, IH. split.
      * intros [-> [post ->]]. eauto.
      * intros [post H]. injection H as -> ->. eauto.
Qed.

Lemma containsb_spec sub s : containsb sub s = true <-> contains sub s.
Proof.
  unfold contains. induction s as [|c t IH]; simpl.
  - rewrite orb_false_r, prefixb_spec. split.
    + intros [post H]. exists [], post. exact H.
    + intros (pre & post & H). destruct pre; simpl in H.
      * exists post. exact H.
      * discriminate.
  - rewrite orb_true_iff, prefixb_spec, IH. split.
    + intros [[post H] | (pre & post & H)].
      * exists [], post. exact H.
      * exists (c :: pre), post. simpl. now rewrite H.
    + intros (pre & post & H). destruct pre as [|c' pre]; simpl in H.
      * left. exists post. exact H.
      * right. injection H as _ H. eauto.
Qed.

(** ** Escaping *)

Lemma str_replace1_app old new a b :
  str_replace1 old new (a ++ b)
  = str_replace1 old new a ++ str_replace1 old new b.
Proof. apply flat_map_app. Qed.

Lemma html_escape_app a b : html_escape (a ++ b) = html_escape a ++ html_escape b.
Proof. unfold html_escape. now rewrite !str_replace1_app. Qed.

Lemma html_escape_char c : html_escape [c] = esc_char c.
Proof.
  unfold esc_char, cp_eqb.
  destruct (N.eqb_spec c 38) as [->|H1]; [reflexivity|].
  destruct (N.eqb_spec c 60) as [->|H2]; [reflexivity|].
  destruct (N.eqb_spec c 62) as [->|H3]; [reflexivity|].
  unfold html_escape, str_replace1, cp_eqb. simpl.
  apply N.eqb_neq in H1, H2, H3. rewrite H1. simpl. rewrite H2. simpl.
  now rewrite H3.
Qed.

(** [html_escape] replaces each character on its own: the three
    replacements do not interfere. *)
Lemma html_escape_flat_map s : html_escape s = flat_map esc_char s.
Proof.
  induction s as [|c t IH]; [reflexivity|].
  change (c :: t) with ([c] ++ t).
  rewrite html_escape_app, html_escape_char, IH. reflexivity.
Qed.

Lemma esc_char_no_angle c :
  Forall (fun d => d <> 60%N /\ d <> 62%N) (esc_char c).
Proof.
  unfold esc_char, cp_eqb.
  destruct (N.eqb_spec c 38); [repeat constructor; discriminate|].
  destruct (N.eqb_spec c 60); [repeat constructor; discriminate|].
  destruct (N.eqb_spec c 62); [repeat constructor; discriminate|].
  repeat constructor; assumption.
Qed.

Lemma html_escape_no_angle s :
  Forall (fun d => d <> 60%N /\ d <> 62%N) (html_escape s).
Proof.
  rewrite html_escape_flat_map.
  induction s as [|c t IH]; simpl; [constructor|].
  apply Forall_app. split; [apply esc_char_no_angle | exact IH].
Qed.

(** ** Tag safety *)

Lemma tagsafe_app a b :
  tagsafe a = true -> tagsafe b = true -> tagsafe (a ++ b) = true.
Proof.
  intros Ha Hb. induction a as [|c t IH]; simpl; auto.
  simpl in Ha. apply andb_true_iff in Ha as [H1 H2].
  rewrite (IH H2), andb_true_r.
  destruct (cp_eqb c 60%N); auto.
  destruct t as [|c1 [|c2 t']]; try discriminate. exact H1.
Qed.

Lemma tagsafe_suffix a b : tagsafe (a ++ b) = true -> tagsafe b = true.
Proof.
  induction a as [|c t IH]; simpl; auto.
  intros H. apply andb_true_iff in H as [_ H]. auto.
Qed.

Lemma tagsafe_no_lt s : Forall (fun d => d <> 60%N) s -> tagsafe s = true.
Proof.
  induction 1 as [|c t Hc _ IH]; simpl; auto.
  unfold cp_eqb. apply N.eqb_neq in Hc. now rewrite Hc, IH.
Qed.

Lemma html_escape_tagsafe s : tagsafe (html_escape s) = true.
Proof.
  apply tagsafe_no_lt. eapply Forall_impl; [|apply html_escape_no_angle].
  intros d [H _]. exact H.
Qed.

Lemma tagsafe_join sep parts :
  tagsafe sep = true -> Forall (fun x => tagsafe x = true) parts ->
  tagsafe (str_join sep parts) = true.
Proof.
  intros Hs H. induction H as [|p rest Hp Hr IH]; auto.
  destruct rest as [|q rest']; [exact Hp|].
  change (str_join sep (p :: q :: rest'))
    with (p ++ sep ++ str_join sep (q :: rest')).
  auto using tagsafe_app.
Qed.

Lemma tagsafe_no_b_tag s : tagsafe s = true -> ~ contains (lit "<b>") s.
Proof.
  intros H (pre & post & E). rewrite E in H.
  apply tagsafe_suffix in H. discriminate H.
Qed.

(** ** The renderer *)

Lemma str_join_snoc2 sep init y z :
  str_join sep (init ++ [y; z]) = str_join sep (init ++ [y]) ++ sep ++ z.
Proof.
  induction init as [|a init IH]; [reflexivity|].
  destruct init as [|b init'].
  - simpl. now rewrite <- !app_assoc.
  - change (str_join sep ((a :: b :: init') ++ [y; z]))
      with (a ++ sep ++ str_join sep ((b :: init') ++ [y; z])).
    rewrite IH.
    change (str_join sep ((a :: b :: init') ++ [y]))
      with (a ++ sep ++ str_join sep ((b :: init') ++ [y])).
    now rewrite <- !app_assoc.
Qed.

Lemma str_join_snoc_app sep init x w :
  str_join sep (init ++ [x ++ w]) = str_join sep (init ++ [x]) ++ w.
Proof.
  induction init as [|a init IH]; [reflexivity|].
  destruct init as [|b init'].
  - simpl. now rewrite <- !app_assoc.
  - change (str_join sep ((a :: b :: init') ++ [x ++ w]))
      with (a ++ sep ++ str_join sep ((b :: init') ++ [x ++ w])).
    rewrite IH.
    change (str_join sep ((a :: b :: init') ++ [x]))
      with (a ++ sep ++ str_join sep ((b :: init') ++ [x])).
    now rewrite <- !app_assoc.
Qed.

(** The templates that are stripped on the right end in [>] and a newline:
    the newline goes. *)
Lemma str_rstrip_template init x :
  str_rstrip (str_join nl (init ++ [x ++ [62%N]; []]))
  = str_join nl (init ++ [x ++ [62%N]]).
Proof.
  rewrite str_join_snoc2, !str_join_snoc_app, List.app_nil_r.
  rewrite <- app_assoc.
  apply (@rstrip_chars_app_visible is_space _ 62%N [10%N]); reflexivity.
Qed.

Lemma render_list_block_cons title x items :
  render_list_block title (x :: items)
  = str_join nl
      [ [];
        lit "      <p><strong>" ++ html_escape title ++ lit ":</strong></p>";
        lit "      <ul>";
        lit "        "
          ++ str_join (lit "
        ")
               (map (fun it => lit "<li>" ++ html_escape it ++ lit "</li>")
                  (x :: items));
        lit "      </ul>" ].
Proof.
  unfold render_list_block. cbn [list_truthy negb].
  match goal with
  | |- str_rstrip (str_join nl [?a; ?b; ?c; ?d; _; _]) = _ =>
      exact (str_rstrip_template [a; b; c; d] (lit "      </ul"))
  end.
Qed.

Lemma render_details_cons title x items :
  render_details title (x :: items)
  = str_join nl
      [ [];
        lit "      <details>";
        lit "        <summary>" ++ html_escape title ++ lit "</summary>";
        lit "        <ul>";
        lit "          "
          ++ str_join (lit "
          ")
               (map (fun it => lit "<li>" ++ html_escape it ++ lit "</li>")
                  (x :: items));
        lit "        </ul>";
        lit "      </details>" ].
Proof.
  unfold render_details. cbn [list_truthy negb].
  match goal with
  | |- str_rstrip (str_join nl [?a; ?b; ?c; ?d; ?e; ?f; _; _]) = _ =>
      exact (str_rstrip_template [a; b; c; d; e; f] (lit "      </details"))
  end.
Qed.

Lemma render_top_section_eq meta first :
  render_top_section meta first
  = str_join nl
      [ [];
        lit "    <section id=" ++ dq ++ lit "top" ++ dq ++ lit ">";
        lit "      <h2>Übersicht</h2>";
        lit "      <p><strong>Kurzbeschreibung:</strong> "
          ++ html_escape (str_or (str_strip (short_description meta)) (lit "—"))
          ++ lit "</p>";
        lit "      <p><strong>Quest Metadaten</strong></p>";
        lit "      <ul>";
        lit "        " ++ render_meta_list meta;
        lit "      </ul>";
        lit "      <hr>";
        lit "      <p><a href=" ++ dq ++ lit "#" ++ html_escape first ++ dq
          ++ lit ">→ Zum Start</a></p>";
        lit "    </section>" ].
Proof.
  unfold render_top_section.
  match goal with
  | |- str_rstrip
         (str_join nl [?a; ?b; ?c; ?d; ?e; ?f; ?g; ?h; ?i; ?j; _; _]) = _ =>
      exact (str_rstrip_template [a; b; c; d; e; f; g; h; i; j]
               (lit "    </section"))
  end.
Qed.

Lemma Forall_if_app {A : Type} (P : A -> Prop) (c : bool) (l e : list A) :
  Forall P l -> Forall P e -> Forall P (if c then l ++ e else l).
Proof. intros Hl He. destruct c; auto. apply Forall_app. auto. Qed.

Lemma In_if_app {A : Type} (x : A) (c : bool) (l e : list A) :
  In x l -> In x (if c then l ++ e else l).
Proof. intros H. destruct c; auto. apply in_or_app. auto. Qed.

Ltac tagsafe_tac :=
  lazymatch goal with
  | |- tagsafe (html_escape _) = true => apply html_escape_tagsafe
  | |- tagsafe (_ ++ _) = true => apply tagsafe_app; tagsafe_tac
  | |- tagsafe (str_join _ _) = true => apply tagsafe_join; tagsafe_tac
  | |- tagsafe (if ?c then _ else _) = true => destruct c; tagsafe_tac
  | |- tagsafe _ = true =>
      first [ assumption | solve [auto with tagsafe] | vm_compute; reflexivity | idtac ]
  | |- Forall _ [] => apply Forall_nil
  | |- Forall _ (_ :: _) => apply Forall_cons; tagsafe_tac
  | |- Forall _ (if _ then _ ++ _ else _) => apply Forall_if_app; tagsafe_tac
  | |- Forall _ (_ ++ _) => apply Forall_app; split; tagsafe_tac
  | |- Forall _ (map _ _) =>
      apply Forall_map, Forall_forall; intros ? _; tagsafe_tac
  | _ => idtac
  end.

Create HintDb tagsafe.

Lemma render_nav_tagsafe nodes : tagsafe (render_nav nodes) = true.
Proof. unfold render_nav. cbv zeta. tagsafe_tac. Qed.

Lemma render_meta_list_tagsafe meta : tagsafe (render_meta_list meta) = true.
Proof. unfold render_meta_list. cbv zeta. cbn [map fst snd]. tagsafe_tac. Qed.

Lemma render_option_tagsafe ids opt : tagsafe (render_option ids opt) = true.
Proof. unfold render_option. cbv zeta. tagsafe_tac. Qed.

#[local] Hint Resolve render_option_tagsafe : tagsafe.

Lemma render_options_tagsafe node ids : tagsafe (render_options node ids) = true.
Proof. unfold render_options. cbv zeta. tagsafe_tac. Qed.

Lemma render_list_block_tagsafe title items :
  tagsafe (render_list_block title items) = true.
Proof.
  destruct items as [|x items]; [reflexivity|].
  rewrite render_list_block_cons. tagsafe_tac.
Qed.

Lemma render_details_tagsafe title items :
  tagsafe (render_details title items) = true.
Proof.
  destruct items as [|x items]; [reflexivity|].
  rewrite render_details_cons. tagsafe_tac.
Qed.

Lemma render_top_section_tagsafe meta first :
  tagsafe (render_top_section meta first) = true.
Proof.
  rewrite render_top_section_eq.
  pose proof (render_meta_list_tagsafe meta). tagsafe_tac.
Qed.

#[local] Hint Resolve render_nav_tagsafe render_options_tagsafe
  render_list_block_tagsafe render_details_tagsafe
  render_top_section_tagsafe : tagsafe.

Lemma render_node_section_tagsafe node ids :
  tagsafe (render_node_section node ids) = true.
Proof. unfold render_node_section. cbv zeta. tagsafe_tac. Qed.

#[local] Hint Resolve render_node_section_tagsafe : tagsafe.

Lemma CSS_BLOCK_tagsafe : tagsafe CSS_BLOCK = true.
Proof. vm_compute. reflexivity. Qed.

Lemma JS_BLOCK_tagsafe : tagsafe JS_BLOCK = true.
Proof. vm_compute. reflexivity. Qed.

#[local] Hint Resolve CSS_BLOCK_tagsafe JS_BLOCK_tagsafe : tagsafe.

Lemma render_document_tagsafe meta js title_ nav version top sections :
  tagsafe nav = true -> tagsafe top = true -> tagsafe sections = true ->
  tagsafe (render_document meta js title_ nav version top sections) = true.
Proof. intros H1 H2 H3. unfold render_document. tagsafe_tac. Qed.

Lemma render_html_run p js now :
  run_Eff now (render_html p js)
  = Ok (render_html_with
          (let v := str_strip (version_stamp (meta p)) in
           if truthy v then v else now) p js).
Proof.
  unfold render_html, render_html_with. cbv zeta.
  destruct (truthy (str_strip (version_stamp (meta p))));
    destruct (nodes p) as [|n ns]; reflexivity.
Qed.

Lemma render_html_stamped p js :
  truthy (str_strip (version_stamp (meta p))) = true ->
  render_html p js
  = Ret (render_html_with (str_strip (version_stamp (meta p))) p js).
Proof.
  intros H. unfold render_html, render_html_with. cbv zeta. rewrite H.
  destruct (nodes p) as [|n ns]; reflexivity.
Qed.

(** The renderer never raises, whatever the project and the clock. *)
Lemma render_html_total p js now :
  exists html, run_Eff now (render_html p js) = Ok html.
Proof. rewrite render_html_run. eauto. Qed.

Lemma render_html_with_tagsafe version p js :
  tagsafe (render_html_with version p js) = true.
Proof.
  unfold render_html_with. cbv zeta.
  apply render_document_tagsafe; auto with tagsafe.
  apply tagsafe_join; [reflexivity|].
  apply Forall_map, Forall_forall. intros n _. auto with tagsafe.
Qed.

Ltac in_list := cbn [In]; repeat first [ left; reflexivity | right ].

Ltac in_parts :=
  repeat first [ apply In_if_app | apply in_or_app; left ]; in_list.

Lemma render_html_with_contains_sections version p js :
  contains
    (str_join (lit "

    ") (map (fun n => render_node_section n (map node_id (nodes p))) (nodes p)))
    (render_html_with version p js).
Proof.
  unfold render_html_with, render_document. cbv zeta.
  set (secs := str_join _ (map _ (nodes p))).
  apply contains_trans with (lit "    " ++ secs).
  - apply contains_app_r, contains_refl.
  - apply contains_join. in_list.
Qed.

Lemma render_html_with_contains_section version p js n :
  In n (nodes p) ->
  contains (render_node_section n (map node_id (nodes p)))
    (render_html_with version p js).
Proof.
  intros H.
  eapply contains_trans; [|apply render_html_with_contains_sections].
  apply contains_join.
  exact (in_map (fun n => render_node_section n (map node_id (nodes p))) _ _ H).
Qed.

Lemma render_node_section_heading n ids :
  contains
    (lit "<h2>" ++ html_escape (str_or (str_strip (title n)) (node_id n))
       ++ lit "</h2>")
    (render_node_section n ids).
Proof.
  unfold render_node_section. cbv zeta.
  set (h2 := html_escape _).
  apply contains_trans with (lit "  <h2>" ++ h2 ++ lit "</h2>").
  - exists (lit "  "), []. rewrite List.app_nil_r. reflexivity.
  - apply contains_join. in_parts.
Qed.

(** Every node title (or, for a blank title, the node id) appears escaped in
    the heading of its section. *)
Lemma render_html_heading_escaped version p js n :
  In n (nodes p) ->
  contains
    (lit "<h2>" ++ html_escape (str_or (str_strip (title n)) (node_id n))
       ++ lit "</h2>")
    (render_html_with version p js).
Proof.
  intros H. eapply contains_trans.
  - apply render_node_section_heading.
  - apply render_html_with_contains_section, H.
Qed.

Example render_escapes_title_computed :
  let t := lit "<b>&" ++ dq ++ lit "x" ++ dq ++ lit "</b>" in
  let p := mkQuestProject QuestMeta_default [Node_default (lit "start") t []] in
  containsb (lit "&lt;b&gt;&amp;" ++ dq ++ lit "x" ++ dq ++ lit "&lt;/b&gt;")
    (render_html_with (lit "v1") p true) = true
  /\ containsb (lit "<b>") (render_html_with (lit "v1") p true) = false.
Proof. split; vm_compute; reflexivity. Qed.

(** C9. For a graph whose version stamp is non-empty after trimming,
    [render_html] returns without reading the clock and without raising; so
    two calls with the same graph and flag return the same string, whatever
    the time, and the footer shows the trimmed, escaped version stamp. *)
Theorem render_html_deterministic :
  forall (p : QuestProject) (js : bool),
    truthy (str_strip (version_stamp (meta p))) = true ->
    exists html,
      render_html p js = Ret html
      /\ (forall now1 now2,
             run_Eff now1 (render_html p js) = Ok html
             /\ run_Eff now2 (render_html p js) = Ok html)
      /\ contains
           (lit "Stand: " ++ html_escape (str_strip (version_stamp (meta p)))
              ++ lit "</small>")
           html.
Proof.
  intros p js H. rewrite (render_html_stamped p js H).
  eexists. split; [reflexivity|]. split; [split; reflexivity|].
  unfold render_html_with, render_document. cbv zeta.
  set (v := html_escape _).
  apply contains_trans
    with (lit "    <p><small>Quest-Präsentator — Stand: " ++ v
            ++ lit "</small></p>").
  - exists (lit "    <p><small>Quest-Präsentator — "), (lit "</p>").
    rewrite <- !app_assoc. reflexivity.
  - apply contains_join. in_list.
Qed.

Lemma render_html_deterministic_witness :
  let p := mkQuestProject
             (mkQuestMeta (lit "Ardea") [] [] [] [] [] [] [] [] (lit " v1 "))
             [Node_default (lit "start") (lit "Start") []] in
  exists html,
    render_html p false = Ret html
    /\ (forall now1 now2,
           run_Eff now1 (render_html p false) = Ok html
           /\ run_Eff now2 (render_html p false) = Ok html)
    /\ contains (lit "Stand: " ++ html_escape (lit "v1") ++ lit "</small>") html.
Proof.
  cbv zeta.
  exact (@render_html_deterministic
           (mkQuestProject
              (mkQuestMeta (lit "Ardea") [] [] [] [] [] [] [] [] (lit " v1 "))
              [Node_default (lit "start") (lit "Start") []])
           false eq_refl).
Defined.

(** With an empty version stamp the clock is read: the result depends on
    the time of the call. *)
Example render_html_reads_clock :
  exists k, render_html (mkQuestProject QuestMeta_default []) false = ReadClock k.
Proof. eexists. reflexivity. Qed.

Lemma ends_with_join sep parts y r :
  rev parts = [] :: y :: r -> ends_with (y ++ sep) (str_join sep parts).
Proof.
  intros H. apply (f_equal (@rev pystr)) in H.
  rewrite rev_involutive in H. simpl in H. rewrite <- !app_assoc in H.
  simpl in H. subst parts.
  rewrite str_join_snoc2.
  change [y] with [[] ++ y]. rewrite str_join_snoc_app.
  exists (str_join sep (rev r ++ [[]])).
  now rewrite List.app_nil_r, <- app_assoc.
Qed.



(** *** The option list and the reserved anchors *)

(** A target that is not among the node ids gets the marker; the reserved
    anchors [top] and [end] are not looked at. *)
Lemma render_option_unknown_marked ids opt :
  str_in (str_strip (target opt)) ids = false ->
  contains (lit "(Ziel unbekannt)") (render_option ids opt).
Proof.
  intros H. unfold render_option. cbv zeta. rewrite H. cbn [negb].
  exists (lit "<li><a href=" ++ dq ++ lit "#"
            ++ html_escape (str_or (str_strip (target opt)) (lit "top"))
            ++ dq ++ lit ">"
            ++ html_escape (str_or (str_strip (label opt)) (lit "Option"))
            ++ lit "</a> <em style=" ++ dq ++ lit "color:#b42318;" ++ dq
            ++ lit ">"), (lit "</em></li>").
  rewrite <- !app_assoc. reflexivity.
Qed.

Lemma render_option_known ids opt :
  str_in (str_strip (target opt)) ids = true ->
  render_option ids opt
  = lit "<li><a href=" ++ dq ++ lit "#"
      ++ html_escape (str_strip (target opt)) ++ dq ++ lit ">"
      ++ html_escape (str_or (str_strip (label opt)) (lit "Option"))
      ++ lit "</a></li>".
Proof. intros H. unfold render_option. cbv zeta. now rewrite H. Qed.

Lemma render_options_contains_option node ids opt :
  In opt (options node) ->
  contains (render_option ids opt) (render_options node ids).
Proof.
  intros H. unfold render_options.
  destruct (options node) as [|o os] eqn:E; [contradiction|].
  cbn [list_truthy negb]. cbv zeta. apply contains_join.
  apply in_or_app. right. apply in_or_app. left.
  now apply in_map.
Qed.

(** C2 (the code differs). A choice whose target is the reserved anchor
    [end] or [top] is rendered with the marker [(Ziel unbekannt)] whenever
    no node has that id: [render_options] tests the target against the node
    ids only.  The node below is the one [_add_node] creates, in a graph
    with the nodes [start] and [knoten-1]. *)
Theorem render_options_marks_reserved_anchor :
  render_options
    (Node_default (lit "knoten-1") (lit "Knoten 1")
       [mkOption (lit "Weiter") (lit "end")])
    [lit "start"; lit "knoten-1"]
  = lit "<h3>Optionen</h3>" ++ nl
      ++ lit "      <ol>" ++ nl
      ++ lit "      <li><a href=" ++ dq ++ lit "#end" ++ dq
      ++ lit ">Weiter</a> <em style=" ++ dq ++ lit "color:#b42318;" ++ dq
      ++ lit ">(Ziel unbekannt)</em></li>" ++ nl
      ++ lit "      </ol>".
Proof. vm_compute. reflexivity. Qed.

Lemma render_options_reserved_marked node ids opt :
  In opt (options node) ->
  (str_strip (target opt) = lit "top" \/ str_strip (target opt) = lit "end") ->
  str_in (str_strip (target opt)) ids = false ->
  contains (lit "(Ziel unbekannt)") (render_options node ids).
Proof.
  intros Hin _ Hids. eapply contains_trans.
  - apply render_option_unknown_marked, Hids.
  - apply render_options_contains_option, Hin.
Qed.

Example render_options_top_marked :
  containsb (lit "(Ziel unbekannt)")
    (render_options
       (Node_default (lit "start") (lit "Start")
          [mkOption (lit "Neue Option") (lit "top")])
       [lit "start"]) = true.
Proof. vm_compute. reflexivity. Qed.

(** ** The editor *)

Lemma str_eqb_spec a b : str_eqb a b = true <-> a = b.
Proof.
  revert b. induction a as [|x a IH]; intros [|y b]; simpl;
    try (split; [discriminate | discriminate]); try tauto.
  unfold cp_eqb. rewrite andb_true_iff, N.eqb_eq, IH. split.
  - intros [-> ->]. reflexivity.
  - intros E. injection E as -> ->. auto.
Qed.

Lemma str_eqb_refl a : str_eqb a a = true.
Proof. now apply str_eqb_spec. Qed.

Lemma str_in_spec x xs : str_in x xs = true <-> In x xs.
Proof.
  unfold str_in. rewrite existsb_exists. split.
  - intros (y & Hy & E). apply str_eqb_spec in E. now subst.
  - intros H. exists x. split; auto. apply str_eqb_refl.
Qed.

Lemma str_in_false x xs : str_in x xs = false <-> ~ In x xs.
Proof.
  rewrite <- str_in_spec. destruct (str_in x xs); split; congruence.
Qed.

Lemma digits_of_uint_inj d d' :
  digits_of_uint d = digits_of_uint d' -> d = d'.
Proof.
  revert d'. induction d; intros d' E; destruct d'; simpl in E;
    try discriminate; try reflexivity;
    injection E as E; f_equal; auto.
Qed.

Lemma str_of_nat_inj n m : str_of_nat n = str_of_nat m -> n = m.
Proof.
  unfold str_of_nat. intros E. apply digits_of_uint_inj in E.
  now apply DecimalNat.Unsigned.to_uint_inj.
Qed.

Lemma NoDup_map_inj {A B : Type} (f : A -> B) (l : list A) :
  (forall a b, f a = f b -> a = b) -> NoDup l -> NoDup (map f l).
Proof.
  intros Hf. induction 1 as [|x l Hx _ IH]; simpl; constructor; auto.
  intros Hin. apply in_map_iff in Hin as (y & E & Hy).
  apply Hf in E. now subst.
Qed.

Section FreshIndex.

Variable base : pystr.
Variable existing : list pystr.

Local Abbreviation new_id i := (base ++ lit "-" ++ str_of_nat i).

Lemma new_id_inj i j : new_id i = new_id j -> i = j.
Proof.
  intros E.
  apply app_inv_head in E. apply app_inv_head in E.
  now apply str_of_nat_inj.
Qed.

(** Among any [length existing + 1] consecutive counters one gives a
    free id. *)
Lemma free_counter_exists i :
  exists k, k <= List.length existing /\ str_in (new_id (i + k)) existing = false.
Proof.
  assert (D : forall n,
             (forall k, k < n -> str_in (new_id (i + k)) existing = true)
             \/ (exists k, k < n /\ str_in (new_id (i + k)) existing = false)).
  { induction n as [|n [IH|(k & Hk & E)]].
    - left. intros k Hk. lia.
    - destruct (str_in (new_id (i + n)) existing) eqn:E.
      + left. intros k Hk.
        destruct (Nat.eq_dec k n) as [->|]; auto. apply IH. lia.
      + right. exists n. split; auto.
    - right. exists k. split; auto. }
  destruct (D (S (List.length existing))) as [H | (k & Hk & E)].
  - exfalso.
    assert (Hincl : incl (map (fun k => new_id (i + k))
                            (seq 0 (S (List.length existing)))) existing).
    { intros x Hx. apply in_map_iff in Hx as (k & <- & Hk).
      apply in_seq in Hk. apply str_in_spec, H. lia. }
    assert (Hnd : NoDup (map (fun k => new_id (i + k))
                           (seq 0 (S (List.length existing))))).
    { apply NoDup_map_inj; [|apply seq_NoDup].
      intros a b E. apply new_id_inj in E.
      now apply Nat.add_cancel_l in E. }
    pose proof (NoDup_incl_length Hnd Hincl) as L.
    rewrite length_map, length_seq in L.
    exact (Nat.nle_succ_diag_l _ L).
  - exists k. split; auto. clear - Hk. lia.
Qed.

Lemma fresh_index_spec fuel i :
  (exists k, k <= fuel /\ str_in (new_id (i + k)) existing = false) ->
  let r := fresh_index base existing fuel i in
  i <= r
  /\ str_in (new_id r) existing = false
  /\ (forall j, i <= j < r -> str_in (new_id j) existing = true).
Proof.
  revert i. induction fuel as [|fuel IH]; intros i (k & Hk & E);
    cbn [fresh_index].
  - assert (k = 0) by lia. subst k. rewrite Nat.add_0_r in E.
    rewrite E. repeat split; auto. intros j Hj. lia.
  - destruct (str_in (base ++ lit "-" ++ str_of_nat i) existing) eqn:Ei.
    + destruct k as [|k]; [rewrite Nat.add_0_r in E; congruence|].
      destruct (IH (S i)) as (H1 & H2 & H3).
      { exists k. split; [lia|]. now rewrite Nat.add_succ_comm. }
      repeat split; auto; [lia|].
      intros j Hj. destruct (Nat.eq_dec j i) as [->|]; auto.
      apply H3. lia.
    + repeat split; auto. intros j Hj. lia.
Qed.

(** The bound on the loop is not reached, and a larger bound gives the
    same counter. *)
Lemma fresh_index_in_fuel i :
  let r := fresh_index base existing (List.length existing) i in
  i <= r
  /\ str_in (new_id r) existing = false
  /\ (forall j, i <= j < r -> str_in (new_id j) existing = true).
Proof. apply fresh_index_spec, free_counter_exists. Qed.

Lemma fresh_index_more_fuel fuel i :
  List.length existing <= fuel ->
  fresh_index base existing fuel i
  = fresh_index base existing (List.length existing) i.
Proof.
  intros Hf.
  destruct (free_counter_exists i) as (k & Hk & E).
  destruct (@fresh_index_spec fuel i) as (A1 & A2 & A3).
  { exists k. split; auto. lia. }
  destruct (fresh_index_in_fuel i) as (B1 & B2 & B3).
  set (r := fresh_index base existing fuel i) in *.
  set (r' := fresh_index base existing (List.length existing) i) in *.
  destruct (Nat.lt_trichotomy r r') as [H|[H|H]]; auto.
  - rewrite B3 in A2 by lia. discriminate.
  - rewrite A3 in B2 by lia. discriminate.
Qed.

End FreshIndex.

(** The statements of [_add_node] that create the node, on their own: the
    node is named [knoten-N] for the least [N >= 1] whose id is not in the
    graph they are run on, has the title [Knoten N] and the single option
    [Weiter] to [end], and stands behind the nodes of that graph, which stay
    as they are (as does the meta record). *)
Lemma add_new_node_spec :
  forall p : QuestProject,
    exists N : nat,
      nodes (add_new_node p)
      = nodes p
          ++ [mkNode (lit "knoten-" ++ str_of_nat N)
                (lit "Knoten " ++ str_of_nat N) [] [] [] [] [] [] []
                [mkOption (lit "Weiter") (lit "end")]]
      /\ meta (add_new_node p) = meta p
      /\ 1 <= N
      /\ ~ In (lit "knoten-" ++ str_of_nat N) (map node_id (nodes p))
      /\ (forall M, 1 <= M < N ->
                    In (lit "knoten-" ++ str_of_nat M) (map node_id (nodes p))).
Proof.
  intros p.
  destruct (fresh_index_in_fuel (lit "knoten") (map node_id (nodes p)) 1)
    as (H1 & H2 & H3).
  exists (fresh_index (lit "knoten") (map node_id (nodes p))
            (List.length (map node_id (nodes p))) 1).
  repeat split; auto.
  - apply str_in_false in H2. exact H2.
  - intros M HM. apply str_in_spec. now apply H3.
Qed.

Example add_new_node_example :
  map node_id
    (nodes (add_new_node
              (mkQuestProject QuestMeta_default
                 [ Node_default (lit "knoten-2") (lit "B") [];
                   Node_default (lit "start") (lit "Start") [];
                   Node_default (lit "knoten-1") (lit "A") [] ])))
  = [lit "knoten-2"; lit "start"; lit "knoten-1"; lit "knoten-3"].
Proof. vm_compute. reflexivity. Qed.

Lemma NoDup_map_nth_error {A B : Type} (f : A -> B) (l : list A) i j a b :
  NoDup (map f l) ->
  nth_error l i = Some a -> nth_error l j = Some b -> f a = f b -> i = j.
Proof.
  intros Hnd Hi Hj E.
  apply (proj1 (NoDup_nth_error (map f l)) Hnd).
  - rewrite length_map. apply nth_error_Some. congruence.
  - rewrite (map_nth_error f _ _ Hi), (map_nth_error f _ _ Hj). now rewrite E.
Qed.

Section EditorFacts.

Variable str_lower : pystr -> pystr.

Lemma _apply_current_node_collision silent st idx n :
  current_node_index st = Some idx ->
  nth_error (nodes (project st)) idx = Some n ->
  sanitize_id str_lower (var_node_id (node_form st)) <> node_id n ->
  In (sanitize_id str_lower (var_node_id (node_form st)))
     (map node_id (nodes (project st))) ->
  _apply_current_node str_lower silent st
  = (Ok tt,
     rejected_state silent
       (sanitize_id str_lower (var_node_id (node_form st))) n st).
Proof.
  intros Hc Hn Hne Hin.
  unfold _apply_current_node, rejected_state. cbn.
  rewrite Hc. unfold ed_lift, list_index. rewrite Hn. cbn.
  destruct (str_eqb _ (node_id n)) eqn:E.
  { apply str_eqb_spec in E. contradiction. }
  cbn. apply str_in_spec in Hin. rewrite Hin.
  destruct silent; reflexivity.
Qed.

(** C7 (amended). When the id in the form sanitizes to the id of another
    node of a graph with unique ids, [_apply_current_node] writes nothing
    into the project: every node keeps its id and its other fields, and
    the form shows the old id again.  The error dialog is shown when the
    method is called with [silent=False]; with [silent=True] the change is
    dropped without a report. *)
Theorem apply_current_node_duplicate :
  forall (silent : bool) (st : App) (idx j : nat) (n m : Node),
    NoDup (map node_id (nodes (project st))) ->
    current_node_index st = Some idx ->
    nth_error (nodes (project st)) idx = Some n ->
    nth_error (nodes (project st)) j = Some m ->
    j <> idx ->
    sanitize_id str_lower (var_node_id (node_form st)) = node_id m ->
    exists st',
      _apply_current_node str_lower silent st = (Ok tt, st')
      /\ project st' = project st
      /\ map node_id (nodes (project st')) = map node_id (nodes (project st))
      /\ var_node_id (node_form st') = node_id n
      /\ dialogs st'
         = dialogs st
             ++ (if silent then []
                 else [ShowError (lit "ID existiert")
                         (lit "Die Knoten-ID '" ++ node_id m
                            ++ lit "' gibt es schon. Wähle eine andere.")]).
Proof.
  intros silent st idx j n m Hnd Hc Hn Hm Hj Hs.
  exists (rejected_state silent (node_id m) n st).
  rewrite <- Hs at 1.
  rewrite (@_apply_current_node_collision silent st idx n Hc Hn).
  - rewrite Hs. unfold rejected_state.
    destruct silent; cbn; rewrite ?List.app_nil_r; repeat split; reflexivity.
  - rewrite Hs. intros E.
    apply Hj. exact (NoDup_map_nth_error node_id _ _ _ Hnd Hm Hn E).
  - rewrite Hs. apply in_map_iff. exists m. split; auto.
    eapply nth_error_In; eauto.
Qed.

End EditorFacts.

Lemma st_rename_NoDup : NoDup (map node_id (nodes (project st_rename))).
Proof.
  apply NoDup_cons; [|apply NoDup_cons; [|apply NoDup_nil]].
  - intros [H|[]]. vm_compute in H. discriminate H.
  - intros [].
Qed.

Lemma apply_current_node_duplicate_witness :
  exists st',
    _apply_current_node ascii_lower false st_rename = (Ok tt, st')
    /\ project st' = project st_rename
    /\ map node_id (nodes (project st'))
       = map node_id (nodes (project st_rename))
    /\ var_node_id (node_form st') = lit "start"
    /\ dialogs st'
       = dialogs st_rename
           ++ [ShowError (lit "ID existiert")
                 (lit "Die Knoten-ID '" ++ lit "finish"
                    ++ lit "' gibt es schon. Wähle eine andere.")].
Proof.
  apply (@apply_current_node_duplicate ascii_lower false st_rename 0 1
           (Node_default (lit "start") (lit "Start") [])
           (Node_default (lit "finish") (lit "Finish") [])).
  - exact st_rename_NoDup.
  - reflexivity.
  - reflexivity.
  - reflexivity.
  - discriminate.
  - vm_compute. reflexivity.
Defined.

(** C7 (as stated, refuted). With [silent=True], as [_select_node],
    [_add_node], [_move_node], [_save_project] and [_export_html] call it,
    the rename of [start] to the id of [finish] is dropped and nothing is
    reported: no dialog is shown. *)
Lemma apply_current_node_silent_unreported :
  sanitize_id ascii_lower (var_node_id (node_form st_rename)) = lit "finish"
  /\ nth_error (map node_id (nodes (project st_rename))) 1 = Some (lit "finish")
  /\ current_node_index st_rename = Some 0
  /\ fst (_apply_current_node ascii_lower true st_rename) = Ok tt
  /\ project (snd (_apply_current_node ascii_lower true st_rename))
     = project st_rename
  /\ dialogs (snd (_apply_current_node ascii_lower true st_rename)) = []
  /\ ~ (exists title_ message,
           In (ShowError title_ message)
              (dialogs (snd (_apply_current_node ascii_lower true st_rename)))).
Proof.
  repeat split; try (vm_compute; reflexivity).
  intros (t & m & H). vm_compute in H. exact H.
Qed.

Lemma ed_bind_ok {A B : Type} (m : Ed A) (k : A -> Ed B) st a st' :
  m st = (Ok a, st') -> bind m k st = k a st'.
Proof. intros H. cbn. now rewrite H. Qed.

Lemma list_set_same {A : Type} (l : list A) i x :
  nth_error l i = Some x -> list_set l i x = l.
Proof.
  revert i. induction l as [|y l IH]; intros [|i] H; simpl in *;
    try discriminate; auto.
  - congruence.
  - now rewrite IH.
Qed.

Lemma set_project_same st : set_project (project st) st = st.
Proof. destruct st. reflexivity. Qed.

Section Handler.
Variable str_lower : pystr -> pystr.

Lemma _apply_current_node_in_sync silent st idx n :
  current_node_index st = Some idx ->
  nth_error (nodes (project st)) idx = Some n ->
  form_in_sync str_lower st n ->
  _apply_current_node str_lower silent st
  = (Ok tt,
     set_listbox
       (map (fun n => node_id n ++ lit "  —  " ++ title n) (nodes (project st)))
       None st).
Proof.
  intros Hc Hn Hs. unfold form_in_sync in Hs.
  assert (Hid : sanitize_id str_lower (var_node_id (node_form st)) = node_id n).
  { rewrite <- Hs. reflexivity. }
  unfold _apply_current_node.
  cbn [bind Monad_Ed ed_get]. rewrite Hc.
  unfold ed_lift, list_index. rewrite Hn. cbn [bind Monad_Ed].
  rewrite Hid, str_eqb_refl. cbn [negb].
  unfold ed_modify, _refresh_node_list. cbn [bind Monad_Ed ed_modify].
  rewrite <- Hid, Hs, (list_set_same _ _ Hn).
  destruct st as [[m ns] c mf nf ls sel ds]. reflexivity.
Qed.

End Handler.

Lemma add_new_node_nodes p q :
  nodes p = nodes q -> nodes (add_new_node p) = nodes (add_new_node q).
Proof. intros H. unfold add_new_node. cbn [nodes]. now rewrite H. Qed.

Lemma add_new_node_length p :
  List.length (nodes (add_new_node p)) = S (List.length (nodes p)).
Proof. unfold add_new_node. cbn [nodes]. rewrite length_app. simpl. lia. Qed.

Lemma add_new_node_nth_old p idx n :
  nth_error (nodes p) idx = Some n ->
  nth_error (nodes (add_new_node p)) idx = Some n.
Proof.
  intros H. unfold add_new_node. cbn [nodes].
  rewrite nth_error_app1; auto. apply nth_error_Some. congruence.
Qed.

Section HandlerAdd.
Variable str_lower : pystr -> pystr.

(** The handler [_add_node] when the form shows the selected node without
    pending edits: the project gets the new node behind its nodes, which stay
    as they are, and the new node is selected. *)
Lemma _add_node_in_sync st idx n :
  current_node_index st = Some idx ->
  nth_error (nodes (project st)) idx = Some n ->
  form_in_sync str_lower st n ->
  exists st',
    _add_node str_lower st = (Ok tt, st')
    /\ nodes (project st') = nodes (add_new_node (project st))
    /\ current_node_index st' = Some (List.length (nodes (project st))).
Proof.
  intros Hc Hn Hs.
  unfold _add_node.
  set (st1 := snd (_apply_meta_from_ui st)).
  assert (E1 : _apply_meta_from_ui st = (Ok tt, st1)) by reflexivity.
  rewrite (@ed_bind_ok _ _ _ _ _ _ _ E1).
  assert (N1 : nodes (project st1) = nodes (project st)) by reflexivity.
  assert (F1 : node_form st1 = node_form st) by reflexivity.
  assert (C1 : current_node_index st1 = Some idx) by exact Hc.
  assert (Hn1 : nth_error (nodes (project st1)) idx = Some n)
    by (rewrite N1; exact Hn).
  assert (Hs1 : form_in_sync str_lower st1 n)
    by (unfold form_in_sync; rewrite F1; exact Hs).
  rewrite (@ed_bind_ok _ _ _ _ _ _ _
             (@_apply_current_node_in_sync str_lower true st1 idx n C1 Hn1 Hs1)).
  set (st2 := set_listbox _ None st1).
  cbn [bind Monad_Ed ed_modify _refresh_node_list ed_get].
  set (st4 := set_listbox _ None (set_project _ st2)).
  assert (P4 : project st4 = add_new_node (project st1)) by reflexivity.
  assert (C4 : current_node_index st4 = Some idx) by exact Hc.
  assert (F4 : node_form st4 = node_form st) by reflexivity.
  rewrite P4, add_new_node_length, Nat.sub_succ, Nat.sub_0_r, N1.
  unfold _select_node.
  cbn [bind Monad_Ed ed_get]. rewrite C4.
  assert (Hn4 : nth_error (nodes (project st4)) idx = Some n)
    by (rewrite P4; apply add_new_node_nth_old, Hn1).
  assert (Hs4 : form_in_sync str_lower st4 n)
    by (unfold form_in_sync; rewrite F4; exact Hs).
  rewrite (@_apply_current_node_in_sync str_lower true st4 idx n C4 Hn4 Hs4).
  cbn [bind Monad_Ed ed_modify ed_get ed_lift set_current_node_index
       project set_listbox list_index].
  rewrite P4.
  assert (L : nth_error (nodes (add_new_node (project st1)))
                (List.length (nodes (project st)))
              = Some (Node_default
                        (lit "knoten" ++ lit "-"
                           ++ str_of_nat
                                (fresh_index (lit "knoten")
                                   (map node_id (nodes (project st1)))
                                   (List.length (map node_id (nodes (project st1)))) 1))
                        (lit "Knoten "
                           ++ str_of_nat
                                (fresh_index (lit "knoten")
                                   (map node_id (nodes (project st1)))
                                   (List.length (map node_id (nodes (project st1)))) 1))
                        [mkOption (lit "Weiter") (lit "end")])).
  { unfold add_new_node. cbn [nodes]. rewrite <- N1.
    rewrite nth_error_app2 by lia. now rewrite Nat.sub_diag. }
  unfold list_index. rewrite L. unfold ed_modify.
  eexists. split; [reflexivity|]. split.
  - cbn [project set_node_form set_listbox set_current_node_index].
    rewrite P4. apply add_new_node_nodes. exact N1.
  - reflexivity.
Qed.

End HandlerAdd.

Example _add_node_initial :
  let r := _add_node ascii_lower st_initial in
  fst r = Ok tt
  /\ map node_id (nodes (project (snd r))) = [lit "start"; lit "knoten-1"]
  /\ map title (nodes (project (snd r))) = [lit "Start: Ardea"; lit "Knoten 1"]
  /\ current_node_index (snd r) = Some 1
  /\ var_node_id (node_form (snd r)) = lit "knoten-1"
  /\ tree_opts (node_form (snd r)) = [(lit "Weiter", lit "end")].
Proof. vm_compute. repeat split; reflexivity. Qed.

(** The handler [_add_node] when no node is selected: nothing is written
    back from the node form, the new node is appended and selected. *)
Section HandlerAddNone.
Variable str_lower : pystr -> pystr.

Lemma _add_node_no_selection st :
  current_node_index st = None ->
  exists st',
    _add_node str_lower st = (Ok tt, st')
    /\ nodes (project st') = nodes (add_new_node (project st))
    /\ current_node_index st' = Some (List.length (nodes (project st))).
Proof.
  intros Hc.
  unfold _add_node.
  set (st1 := snd (_apply_meta_from_ui st)).
  assert (E1 : _apply_meta_from_ui st = (Ok tt, st1)) by reflexivity.
  rewrite (@ed_bind_ok _ _ _ _ _ _ _ E1).
  assert (N1 : nodes (project st1) = nodes (project st)) by reflexivity.
  assert (C1 : current_node_index st1 = None) by exact Hc.
  assert (E2 : _apply_current_node str_lower true st1 = (Ok tt, st1)).
  { unfold _apply_current_node. cbn [bind Monad_Ed ed_get]. rewrite C1.
    reflexivity. }
  rewrite (@ed_bind_ok _ _ _ _ _ _ _ E2).
  cbn [bind Monad_Ed ed_modify _refresh_node_list ed_get].
  set (st4 := set_listbox _ None (set_project _ st1)).
  assert (P4 : project st4 = add_new_node (project st1)) by reflexivity.
  assert (C4 : current_node_index st4 = None) by exact Hc.
  rewrite P4, add_new_node_length, Nat.sub_succ, Nat.sub_0_r, N1.
  unfold _select_node.
  cbn [bind Monad_Ed ed_get]. rewrite C4.
  cbn [bind Monad_Ed ed_modify ed_get ed_lift set_current_node_index
       project set_listbox list_index ret].
  rewrite P4.
  assert (L : exists x, nth_error (nodes (add_new_node (project st1)))
                (List.length (nodes (project st))) = Some x).
  { unfold add_new_node. cbn [nodes]. rewrite <- N1.
    rewrite nth_error_app2 by lia. rewrite Nat.sub_diag. eexists. reflexivity. }
  destruct L as (x & L).
  unfold list_index. rewrite L. unfold ed_modify.
  eexists. split; [reflexivity|]. split.
  - cbn [project set_node_form set_listbox set_current_node_index].
    rewrite P4. apply add_new_node_nodes. exact N1.
  - reflexivity.
Qed.

End HandlerAddNone.

(** C8 (amended). In every state of the editor whose form holds no
    pending edit of the selected node, the handler [_add_node] returns
    without raising; the graph afterwards is the graph before with one node
    behind it, all nodes of the graph before unchanged; the new node is
    named [knoten-N] for the least [N >= 1] such that [knoten-N] is not an id
    of the graph, has the title [Knoten N] and the single choice [Weiter] to
    [end]; and it is the selected node. *)
Theorem add_node_appends_fresh_node :
  forall (str_lower : pystr -> pystr) (st : App),
    no_pending_edit str_lower st ->
    exists (st' : App) (N : nat),
      _add_node str_lower st = (Ok tt, st')
      /\ nodes (project st')
         = nodes (project st)
             ++ [mkNode (lit "knoten-" ++ str_of_nat N)
                   (lit "Knoten " ++ str_of_nat N) [] [] [] [] [] [] []
                   [mkOption (lit "Weiter") (lit "end")]]
      /\ 1 <= N
      /\ ~ In (lit "knoten-" ++ str_of_nat N) (map node_id (nodes (project st)))
      /\ (forall M, 1 <= M < N ->
                    In (lit "knoten-" ++ str_of_nat M)
                       (map node_id (nodes (project st))))
      /\ current_node_index st' = Some (List.length (nodes (project st))).
Proof.
  intros str_lower st H.
  assert (A : exists st',
             _add_node str_lower st = (Ok tt, st')
             /\ nodes (project st') = nodes (add_new_node (project st))
             /\ current_node_index st'
                = Some (List.length (nodes (project st)))).
  { unfold no_pending_edit in H.
    destruct (current_node_index st) as [idx|] eqn:Hc.
    - destruct H as (n & Hn & Hs). eapply _add_node_in_sync; eauto.
    - now apply _add_node_no_selection. }
  destruct A as (st' & E & Hn & Hc).
  destruct (fresh_index_in_fuel (lit "knoten")
              (map node_id (nodes (project st))) 1) as (H1 & H2 & H3).
  exists st',
    (fresh_index (lit "knoten") (map node_id (nodes (project st)))
       (List.length (map node_id (nodes (project st)))) 1).
  split; [exact E|]. split; [rewrite Hn; reflexivity|].
  split; [exact H1|]. split; [|split].
  - apply str_in_false in H2. exact H2.
  - intros M HM. apply str_in_spec. now apply H3.
  - exact Hc.
Qed.

Lemma add_node_appends_fresh_node_witness :
  no_pending_edit ascii_lower st_initial
  /\ exists (st' : App) (N : nat),
      _add_node ascii_lower st_initial = (Ok tt, st')
      /\ nodes (project st')
         = nodes (project st_initial)
             ++ [mkNode (lit "knoten-" ++ str_of_nat N)
                   (lit "Knoten " ++ str_of_nat N) [] [] [] [] [] [] []
                   [mkOption (lit "Weiter") (lit "end")]]
      /\ 1 <= N
      /\ ~ In (lit "knoten-" ++ str_of_nat N)
              (map node_id (nodes (project st_initial)))
      /\ (forall M, 1 <= M < N ->
                    In (lit "knoten-" ++ str_of_nat M)
                       (map node_id (nodes (project st_initial))))
      /\ current_node_index st' = Some (List.length (nodes (project st_initial))).
Proof.
  assert (H : no_pending_edit ascii_lower st_initial).
  { unfold no_pending_edit. cbn [current_node_index st_initial].
    eexists. split; [reflexivity|]. vm_compute. reflexivity. }
  split; [exact H|].
  apply (@add_node_appends_fresh_node ascii_lower st_initial H).
Defined.

(** C8 as stated, for every graph, does not hold of [_add_node]: the handler
    first writes the form into the selected node.  From the graph with the
    one node [start], with [knoten-1] typed into the id field, it returns the
    graph [knoten-1], [knoten-2]: the existing node is renamed, and the new
    node is not [knoten-1], which was no id of the graph. *)
Lemma add_node_commits_pending_edit :
  let r := _add_node ascii_lower st_pending_id in
  map node_id (nodes (project st_pending_id)) = [lit "start"]
  /\ fst r = Ok tt
  /\ map node_id (nodes (project (snd r))) = [lit "knoten-1"; lit "knoten-2"]
  /\ ~ (exists (N : nat),
          nodes (project (snd r))
          = nodes (project st_pending_id)
              ++ [mkNode (lit "knoten-" ++ str_of_nat N)
                    (lit "Knoten " ++ str_of_nat N) [] [] [] [] [] [] []
                    [mkOption (lit "Weiter") (lit "end")]]
          /\ 1 <= N
          /\ ~ In (lit "knoten-" ++ str_of_nat N)
                  (map node_id (nodes (project st_pending_id)))
          /\ (forall M, 1 <= M < N ->
                In (lit "knoten-" ++ str_of_nat M)
                   (map node_id (nodes (project st_pending_id))))).
Proof.
  cbv zeta. split; [reflexivity|]. split; [vm_compute; reflexivity|].
  split; [vm_compute; reflexivity|].
  intros (N & H & _).
  apply (f_equal (map node_id)) in H. rewrite map_app in H.
  apply (f_equal (fun l => nth_error l 0)) in H.
  vm_compute in H. discriminate H.
Qed.

(** At a selected index behind the last node [_add_node] raises
    [IndexError] and adds no node. *)
Example add_node_stale_index :
  fst (_add_node ascii_lower st_stale_index) = Raised IndexError
  /\ nodes (project (snd (_add_node ascii_lower st_stale_index)))
     = nodes (project st_stale_index).
Proof. vm_compute. split; reflexivity. Qed.

(** * Further properties of the module *)

(** ** The sanitizer: dashes and fixed points *)

Lemma NoRun2_dash_contains s : NoRun2 is_dash s <-> ~ contains (lit "--") s.
Proof.
  split.
  - intros H (pre & post & E). exact (H pre 45%N 45%N post E eq_refl eq_refl).
  - intros H a x y b E Hx Hy. apply H.
    apply N.eqb_eq in Hx, Hy. subst x y. exists a, b. exact E.
Qed.

(** X1. An id made by [sanitize_id] neither begins nor ends with a dash and
    has no two dashes in a row. *)
Theorem sanitize_id_no_stray_dashes :
  forall (str_lower : pystr -> pystr) (raw : pystr),
    hd_not is_dash (sanitize_id str_lower raw) = true
    /\ hd_not is_dash (rev (sanitize_id str_lower raw)) = true
    /\ ~ contains (lit "--") (sanitize_id str_lower raw).
Proof.
  intros str_lower raw.
  destruct (sanitize_id_clean str_lower raw) as [_ _ Hr Hf Hl].
  repeat split; auto. now apply NoRun2_dash_contains.
Qed.

(** X2. [sanitize_id] gives back an id that is already in its normal form:
    non-empty, over [a-z0-9_-], without a dash at either end and without two
    dashes in a row.  (Of [str.lower] it is assumed that it leaves such
    strings as they are.) *)
Theorem sanitize_id_keeps_normal_id :
  forall str_lower : pystr -> pystr,
    (forall s, IdChars s -> str_lower s = s) ->
    forall s : pystr,
      valid_id s = true ->
      hd_not is_dash s = true ->
      hd_not is_dash (rev s) = true ->
      ~ contains (lit "--") s ->
      sanitize_id str_lower s = s.
Proof.
  intros str_lower Hlower s Hv Hf Hl Hd.
  apply valid_id_spec in Hv as [Hn Hc].
  apply sanitize_id_fixes_clean; [now apply Hlower|].
  split; auto. now apply NoRun2_dash_contains.
Qed.

Lemma sanitize_id_keeps_normal_id_witness :
  sanitize_id ascii_lower (lit "knoten-12_a") = lit "knoten-12_a".
Proof.
  apply (@sanitize_id_keeps_normal_id ascii_lower ascii_lower_IdChars).
  - vm_compute. reflexivity.
  - vm_compute. reflexivity.
  - vm_compute. reflexivity.
  - intros H. apply containsb_spec in H. vm_compute in H. discriminate H.
Defined.

(** ** Escaping: nothing is lost, quotes stay *)

Lemma esc_char_cases c :
  (c = 38%N /\ esc_char c = [38; 97; 109; 112; 59]%N)
  \/ (c = 60%N /\ esc_char c = [38; 108; 116; 59]%N)
  \/ (c = 62%N /\ esc_char c = [38; 103; 116; 59]%N)
  \/ (c <> 38%N /\ c <> 60%N /\ c <> 62%N /\ esc_char c = [c]).
Proof.
  unfold esc_char, cp_eqb.
  destruct (N.eqb_spec c 38) as [->|H1]; [left; split; reflexivity|].
  destruct (N.eqb_spec c 60) as [->|H2]; [right; left; split; reflexivity|].
  destruct (N.eqb_spec c 62) as [->|H3];
    [right; right; left; split; reflexivity|].
  right. right. right. auto.
Qed.

Lemma esc_char_prefix_inj c d r r' :
  esc_char c ++ r = esc_char d ++ r' -> c = d /\ r = r'.
Proof.
  destruct (esc_char_cases c) as [[-> Ec]|[[-> Ec]|[[-> Ec]|(C1 & C2 & C3 & Ec)]]];
    destruct (esc_char_cases d) as [[-> Ed]|[[-> Ed]|[[-> Ed]|(D1 & D2 & D3 & Ed)]]];
    rewrite ?Ec, ?Ed; simpl; intros E;
    try (injection E as E; now subst);
    try discriminate E;
    try (injection E as E1 E2; congruence).
Qed.

Lemma flat_map_esc_char_inj a b :
  flat_map esc_char a = flat_map esc_char b -> a = b.
Proof.
  revert b. induction a as [|x a IH]; intros [|y b] E; simpl in E; auto.
  - destruct (esc_char_cases y) as [[_ Ey]|[[_ Ey]|[[_ Ey]|(_ & _ & _ & Ey)]]];
      rewrite Ey in E; discriminate E.
  - destruct (esc_char_cases x) as [[_ Ex]|[[_ Ex]|[[_ Ex]|(_ & _ & _ & Ex)]]];
      rewrite Ex in E; discriminate E.
  - apply esc_char_prefix_inj in E as [-> E]. f_equal. auto.
Qed.

(** X3. [html_escape] loses nothing: two texts with the same escaped form
    are the same text. *)
Theorem html_escape_injective :
  forall a b : pystr, html_escape a = html_escape b -> a = b.
Proof.
  intros a b E. rewrite !html_escape_flat_map in E.
  now apply flat_map_esc_char_inj.
Qed.

Lemma html_escape_injective_witness :
  html_escape (lit "a<b") = html_escape (lit "a<b") /\ lit "a<b" = lit "a<b".
Proof.
  split; [reflexivity|].
  apply (@html_escape_injective (lit "a<b") (lit "a<b")). reflexivity.
Defined.

(** X4. [html_escape] escapes the three characters only: the double quote
    and the apostrophe pass unchanged, as many as there were, and a text
    without [&], [<], [>] is returned as it is. *)
Theorem html_escape_keeps_quotes :
  forall s : pystr,
    count_occ N.eq_dec (html_escape s) 34%N = count_occ N.eq_dec s 34%N
    /\ count_occ N.eq_dec (html_escape s) 39%N = count_occ N.eq_dec s 39%N
    /\ (Forall (fun c => c <> 38%N /\ c <> 60%N /\ c <> 62%N) s ->
        html_escape s = s).
Proof.
  intros s. rewrite html_escape_flat_map.
  assert (Q : forall q, q <> 38%N -> q <> 97%N -> q <> 109%N -> q <> 112%N ->
                         q <> 59%N -> q <> 108%N -> q <> 116%N ->
                         q <> 103%N -> q <> 60%N -> q <> 62%N ->
              count_occ N.eq_dec (flat_map esc_char s) q
              = count_occ N.eq_dec s q).
  { intros q Q1 Q2 Q3 Q4 Q5 Q6 Q7 Q8 Q9 Q10.
    induction s as [|c t IH]; [reflexivity|].
    change (flat_map esc_char (c :: t))
      with (esc_char c ++ flat_map esc_char t).
    rewrite count_occ_app. unfold codepoint in *. rewrite IH.
    destruct (esc_char_cases c)
      as [[-> Ec]|[[-> Ec]|[[-> Ec]|(_ & _ & _ & Ec)]]];
      rewrite Ec.
    1-3: rewrite !(count_occ_cons_neq N.eq_dec) by congruence; reflexivity.
    destruct (N.eq_dec c q) as [e|ne].
    - rewrite !(count_occ_cons_eq N.eq_dec) by exact e. reflexivity.
    - rewrite !(count_occ_cons_neq N.eq_dec) by exact ne. reflexivity. }
  split; [|split].
  - apply Q; discriminate.
  - apply Q; discriminate.
  - clear Q. induction 1 as [|c t (H1 & H2 & H3) _ IH]; [reflexivity|].
    change (flat_map esc_char (c :: t))
      with (esc_char c ++ flat_map esc_char t).
    rewrite IH.
    destruct (esc_char_cases c)
      as [[E _]|[[E _]|[[E _]|(_ & _ & _ & Ec)]]]; try contradiction.
    now rewrite Ec.
Qed.

Lemma html_escape_keeps_quotes_witness :
  Forall (fun c => c <> 38%N /\ c <> 60%N /\ c <> 62%N)
    (lit "Sag " ++ dq ++ lit "Hallo" ++ dq)
  /\ html_escape (lit "Sag " ++ dq ++ lit "Hallo" ++ dq)
     = lit "Sag " ++ dq ++ lit "Hallo" ++ dq.
Proof.
  assert (H : Forall (fun c => c <> 38%N /\ c <> 60%N /\ c <> 62%N)
                (lit "Sag " ++ dq ++ lit "Hallo" ++ dq)).
  { vm_compute. repeat constructor; discriminate. }
  split; [exact H|].
  exact (proj2 (proj2 (html_escape_keeps_quotes
                         (lit "Sag " ++ dq ++ lit "Hallo" ++ dq))) H).
Defined.

(** ** The line codec of the list fields *)

Lemma splitlines_from_line cur item rest :
  one_line item ->
  splitlines_from cur (item ++ rest) = splitlines_from (rev item ++ cur) rest.
Proof.
  intros H. revert cur.
  induction H as [|c t Hc _ IH]; intros cur; [reflexivity|].
  simpl app at 1. cbn [splitlines_from]. rewrite Hc, IH.
  simpl rev. now rewrite <- app_assoc.
Qed.

Lemma splitlines_from_one_line n :
  forall s cur,
    List.length s <= n -> one_line cur ->
    Forall one_line (splitlines_from cur s).
Proof.
  induction n as [|n IH]; intros s cur Hn Hcur.
  - destruct s; [|simpl in Hn; lia]. simpl.
    destruct cur; constructor; auto. now apply Forall_rev.
  - destruct s as [|c t]; simpl.
    + destruct cur; constructor; auto. now apply Forall_rev.
    + simpl in Hn. destruct (is_linebreak c) eqn:E.
      * destruct t as [|c' t'].
        -- constructor; auto. now apply Forall_rev.
        -- simpl in Hn.
           destruct (cp_eqb c 13%N && cp_eqb c' 10%N);
             (constructor; [now apply Forall_rev|]);
             apply IH; try constructor; simpl; lia.
      * apply IH; [lia|]. constructor; auto.
Qed.

Lemma str_splitlines_one_line s : Forall one_line (str_splitlines s).
Proof.
  apply (@splitlines_from_one_line (List.length s)); [lia | constructor].
Qed.

Lemma str_strip_stripped s : stripped (str_strip s).
Proof. split; [apply strip_chars_hd | apply strip_chars_last]. Qed.

Lemma str_strip_id s : stripped s -> str_strip s = s.
Proof. intros [H1 H2]. now apply strip_chars_id. Qed.

Lemma lines_to_list_normal_aux text :
  Forall (fun ln => ln <> [] /\ stripped ln /\ one_line ln)
    (lines_to_list text).
Proof.
  unfold lines_to_list. apply Forall_map, Forall_forall.
  intros ln Hin. apply filter_In in Hin as [Hin Ht].
  split; [|split].
  - intros E. rewrite E in Ht. discriminate.
  - apply str_strip_stripped.
  - apply strip_chars_Forall.
    exact (proj1 (Forall_forall _ _) (str_splitlines_one_line text) ln Hin).
Qed.

Lemma str_join_nl_head x rest :
  x <> [] -> exists c t, str_join nl (x :: rest) = c :: t.
Proof.
  destruct x as [|c x']; [congruence|]. intros _.
  destruct rest; simpl; eauto.
Qed.

Lemma splitlines_join items :
  Forall (fun ln => ln <> [] /\ one_line ln) items ->
  str_splitlines (str_join nl items) = items.
Proof.
  unfold str_splitlines.
  induction 1 as [|x rest [Hx Hl] Hrest IH]; [reflexivity|].
  destruct rest as [|y rest'].
  - cbn [str_join]. rewrite <- (List.app_nil_r x) at 1.
    rewrite splitlines_from_line by assumption.
    rewrite List.app_nil_r. cbn [splitlines_from].
    destruct (rev x) eqn:E.
    + apply (f_equal (@rev codepoint)) in E. rewrite rev_involutive in E.
      simpl in E. congruence.
    + rewrite <- E, rev_involutive. reflexivity.
  - change (str_join nl (x :: y :: rest'))
      with (x ++ nl ++ str_join nl (y :: rest')).
    rewrite splitlines_from_line by assumption. rewrite List.app_nil_r.
    inversion Hrest as [|? ? [Hy _] _]; subst.
    destruct (str_join_nl_head rest' Hy) as (c & t & E).
    rewrite E in *. cbn [app nl splitlines_from].
    change (is_linebreak 10%N) with true. cbv iota.
    change (cp_eqb 10%N 13%N) with false. cbn [andb].
    rewrite rev_involutive. f_equal. exact IH.
Qed.

Lemma lines_roundtrip_aux items :
  Forall (fun ln => ln <> [] /\ stripped ln /\ one_line ln) items ->
  lines_to_list (list_to_lines items) = items.
Proof.
  intros H. unfold lines_to_list, list_to_lines.
  rewrite splitlines_join
    by (eapply Forall_impl; [|exact H]; intros ln (A & _ & B); auto).
  induction H as [|x rest (Hx & Hs & _) _ IH]; [reflexivity|].
  simpl. rewrite (str_strip_id Hs).
  destruct x; [congruence|]. simpl. rewrite (str_strip_id Hs).
  f_equal. exact IH.
Qed.

(** X5. Every item that [lines_to_list] returns is non-empty, has no white
    space at either end and holds no line boundary: blank lines are
    dropped. *)
Theorem lines_to_list_normal :
  forall text : pystr,
    Forall (fun ln => ln <> [] /\ stripped ln /\ one_line ln)
      (lines_to_list text).
Proof. exact lines_to_list_normal_aux. Qed.

(** X6. A list of items that are non-empty, stripped and without line
    boundary comes back from the text box: [lines_to_list] undoes
    [list_to_lines]. *)
Theorem lines_roundtrip :
  forall items : list pystr,
    Forall (fun ln => ln <> [] /\ stripped ln /\ one_line ln) items ->
    lines_to_list (list_to_lines items) = items.
Proof. exact lines_roundtrip_aux. Qed.

Lemma lines_roundtrip_witness :
  lines_to_list (list_to_lines [lit "Flag A gesetzt"; lit "x = 1"])
  = [lit "Flag A gesetzt"; lit "x = 1"].
Proof.
  apply lines_roundtrip.
  repeat constructor; try discriminate; vm_compute; repeat constructor.
Defined.

(** X7. Writing the items of a text box into the list and back changes
    nothing the second time: the list form is a normal form. *)
Theorem lines_to_list_stable :
  forall text : pystr,
    lines_to_list (list_to_lines (lines_to_list text)) = lines_to_list text.
Proof.
  intros text. apply lines_roundtrip_aux, lines_to_list_normal_aux.
Qed.

Example lines_to_list_example :
  lines_to_list (lit "  a  " ++ [13; 10]%N ++ nl ++ lit "b" ++ nl ++ lit "   ")
  = [lit "a"; lit "b"].
Proof. vm_compute. reflexivity. Qed.

(** ** Decoding: shapes, defaults and order *)

Lemma dict_get_absent m k dflt :
  (forall v, ~ In (k, v) m) -> dict_get m k dflt = dflt.
Proof.
  induction m as [|[k' v'] m IH]; intros H; [reflexivity|].
  simpl. destruct (str_eqb k k') eqn:E.
  - apply str_eqb_spec in E. subst k'. exfalso. apply (H v'). now left.
  - apply IH. intros v Hv. apply (H v). now right.
Qed.

Lemma mapM_result_Forall2 {A B : Type} (f : A -> result B) l l' :
  mapM_result f l = Ok l' -> Forall2 (fun x y => f x = Ok y) l l'.
Proof.
  revert l'. induction l as [|x t IH]; simpl; intros l' H.
  - injection H as <-. constructor.
  - destruct (f x) as [y|e] eqn:E; [|discriminate].
    destruct (mapM_result f t) as [ys|e]; [|discriminate].
    injection H as <-. constructor; auto.
Qed.




(** X9. Missing keys are filled in on decoding: a document object without
    [meta] and [nodes] decodes to a project whose meta fields are all the
    empty string (not the defaults of [QuestMeta()]) and which has no node;
    a node object with none of the node fields decodes to the node with id
    [node], empty texts, empty lists and no option. *)
Theorem project_from_jsonable_defaults :
  (forall m,
      (forall v, ~ In (lit "meta", v) m) ->
      (forall v, ~ In (lit "nodes", v) m) ->
      project_from_jsonable (JObj m)
      = Ok (Dyn.mkQuestProject
              (Dyn.mkQuestMeta (JStr []) (JStr []) (JStr []) (JStr [])
                 (JStr []) (JStr []) (JStr []) (JStr []) (JStr []) (JStr []))
              []))
  /\ (forall nm,
         (forall k v, In k node_keys -> ~ In (k, v) nm) ->
         node_from_jsonable (JObj nm)
         = Ok (Dyn.mkNode (JStr (lit "node")) (JStr []) (JStr []) (JStr [])
                 (JStr []) (JArr []) (JArr []) (JArr []) (JStr []) [])).
Proof.
  split.
  - intros m Hm Hn. unfold project_from_jsonable.
    cbn [py_get bind Monad_result].
    rewrite !dict_get_absent by assumption. reflexivity.
  - intros nm H. unfold node_from_jsonable. cbn [py_get bind Monad_result].
    rewrite !dict_get_absent
      by (intros v; apply H; unfold node_keys; in_list).
    reflexivity.
Qed.

Lemma project_from_jsonable_defaults_witness :
  project_from_jsonable (JObj [(lit "version", JInt 2)])
  = Ok (Dyn.mkQuestProject
          (Dyn.mkQuestMeta (JStr []) (JStr []) (JStr []) (JStr [])
             (JStr []) (JStr []) (JStr []) (JStr []) (JStr []) (JStr []))
          [])
  /\ node_from_jsonable (JObj [(lit "id", JStr (lit "a"))])
     = Ok (Dyn.mkNode (JStr (lit "node")) (JStr []) (JStr []) (JStr [])
             (JStr []) (JArr []) (JArr []) (JArr []) (JStr []) []).
Proof.
  destruct project_from_jsonable_defaults as (A & B). split.
  - apply A; intros v [H|[]]; vm_compute in H; discriminate H.
  - apply B. intros k v Hk [H|[]]. injection H as <- _.
    vm_compute in Hk. intuition discriminate.
Defined.

(** X10. A list field of a node whose value in the document is false for
    Python (null, false, 0, the empty string, an empty list or object)
    decodes to the empty list, and such an [options] value to no option. *)
Theorem node_from_jsonable_falsy_lists :
  forall (nm : list (pystr * json)) (n : Dyn.Node),
    node_from_jsonable (JObj nm) = Ok n ->
    (py_truthy (dict_get nm (lit "info_items") (JArr [])) = false ->
     Dyn.info_items n = JArr [])
    /\ (py_truthy (dict_get nm (lit "tech_flags") (JArr [])) = false ->
        Dyn.tech_flags n = JArr [])
    /\ (py_truthy (dict_get nm (lit "outcomes") (JArr [])) = false ->
        Dyn.outcomes n = JArr [])
    /\ (py_truthy (dict_get nm (lit "options") (JArr [])) = false ->
        Dyn.options n = []).
Proof.
  intros nm n H. unfold node_from_jsonable in H.
  cbn [py_get bind Monad_result] in H.
  destruct (py_iter (py_or (dict_get nm (lit "options") (JArr [])) (JArr [])))
    as [os|e] eqn:Ei; [|discriminate H].
  destruct (mapM_result option_from_dict os) as [opts|e] eqn:Em;
    [|discriminate H].
  injection H as <-. cbn [Dyn.info_items Dyn.tech_flags Dyn.outcomes Dyn.options].
  unfold py_or in *.
  repeat split; intros F; rewrite F in *; try reflexivity.
  cbn in Ei. injection Ei as <-. cbn in Em. now injection Em as <-.
Qed.

Lemma node_from_jsonable_falsy_lists_witness :
  exists n,
    node_from_jsonable
      (JObj [(lit "node_id", JStr (lit "a")); (lit "info_items", JNull);
             (lit "options", JStr [])]) = Ok n
    /\ Dyn.info_items n = JArr [] /\ Dyn.options n = [].
Proof.
  assert (E : node_from_jsonable
                (JObj [(lit "node_id", JStr (lit "a"));
                       (lit "info_items", JNull); (lit "options", JStr [])])
              = Ok (Dyn.mkNode (JStr (lit "a")) (JStr []) (JStr []) (JStr [])
                      (JStr []) (JArr []) (JArr []) (JArr []) (JStr []) []))
    by reflexivity.
  eexists. split; [exact E|].
  destruct (node_from_jsonable_falsy_lists _ E) as (A & _ & _ & D).
  split; [apply A | apply D]; reflexivity.
Defined.

(** X11. For a document whose [nodes] is a list, the decoded project has one
    node for each entry, in the order of the document, each the decoding of
    its entry; and its meta record is the decoding of [meta]. *)
Theorem project_from_jsonable_order :
  forall (m : list (pystr * json)) (l : list json) (p : Dyn.QuestProject),
    dict_get m (lit "nodes") (JArr []) = JArr l ->
    project_from_jsonable (JObj m) = Ok p ->
    Forall2 (fun nd n => node_from_jsonable nd = Ok n) l (Dyn.nodes p)
    /\ List.length (Dyn.nodes p) = List.length l
    /\ meta_from_jsonable (dict_get m (lit "meta") (JObj []))
       = Ok (Dyn.meta p).
Proof.
  intros m l p Hl H. unfold project_from_jsonable in H.
  cbn [py_get bind Monad_result] in H. rewrite Hl in H.
  destruct (meta_from_jsonable (dict_get m (lit "meta") (JObj [])))
    as [mt|e]; [|discriminate H].
  cbn [py_iter] in H.
  destruct (mapM_result node_from_jsonable l) as [ns|e] eqn:E;
    [|discriminate H].
  injection H as <-. cbn [Dyn.nodes Dyn.meta].
  pose proof (mapM_result_Forall2 _ _ E) as F.
  repeat split; auto. symmetry. eapply Forall2_length; eauto.
Qed.

Lemma project_from_jsonable_order_witness :
  exists p,
    project_from_jsonable
      (JObj [(lit "nodes",
              JArr [JObj [(lit "node_id", JStr (lit "b"))];
                    JObj [(lit "node_id", JStr (lit "a"))]])]) = Ok p
    /\ map Dyn.node_id (Dyn.nodes p) = [JStr (lit "b"); JStr (lit "a")]
    /\ List.length (Dyn.nodes p) = 2.
Proof.
  eexists. split; [vm_compute; reflexivity|]. split; [reflexivity|].
  refine (proj1 (proj2
            (@project_from_jsonable_order
               [(lit "nodes",
                 JArr [JObj [(lit "node_id", JStr (lit "b"))];
                       JObj [(lit "node_id", JStr (lit "a"))]])]
               _ _ eq_refl _))).
  vm_compute. reflexivity.
Defined.

(** X12. [_load_project] adds the node [start] only to a project without
    nodes: a decoded project that has a node is taken as it is, and a
    document that does not decode is rejected with the same exception. *)
Theorem load_project_data_keeps_nodes :
  (forall data p,
      project_from_jsonable data = Ok p -> Dyn.nodes p <> [] ->
      load_project_data data = Ok p)
  /\ (forall data e,
         project_from_jsonable data = Raised e ->
         load_project_data data = Raised e).
Proof.
  split.
  - intros data p H Hn. unfold load_project_data. rewrite H.
    cbn [bind Monad_result]. destruct (Dyn.nodes p); [congruence|reflexivity].
  - intros data e H. unfold load_project_data. now rewrite H.
Qed.

Lemma load_project_data_keeps_nodes_witness :
  exists p,
    load_project_data
      (JObj [(lit "nodes", JArr [JObj [(lit "node_id", JStr (lit "b"))]])])
    = Ok p
    /\ map Dyn.node_id (Dyn.nodes p) = [JStr (lit "b")].
Proof.
  eexists. split.
  - apply (proj1 load_project_data_keeps_nodes).
    + vm_compute. reflexivity.
    + discriminate.
  - reflexivity.
Defined.

(** ** The document: order and structure *)

Lemma str_join_decomp sep a x r :
  str_join sep (a ++ x :: r)
  = match a with [] => [] | _ => str_join sep a ++ sep end
      ++ x ++ match r with [] => [] | _ => sep ++ str_join sep r end.
Proof.
  induction a as [|z a IH].
  - destruct r; simpl; [now rewrite List.app_nil_r | reflexivity].
  - destruct a as [|z' a'].
    + change (str_join sep ([z] ++ x :: r)) with (z ++ sep ++ str_join sep (x :: r)).
      change (str_join sep (x :: r)) with (str_join sep ([] ++ x :: r)).
      rewrite IH. simpl. now rewrite <- !app_assoc.
    + change (str_join sep ((z :: z' :: a') ++ x :: r))
        with (z ++ sep ++ str_join sep ((z' :: a') ++ x :: r)).
      rewrite IH.
      change (str_join sep (z :: z' :: a'))
        with (z ++ sep ++ str_join sep (z' :: a')).
      now rewrite <- !app_assoc.
Qed.

Lemma occurs_before_join sep x y parts :
  before_in x y parts -> occurs_before x y (str_join sep parts).
Proof.
  intros (a & b & c & ->).
  rewrite str_join_decomp.
  assert (E : match b ++ y :: c with
              | [] => []
              | _ :: _ => sep ++ str_join sep (b ++ y :: c)
              end = sep ++ str_join sep (b ++ y :: c))
    by (destruct b; reflexivity).
  rewrite E, str_join_decomp.
  exists (match a with [] => [] | _ :: _ => str_join sep a ++ sep end),
         (sep ++ match b with [] => [] | _ :: _ => str_join sep b ++ sep end),
         (match c with [] => [] | _ :: _ => sep ++ str_join sep c end).
  now rewrite <- !app_assoc.
Qed.

Lemma occurs_before_context x y t u v :
  occurs_before x y t -> occurs_before x y (u ++ t ++ v).
Proof.
  intros (a & b & c & ->). exists (u ++ a), b, (c ++ v).
  now rewrite <- !app_assoc.
Qed.

Lemma occurs_before_contains x y t s :
  occurs_before x y t -> contains t s -> occurs_before x y s.
Proof. intros H (u & v & ->). now apply occurs_before_context. Qed.

Lemma occurs_before_inner x' x y' y s :
  contains x' x -> contains y' y ->
  occurs_before x y s -> occurs_before x' y' s.
Proof.
  intros (a & b & ->) (a' & b' & ->) (u & m & v & ->).
  exists (u ++ a), (b ++ m ++ a'), (b' ++ v).
  now rewrite <- !app_assoc.
Qed.

Lemma before_in_here {A : Type} (x y : A) r : In y r -> before_in x y (x :: r).
Proof.
  intros H. apply in_split in H as (b & c & ->). exists [], b, c. reflexivity.
Qed.

Lemma before_in_skip {A : Type} (x y z : A) r :
  before_in x y r -> before_in x y (z :: r).
Proof. intros (a & b & c & ->). exists (z :: a), b, c. reflexivity. Qed.

Lemma before_in_map {A B : Type} (f : A -> B) x y l :
  before_in x y l -> before_in (f x) (f y) (map f l).
Proof.
  intros (a & b & c & ->). exists (map f a), (map f b), (map f c).
  now rewrite map_app, map_cons, map_app, map_cons.
Qed.

Lemma before_in_app_r {A : Type} (x y : A) l r :
  before_in x y r -> before_in x y (l ++ r).
Proof.
  intros (a & b & c & ->). exists (l ++ a), b, c. now rewrite <- app_assoc.
Qed.

Lemma before_in_app_l {A : Type} (x y : A) l r :
  before_in x y l -> before_in x y (l ++ r).
Proof.
  intros (a & b & c & ->). exists a, b, (c ++ r).
  rewrite <- !app_assoc. simpl. now rewrite <- !app_assoc.
Qed.

Lemma before_in_split {A : Type} (x y : A) l r :
  In x l -> In y r -> before_in x y (l ++ r).
Proof.
  intros Hx Hy. apply in_split in Hx as (a & b & ->).
  apply in_split in Hy as (c & d & ->).
  exists a, (b ++ c), d. rewrite <- !app_assoc. reflexivity.
Qed.

Ltac before_in_list :=
  repeat first [ apply before_in_here; in_list | apply before_in_skip ].

Lemma render_nav_links nodes :
  render_nav nodes
  = str_join (lit "
      ")
      ([ lit "<nav aria-label=" ++ dq ++ lit "Quest-Navigation" ++ dq ++ lit ">";
         lit "<a href=" ++ dq ++ lit "#top" ++ dq ++ lit ">Übersicht</a>" ]
       ++ map nav_link nodes ++ [ lit "</nav>" ]).
Proof. reflexivity. Qed.

Lemma render_html_with_contains_nav version p js :
  contains (render_nav (nodes p)) (render_html_with version p js).
Proof.
  unfold render_html_with, render_document. cbv zeta.
  apply contains_trans with (lit "    " ++ render_nav (nodes p)).
  - apply contains_app_r, contains_refl.
  - apply contains_join. in_list.
Qed.

(** X13. The navigation list follows the node sequence: in every rendered
    document the overview link comes before the link of every node, and the
    link of a node before the link of every later node. *)
Theorem render_html_nav_order :
  forall (p : QuestProject) (js : bool) (now html : pystr),
    run_Eff now (render_html p js) = Ok html ->
    (forall n, In n (nodes p) ->
               occurs_before
                 (lit "<a href=" ++ dq ++ lit "#top" ++ dq ++ lit ">Übersicht</a>")
                 (nav_link n) html)
    /\ (forall n1 n2, before_in n1 n2 (nodes p) ->
                      occurs_before (nav_link n1) (nav_link n2) html).
Proof.
  intros p js now html H. rewrite render_html_run in H. injection H as <-.
  split.
  - intros n Hn.
    eapply occurs_before_contains; [|apply render_html_with_contains_nav].
    rewrite render_nav_links. apply occurs_before_join.
    apply before_in_skip, before_in_here.
    apply in_or_app. left. now apply in_map.
  - intros n1 n2 Hb.
    eapply occurs_before_contains; [|apply render_html_with_contains_nav].
    rewrite render_nav_links. apply occurs_before_join.
    apply (before_in_app_r [_; _]), before_in_app_l, before_in_map, Hb.
Qed.

Lemma head_if_app {A : Type} (x : A) (c : bool) (l e : list A) :
  (exists r, l = x :: r) -> exists r, (if c then l ++ e else l) = x :: r.
Proof. intros [r ->]. destruct c; simpl; eauto. Qed.

Lemma head_app {A : Type} (x : A) (l e : list A) :
  (exists r, l = x :: r) -> exists r, l ++ e = x :: r.
Proof. intros [r ->]. simpl. eauto. Qed.

Lemma starts_with_join sep x r : starts_with x (str_join sep (x :: r)).
Proof.
  destruct r; simpl.
  - exists []. now rewrite List.app_nil_r.
  - eexists. reflexivity.
Qed.

Lemma render_node_section_starts n ids :
  starts_with
    (lit "<section id=" ++ dq ++ html_escape (node_id n) ++ dq ++ lit ">")
    (render_node_section n ids).
Proof.
  unfold render_node_section. cbv zeta.
  match goal with
  | |- starts_with ?x (str_join _ ?parts) =>
      assert (E : exists r, parts = x :: r)
  end.
  { repeat first [ apply head_if_app | apply head_app ].
    eexists. reflexivity. }
  destruct E as [r ->]. apply starts_with_join.
Qed.

(** X14. The sections follow the node sequence: in every rendered document
    the overview section comes first, then one section for each node, opened
    by [<section id="...">] with the escaped node id, in the order of the
    nodes, then the closing section [end]. *)
Theorem render_html_section_order :
  forall (p : QuestProject) (js : bool) (now html : pystr),
    run_Eff now (render_html p js) = Ok html ->
    let ids := map node_id (nodes p) in
    (forall n, In n (nodes p) ->
               occurs_before
                 (lit "<section id=" ++ dq ++ lit "top" ++ dq ++ lit ">")
                 (render_node_section n ids) html
               /\ occurs_before (render_node_section n ids)
                    (lit "<section id=" ++ dq ++ lit "end" ++ dq ++ lit ">")
                    html
               /\ starts_with
                    (lit "<section id=" ++ dq ++ html_escape (node_id n)
                       ++ dq ++ lit ">")
                    (render_node_section n ids))
    /\ (forall n1 n2, before_in n1 n2 (nodes p) ->
                      occurs_before (render_node_section n1 ids)
                        (render_node_section n2 ids) html).
Proof.
  intros p js now html H ids. rewrite render_html_run in H. injection H as <-.
  set (first := match nodes p with [] => lit "top" | n :: _ => node_id n end).
  set (secs := str_join (lit "

    ") (map (fun n => render_node_section n ids) (nodes p))).
  assert (Hsec : forall n, In n (nodes p) ->
                           contains (render_node_section n ids)
                             (lit "    " ++ secs)).
  { intros n Hn. apply contains_app_r, contains_join.
    exact (in_map (fun n => render_node_section n ids) _ _ Hn). }
  assert (Htop : contains
                   (lit "<section id=" ++ dq ++ lit "top" ++ dq ++ lit ">")
                   (render_top_section (meta p) first)).
  { rewrite render_top_section_eq.
    apply contains_trans
      with (lit "    <section id=" ++ dq ++ lit "top" ++ dq ++ lit ">").
    - exists (lit "    "), []. reflexivity.
    - apply contains_join. in_list. }
  split.
  - intros n Hn. split; [|split].
    + apply (occurs_before_inner Htop (Hsec n Hn)).
      unfold render_html_with, render_document. cbv zeta.
      fold ids. fold first. fold secs.
      apply occurs_before_join. before_in_list.
    + apply (@occurs_before_inner _ (lit "    " ++ secs) _
               (lit "    <section id=" ++ dq ++ lit "end" ++ dq ++ lit ">")
               _ (Hsec n Hn)).
      { exists (lit "    "), []. reflexivity. }
      unfold render_html_with, render_document. cbv zeta.
      fold ids. fold first. fold secs.
      apply occurs_before_join. before_in_list.
    + apply render_node_section_starts.
  - intros n1 n2 Hb.
    apply occurs_before_contains with (lit "    " ++ secs).
    + assert (O : occurs_before (render_node_section n1 ids)
                    (render_node_section n2 ids) secs).
      { apply occurs_before_join.
        exact (before_in_map (fun n => render_node_section n ids) Hb). }
      destruct O as (a & b & c & ->).
      exists (lit "    " ++ a), b, c. now rewrite <- !app_assoc.
    + unfold render_html_with, render_document. cbv zeta.
      fold ids. fold first. fold secs.
      apply contains_join. in_list.
Qed.

Lemma render_html_nav_order_witness :
  exists html,
    run_Eff (lit "2026-01-01 12:00") (render_html p_ardea true) = Ok html
    /\ occurs_before
         (nav_link (Node_default (lit "start") (lit "Start")
                      [mkOption (lit "Go") (lit "finish")]))
         (nav_link (Node_default (lit "finish") (lit "Finish") []))
         html.
Proof.
  eexists. split; [apply render_html_run|].
  apply (proj2 (@render_html_nav_order p_ardea true (lit "2026-01-01 12:00") _
                  (render_html_run p_ardea true (lit "2026-01-01 12:00")))).
  exists [], [], []. reflexivity.
Defined.

Lemma render_html_section_order_witness :
  exists html,
    run_Eff (lit "2026-01-01 12:00") (render_html p_ardea true) = Ok html
    /\ occurs_before
         (render_node_section
            (Node_default (lit "start") (lit "Start")
               [mkOption (lit "Go") (lit "finish")])
            [lit "start"; lit "finish"])
         (render_node_section (Node_default (lit "finish") (lit "Finish") [])
            [lit "start"; lit "finish"])
         html.
Proof.
  eexists. split; [apply render_html_run|].
  apply (proj2 (@render_html_section_order p_ardea true
                  (lit "2026-01-01 12:00") _
                  (render_html_run p_ardea true (lit "2026-01-01 12:00")))).
  exists [], [], []. reflexivity.
Defined.

(** X15. [render_html] returns a document for every graph, flag and time: it
    never raises, and the document runs from [<!doctype html>] to
    [</html>] and a final newline, with the whole of the style sheet in
    it. *)
Theorem render_html_complete :
  forall (p : QuestProject) (js : bool) (now : pystr),
    exists html,
      run_Eff now (render_html p js) = Ok html
      /\ starts_with (lit "<!doctype html>") html
      /\ ends_with (lit "</html>" ++ nl) html
      /\ contains CSS_BLOCK html.
Proof.
  intros p js now. rewrite render_html_run. eexists.
  split; [reflexivity|].
  unfold render_html_with, render_document. cbv zeta.
  split; [|split].
  - cbn [str_join]. eexists. reflexivity.
  - eapply ends_with_join. cbn [rev app]. reflexivity.
  - apply contains_join. in_list.
Qed.

(** X16. With a version stamp that is empty after [strip()], [render_html]
    reads the clock, once, and the footer shows the time it got, escaped:
    the document then depends on the time of the call. *)
Theorem render_html_clock_stamp :
  forall (p : QuestProject) (js : bool),
    truthy (str_strip (version_stamp (meta p))) = false ->
    (exists k, render_html p js = ReadClock k /\ forall t, exists d, k t = Ret d)
    /\ (forall now, exists html,
           run_Eff now (render_html p js) = Ok html
           /\ contains
                (lit "Stand: " ++ html_escape now ++ lit "</small>") html).
Proof.
  intros p js H. split.
  - unfold render_html. cbv zeta. rewrite H.
    destruct (nodes p) as [|n ns]; eexists; (split; [reflexivity|]);
      intros t; eexists; reflexivity.
  - intros now. rewrite render_html_run. cbv zeta. rewrite H.
    eexists. split; [reflexivity|].
    unfold render_html_with, render_document. cbv zeta.
    set (v := html_escape now).
    apply contains_trans
      with (lit "    <p><small>Quest-Präsentator — Stand: " ++ v
              ++ lit "</small></p>").
    + exists (lit "    <p><small>Quest-Präsentator — "), (lit "</p>").
      rewrite <- !app_assoc. reflexivity.
    + apply contains_join. in_list.
Qed.

Lemma render_html_clock_stamp_witness :
  exists html,
    run_Eff (lit "2026-01-01 12:00") (render_html p_ardea false) = Ok html
    /\ contains
         (lit "Stand: " ++ html_escape (lit "2026-01-01 12:00")
            ++ lit "</small>") html.
Proof.
  exact (proj2 (@render_html_clock_stamp p_ardea false eq_refl)
           (lit "2026-01-01 12:00")).
Defined.

(** X17. For a graph with nodes the link to the start in the overview
    points at the anchor of the first node of the sequence. *)
Theorem render_html_start_link :
  forall (p : QuestProject) (js : bool) (now html : pystr) (n : Node)
         (rest : list Node),
    nodes p = n :: rest ->
    run_Eff now (render_html p js) = Ok html ->
    contains
      (lit "<p><a href=" ++ dq ++ lit "#" ++ html_escape (node_id n) ++ dq
         ++ lit ">→ Zum Start</a></p>")
      html.
Proof.
  intros p js now html n rest Hn H.
  rewrite render_html_run in H. injection H as <-.
  unfold render_html_with. cbv zeta. rewrite Hn.
  apply contains_trans with (render_top_section (meta p) (node_id n)).
  - rewrite render_top_section_eq.
    apply contains_trans
      with (lit "      <p><a href=" ++ dq ++ lit "#"
              ++ html_escape (node_id n) ++ dq ++ lit ">→ Zum Start</a></p>").
    + exists (lit "      "), []. now rewrite List.app_nil_r.
    + apply contains_join. in_list.
  - unfold render_document. apply contains_join. in_list.
Qed.

Lemma render_html_start_link_witness :
  exists html,
    run_Eff (lit "2026-01-01 12:00") (render_html p_ardea true) = Ok html
    /\ contains
         (lit "<p><a href=" ++ dq ++ lit "#" ++ html_escape (lit "start") ++ dq
            ++ lit ">→ Zum Start</a></p>")
         html.
Proof.
  eexists. split; [apply render_html_run|].
  exact (@render_html_start_link p_ardea true (lit "2026-01-01 12:00") _ _ _
           eq_refl (render_html_run p_ardea true (lit "2026-01-01 12:00"))).
Defined.

(** ** The document: scripting only on request *)

Section NoTag.

Variables a b : codepoint.

Lemma no_tag2_app s t :
  no_tag2 a b s = true -> no_tag2 a b t = true -> no_tag2 a b (s ++ t) = true.
Proof.
  intros Hs Ht. induction s as [|c r IH]; simpl; auto.
  simpl in Hs. apply andb_true_iff in Hs as [H1 H2].
  rewrite (IH H2), andb_true_r.
  destruct (cp_eqb c 60%N); auto.
  destruct r as [|c1 [|c2 r']]; try discriminate. exact H1.
Qed.


Lemma no_tag2_no_lt s : Forall (fun d => d <> 60%N) s -> no_tag2 a b s = true.
Proof.
  induction 1 as [|c t Hc _ IH]; simpl; auto.
  unfold cp_eqb. apply N.eqb_neq in Hc. now rewrite Hc, IH.
Qed.

Lemma html_escape_no_tag2 s : no_tag2 a b (html_escape s) = true.
Proof.
  apply no_tag2_no_lt. eapply Forall_impl; [|apply html_escape_no_angle].
  intros d [H _]. exact H.
Qed.

Lemma no_tag2_join sep parts :
  no_tag2 a b sep = true -> Forall (fun x => no_tag2 a b x = true) parts ->
  no_tag2 a b (str_join sep parts) = true.
Proof.
  intros Hs H. induction H as [|p rest Hp Hr IH]; auto.
  destruct rest as [|q rest']; [exact Hp|].
  change (str_join sep (p :: q :: rest'))
    with (p ++ sep ++ str_join sep (q :: rest')).
  auto using no_tag2_app.
Qed.


End NoTag.

Create HintDb notag.

Ltac notag_tac :=
  lazymatch goal with
  | |- no_tag2 _ _ (html_escape _) = true => apply html_escape_no_tag2
  | |- no_tag2 _ _ (_ ++ _) = true => apply no_tag2_app; notag_tac
  | |- no_tag2 _ _ (str_join _ _) = true => apply no_tag2_join; notag_tac
  | |- no_tag2 _ _ (if ?c then _ else _) = true => destruct c; notag_tac
  | |- no_tag2 _ _ _ = true =>
      first [ assumption | solve [auto with notag] | vm_compute; reflexivity | idtac ]
  | |- Forall _ [] => apply Forall_nil
  | |- Forall _ (_ :: _) => apply Forall_cons; notag_tac
  | |- Forall _ (if _ then _ ++ _ else _) => apply Forall_if_app; notag_tac
  | |- Forall _ (_ ++ _) => apply Forall_app; split; notag_tac
  | |- Forall _ (map _ _) =>
      apply Forall_map, Forall_forall; intros ? _; notag_tac
  | _ => idtac
  end.

Lemma render_nav_noscript nodes : no_tag2 115%N 99%N (render_nav nodes) = true.
Proof. unfold render_nav. cbv zeta. notag_tac. Qed.

Lemma render_meta_list_noscript meta : no_tag2 115%N 99%N (render_meta_list meta) = true.
Proof. unfold render_meta_list. cbv zeta. cbn [map fst snd]. notag_tac. Qed.

Lemma render_option_noscript ids opt : no_tag2 115%N 99%N (render_option ids opt) = true.
Proof. unfold render_option. cbv zeta. notag_tac. Qed.

#[local] Hint Resolve render_option_noscript : notag.

Lemma render_options_noscript node ids :
  no_tag2 115%N 99%N (render_options node ids) = true.
Proof. unfold render_options. cbv zeta. notag_tac. Qed.

Lemma render_list_block_noscript title items :
  no_tag2 115%N 99%N (render_list_block title items) = true.
Proof.
  destruct items as [|x items]; [reflexivity|].
  rewrite render_list_block_cons. notag_tac.
Qed.

Lemma render_details_noscript title items :
  no_tag2 115%N 99%N (render_details title items) = true.
Proof.
  destruct items as [|x items]; [reflexivity|].
  rewrite render_details_cons. notag_tac.
Qed.

Lemma render_top_section_noscript meta first :
  no_tag2 115%N 99%N (render_top_section meta first) = true.
Proof.
  rewrite render_top_section_eq.
  pose proof (render_meta_list_noscript meta). notag_tac.
Qed.

#[local] Hint Resolve render_nav_noscript render_options_noscript
  render_list_block_noscript render_details_noscript
  render_top_section_noscript : notag.

Lemma render_node_section_noscript node ids :
  no_tag2 115%N 99%N (render_node_section node ids) = true.
Proof. unfold render_node_section. cbv zeta. notag_tac. Qed.

#[local] Hint Resolve render_node_section_noscript : notag.

Lemma CSS_BLOCK_noscript : no_tag2 115%N 99%N CSS_BLOCK = true.
Proof. vm_compute. reflexivity. Qed.

#[local] Hint Resolve CSS_BLOCK_noscript : notag.




(** ** Choices in the document *)

Lemma render_node_section_contains_options n ids :
  contains (render_options n ids) (render_node_section n ids).
Proof.
  unfold render_node_section. cbv zeta. apply contains_join.
  apply in_or_app. left. apply In_if_app. apply in_or_app. right.
  left. reflexivity.
Qed.

Lemma render_html_with_contains_option version p js n opt :
  In n (nodes p) -> In opt (options n) ->
  contains (render_option (map node_id (nodes p)) opt)
    (render_html_with version p js).
Proof.
  intros Hn Ho.
  eapply contains_trans; [apply render_options_contains_option, Ho|].
  eapply contains_trans; [apply render_node_section_contains_options|].
  apply render_html_with_contains_section, Hn.
Qed.

(** X19. Every choice of every node is an item of the document.  A choice
    whose stripped target is the id of a node is a plain link to that
    anchor; any other is a link to the target (to [top] when the target is
    blank) followed by the marker [(Ziel unbekannt)]; a blank label is shown
    as [Option].  A dangling target does not stop the rendering. *)
Theorem render_html_choice_items :
  forall (p : QuestProject) (js : bool) (now html : pystr) (n : Node)
         (opt : Option_),
    run_Eff now (render_html p js) = Ok html ->
    In n (nodes p) -> In opt (options n) ->
    let label_ := html_escape (str_or (str_strip (label opt)) (lit "Option")) in
    let target_ := str_strip (target opt) in
    (str_in target_ (map node_id (nodes p)) = true ->
     contains
       (lit "<li><a href=" ++ dq ++ lit "#" ++ html_escape target_ ++ dq
          ++ lit ">" ++ label_ ++ lit "</a></li>") html)
    /\ (str_in target_ (map node_id (nodes p)) = false ->
        contains
          (lit "<li><a href=" ++ dq ++ lit "#"
             ++ html_escape (str_or target_ (lit "top")) ++ dq ++ lit ">"
             ++ label_ ++ lit "</a> <em style=" ++ dq ++ lit "color:#b42318;"
             ++ dq ++ lit ">(Ziel unbekannt)</em></li>") html).
Proof.
  intros p js now html n opt H Hn Ho label_ target_.
  rewrite render_html_run in H. injection H as <-.
  pose proof (render_html_with_contains_option
                (let v := str_strip (version_stamp (meta p)) in
                 if truthy v then v else now) p js n opt Hn Ho) as C.
  unfold render_option in C. cbv zeta in C. fold target_ label_ in C.
  split; intros E; rewrite E in C; exact C.
Qed.

Lemma render_html_choice_items_witness :
  let p := mkQuestProject QuestMeta_default
             [ Node_default (lit "start") (lit "Start")
                 [mkOption (lit "Go") (lit "missing")] ] in
  exists html,
    run_Eff (lit "2026-01-01 12:00") (render_html p true) = Ok html
    /\ contains
         (lit "<li><a href=" ++ dq ++ lit "#"
            ++ html_escape (str_or (str_strip (lit "missing")) (lit "top"))
            ++ dq ++ lit ">"
            ++ html_escape (str_or (str_strip (lit "Go")) (lit "Option"))
            ++ lit "</a> <em style=" ++ dq ++ lit "color:#b42318;"
            ++ dq ++ lit ">(Ziel unbekannt)</em></li>") html.
Proof.
  cbv zeta. eexists. split; [apply render_html_run|].
  refine (proj2 (@render_html_choice_items
                   (mkQuestProject QuestMeta_default
                      [ Node_default (lit "start") (lit "Start")
                          [mkOption (lit "Go") (lit "missing")] ])
                   true (lit "2026-01-01 12:00") _
                   (Node_default (lit "start") (lit "Start")
                      [mkOption (lit "Go") (lit "missing")])
                   (mkOption (lit "Go") (lit "missing"))
                   (render_html_run _ true (lit "2026-01-01 12:00"))
                   _ _) _).
  - left. reflexivity.
  - left. reflexivity.
  - vm_compute. reflexivity.
Defined.

(** ** The editor: what applying the form does *)

Lemma map_list_set {A B : Type} (f : A -> B) l i x :
  map f (list_set l i x) = list_set (map f l) i (f x).
Proof.
  revert i. induction l as [|y l IH]; intros [|i]; simpl; auto.
  now rewrite IH.
Qed.

Lemma length_list_set {A : Type} (l : list A) i x :
  List.length (list_set l i x) = List.length l.
Proof.
  revert i. induction l as [|y l IH]; intros [|i]; simpl; auto.
Qed.

Lemma nth_error_list_set_eq {A : Type} (l : list A) i x :
  i < List.length l -> nth_error (list_set l i x) i = Some x.
Proof.
  revert i. induction l as [|y l IH]; intros [|i] H; simpl in *;
    try lia; auto. apply IH. lia.
Qed.

Lemma nth_error_list_set_neq {A : Type} (l : list A) i j x :
  i <> j -> nth_error (list_set l i x) j = nth_error l j.
Proof.
  revert i j. induction l as [|y l IH]; intros [|i] [|j] H; simpl;
    try congruence; auto.
Qed.

Lemma In_list_set {A : Type} (l : list A) i x y :
  In y (list_set l i x) -> y = x \/ In y l.
Proof.
  revert i. induction l as [|z l IH]; intros [|i]; simpl; auto.
  - intros [->|H]; auto.
  - intros [->|H]; auto. destruct (IH _ H); auto.
Qed.

Lemma NoDup_list_set {A : Type} (l : list A) i x :
  NoDup l -> ~ In x l -> NoDup (list_set l i x).
Proof.
  intros Hnd. revert i. induction Hnd as [|y l Hy Hl IH]; intros i Hx.
  - destruct i; constructor.
  - destruct i as [|i]; simpl.
    + constructor; auto. intros H. apply Hx. now right.
    + constructor.
      * intros H. apply In_list_set in H as [->|H]; auto.
        apply Hx. now left.
      * apply IH. intros H. apply Hx. now right.
Qed.

Section ApplyFacts.

Variable str_lower : pystr -> pystr.

(** The four ways [_apply_current_node] ends. *)
Lemma _apply_current_node_outcome silent st :
  let new_id := sanitize_id str_lower (var_node_id (node_form st)) in
  (current_node_index st = None
   /\ _apply_current_node str_lower silent st = (Ok tt, st))
  \/ (exists idx,
         current_node_index st = Some idx
         /\ nth_error (nodes (project st)) idx = None
         /\ _apply_current_node str_lower silent st = (Raised IndexError, st))
  \/ (exists idx n,
         current_node_index st = Some idx
         /\ nth_error (nodes (project st)) idx = Some n
         /\ new_id <> node_id n
         /\ In new_id (map node_id (nodes (project st)))
         /\ _apply_current_node str_lower silent st
            = (Ok tt, rejected_state silent new_id n st))
  \/ (exists idx n,
         current_node_index st = Some idx
         /\ nth_error (nodes (project st)) idx = Some n
         /\ (new_id = node_id n
             \/ ~ In new_id (map node_id (nodes (project st))))
         /\ _apply_current_node str_lower silent st
            = (Ok tt, applied_state str_lower idx st)).
Proof.
  cbv zeta.
  destruct (current_node_index st) as [idx|] eqn:Hc.
  2:{ left. split; auto. unfold _apply_current_node.
      cbn [bind Monad_Ed ed_get]. now rewrite Hc. }
  right.
  destruct (nth_error (nodes (project st)) idx) as [n|] eqn:Hn.
  2:{ left. exists idx. repeat split; auto. unfold _apply_current_node.
      cbn [bind Monad_Ed ed_get]. rewrite Hc.
      unfold ed_lift, list_index. now rewrite Hn. }
  right.
  destruct (str_eqb (sanitize_id str_lower (var_node_id (node_form st)))
              (node_id n)) eqn:Ee.
  - right. exists idx, n.
    repeat split; auto.
    { left. now apply str_eqb_spec. }
    unfold _apply_current_node. cbn [bind Monad_Ed ed_get]. rewrite Hc.
    unfold ed_lift, list_index. rewrite Hn. cbn [bind Monad_Ed].
    rewrite Ee. reflexivity.
  - destruct (str_in (sanitize_id str_lower (var_node_id (node_form st)))
                (map node_id (nodes (project st)))) eqn:Ei.
    + left. exists idx, n. repeat split; auto.
      * intros E. rewrite E, str_eqb_refl in Ee. discriminate.
      * now apply str_in_spec.
      * apply (@_apply_current_node_collision str_lower silent st idx n);
          auto.
        -- intros E. rewrite E, str_eqb_refl in Ee. discriminate.
        -- now apply str_in_spec.
    + right. exists idx, n. repeat split; auto.
      * right. now apply str_in_false.
      * unfold _apply_current_node. cbn [bind Monad_Ed ed_get]. rewrite Hc.
        unfold ed_lift, list_index. rewrite Hn. cbn [bind Monad_Ed].
        rewrite Ee. cbn [negb]. rewrite Ei. reflexivity.
Qed.

Lemma applied_state_ids idx st :
  map node_id (nodes (project (applied_state str_lower idx st)))
  = list_set (map node_id (nodes (project st))) idx
      (sanitize_id str_lower (var_node_id (node_form st))).
Proof. unfold applied_state. cbn. now rewrite map_list_set. Qed.

(** X20. [_apply_current_node] keeps the graph well formed: whatever the
    state and the flag, the number of nodes stays and unique node ids stay
    unique. *)
Theorem apply_current_node_keeps_unique_ids :
  forall (silent : bool) (st st' : App) (r : result unit),
    _apply_current_node str_lower silent st = (r, st') ->
    List.length (nodes (project st')) = List.length (nodes (project st))
    /\ (NoDup (map node_id (nodes (project st))) ->
        NoDup (map node_id (nodes (project st')))).
Proof.
  intros silent st st' r H.
  destruct (_apply_current_node_outcome silent st)
    as [[_ E]|[(idx & _ & _ & E)|[(idx & n & _ & _ & _ & _ & E)
                                 |(idx & n & Hc & Hn & Hd & E)]]];
    rewrite E in H; injection H as _ <-.
  - auto.
  - auto.
  - unfold rejected_state. destruct silent; cbn; auto.
  - split.
    + unfold applied_state. cbn. apply length_list_set.
    + intros Hnd. rewrite applied_state_ids.
      destruct Hd as [Hd|Hd].
      * rewrite Hd, list_set_same; auto.
        now apply map_nth_error.
      * now apply NoDup_list_set.
Qed.

End ApplyFacts.

Lemma apply_current_node_keeps_unique_ids_witness :
  List.length (nodes (project (snd (_apply_current_node ascii_lower false st_initial))))
  = 1
  /\ NoDup (map node_id
              (nodes (project (snd (_apply_current_node ascii_lower false
                                      st_initial))))).
Proof.
  destruct (@apply_current_node_keeps_unique_ids ascii_lower false st_initial
              (snd (_apply_current_node ascii_lower false st_initial))
              (fst (_apply_current_node ascii_lower false st_initial)))
    as [L N].
  - apply surjective_pairing.
  - split; [exact L|]. apply N.
    apply NoDup_cons; [intros []|apply NoDup_nil].
Defined.

Section ApplyMore.

Variable str_lower : pystr -> pystr.

Lemma _apply_current_node_applies silent st idx n :
  current_node_index st = Some idx ->
  nth_error (nodes (project st)) idx = Some n ->
  (sanitize_id str_lower (var_node_id (node_form st)) = node_id n
   \/ ~ In (sanitize_id str_lower (var_node_id (node_form st)))
           (map node_id (nodes (project st)))) ->
  _apply_current_node str_lower silent st
  = (Ok tt, applied_state str_lower idx st).
Proof.
  intros Hc Hn Hd.
  destruct (_apply_current_node_outcome str_lower silent st)
    as [[E _]|[(i & Hi & E & _)|[(i & m & Hi & Hm & A & B & _)
                                |(i & m & Hi & Hm & _ & E)]]].
  - congruence.
  - rewrite Hc in Hi. injection Hi as <-. congruence.
  - rewrite Hc in Hi. injection Hi as <-. rewrite Hn in Hm.
    injection Hm as <-. destruct Hd; contradiction.
  - rewrite Hc in Hi. injection Hi as <-. exact E.
Qed.


(** X22. Without a selected node [_apply_current_node] does nothing; with a
    selection outside the node list it raises [IndexError] and has changed
    nothing. *)
Theorem apply_current_node_no_target :
  forall (silent : bool) (st : App),
    (current_node_index st = None ->
     _apply_current_node str_lower silent st = (Ok tt, st))
    /\ (forall idx,
           current_node_index st = Some idx ->
           List.length (nodes (project st)) <= idx ->
           _apply_current_node str_lower silent st = (Raised IndexError, st)).
Proof.
  intros silent st. split.
  - intros Hc. unfold _apply_current_node. cbn [bind Monad_Ed ed_get].
    now rewrite Hc.
  - intros idx Hc Hl. unfold _apply_current_node.
    cbn [bind Monad_Ed ed_get]. rewrite Hc.
    unfold ed_lift, list_index.
    now rewrite (proj2 (nth_error_None _ _) Hl).
Qed.

(** X23. Applying the form a second time changes nothing: after an apply
    that wrote the node, a further apply (silent or not) returns the same
    state. *)
Theorem apply_current_node_twice :
  forall (silent silent' : bool) (st : App) (idx : nat) (n : Node),
    current_node_index st = Some idx ->
    nth_error (nodes (project st)) idx = Some n ->
    (sanitize_id str_lower (var_node_id (node_form st)) = node_id n
     \/ ~ In (sanitize_id str_lower (var_node_id (node_form st)))
             (map node_id (nodes (project st)))) ->
    exists st',
      _apply_current_node str_lower silent st = (Ok tt, st')
      /\ _apply_current_node str_lower silent' st' = (Ok tt, st').
Proof.
  intros silent silent' st idx n Hc Hn Hd.
  exists (applied_state str_lower idx st).
  split; [now apply _apply_current_node_applies with (n := n)|].
  rewrite (@_apply_current_node_in_sync str_lower silent'
             (applied_state str_lower idx st) idx
             (node_from_form str_lower
                (sanitize_id str_lower (var_node_id (node_form st)))
                (node_form st))).
  - reflexivity.
  - exact Hc.
  - unfold applied_state. cbn. apply nth_error_list_set_eq.
    apply nth_error_Some. congruence.
  - reflexivity.
Qed.

End ApplyMore.

Lemma st_initial_applies :
  sanitize_id ascii_lower (var_node_id (node_form st_initial))
  = node_id (Node_default (lit "start") (lit "Start: Ardea") [])
  \/ ~ In (sanitize_id ascii_lower (var_node_id (node_form st_initial)))
          (map node_id (nodes (project st_initial))).
Proof. left. vm_compute. reflexivity. Qed.


Lemma apply_current_node_no_target_witness :
  _apply_current_node ascii_lower false (set_current_node_index (Some 5) st_initial)
  = (Raised IndexError, set_current_node_index (Some 5) st_initial).
Proof.
  apply (proj2 (apply_current_node_no_target ascii_lower false
                  (set_current_node_index (Some 5) st_initial)) 5).
  - reflexivity.
  - simpl. lia.
Defined.

Lemma apply_current_node_twice_witness :
  exists st',
    _apply_current_node ascii_lower true st_initial = (Ok tt, st')
    /\ _apply_current_node ascii_lower false st' = (Ok tt, st').
Proof.
  exact (@apply_current_node_twice ascii_lower true false st_initial 0
           (Node_default (lit "start") (lit "Start: Ardea") [])
           eq_refl eq_refl st_initial_applies).
Defined.

(** ** The editor: adding, deleting and moving nodes *)

Lemma digits_of_uint_IdChars d : IdChars (digits_of_uint d).
Proof. induction d; simpl; constructor; auto. Qed.

Lemma NoDup_snoc {A : Type} (l : list A) x :
  NoDup l -> ~ In x l -> NoDup (l ++ [x]).
Proof.
  induction 1 as [|y l Hy Hl IH]; intros Hx; simpl.
  - constructor; [intros []|constructor].
  - constructor.
    + intros H. apply in_app_or in H as [H|[->|[]]]; auto.
      apply Hx. now left.
    + apply IH. intros H. apply Hx. now right.
Qed.

(** X24. Adding a node keeps the graph well formed: the id of the new node
    is a valid id, and unique node ids stay unique. *)
Theorem add_new_node_keeps_unique_ids :
  forall p : QuestProject,
    (exists n, nodes (add_new_node p) = nodes p ++ [n]
               /\ valid_id (node_id n) = true
               /\ ~ In (node_id n) (map node_id (nodes p)))
    /\ (NoDup (map node_id (nodes p)) ->
        NoDup (map node_id (nodes (add_new_node p)))).
Proof.
  intros p.
  destruct (fresh_index_in_fuel (lit "knoten") (map node_id (nodes p)) 1)
    as (_ & H2 & _).
  apply str_in_false in H2.
  split.
  - eexists. split; [reflexivity|]. split; [|exact H2].
    apply valid_id_spec. split; [discriminate|].
    cbn [node_id Node_default].
    apply Forall_app. split; [vm_compute; repeat constructor|].
    apply Forall_app. split; [vm_compute; repeat constructor|].
    apply digits_of_uint_IdChars.
  - intros Hnd. unfold add_new_node. cbn [nodes].
    rewrite map_app. apply NoDup_snoc; auto.
Qed.

Lemma add_new_node_keeps_unique_ids_witness :
  NoDup (map node_id (nodes (add_new_node p_ardea))).
Proof.
  apply (proj2 (add_new_node_keeps_unique_ids p_ardea)).
  apply NoDup_cons; [|apply NoDup_cons; [intros []|apply NoDup_nil]].
  intros [H|[]]. vm_compute in H. discriminate H.
Defined.

(** X25. The handler [_add_node] on a form without pending edits (writing
    the form back gives the selected node again): it returns without
    exception, the project has the new node behind its former nodes, which
    are unchanged, and the new node is the selected one. *)
Theorem add_node_handler_in_sync :
  forall (str_lower : pystr -> pystr) (st : App) (idx : nat) (n : Node),
    current_node_index st = Some idx ->
    nth_error (nodes (project st)) idx = Some n ->
    form_in_sync str_lower st n ->
    exists st',
      _add_node str_lower st = (Ok tt, st')
      /\ nodes (project st') = nodes (add_new_node (project st))
      /\ current_node_index st' = Some (List.length (nodes (project st))).
Proof. exact _add_node_in_sync. Qed.

Lemma add_node_handler_in_sync_witness :
  exists st',
    _add_node ascii_lower st_initial = (Ok tt, st')
    /\ nodes (project st') = nodes (add_new_node (project st_initial))
    /\ current_node_index st' = Some 1.
Proof.
  apply (@add_node_handler_in_sync ascii_lower st_initial 0
           (Node_default (lit "start") (lit "Start: Ardea") [])).
  - reflexivity.
  - reflexivity.
  - vm_compute. reflexivity.
Defined.

Lemma length_list_del {A : Type} (l : list A) i :
  i < List.length l -> S (List.length (list_del l i)) = List.length l.
Proof.
  intros H. unfold list_del.
  rewrite length_app, length_firstn, length_skipn. lia.
Qed.

Lemma nth_error_list_del {A : Type} (l : list A) i j :
  nth_error (list_del l i) j
  = if j <? i then nth_error l j else nth_error l (S j).
Proof.
  unfold list_del. destruct (Nat.ltb_spec j i) as [H|H].
  - destruct (Nat.le_gt_cases (List.length l) i) as [Hl|Hl].
    + rewrite firstn_all2 by assumption.
      rewrite skipn_all2 by lia. now rewrite List.app_nil_r.
    + rewrite nth_error_app1 by (rewrite length_firstn; lia).
      rewrite nth_error_firstn. now rewrite (proj2 (Nat.ltb_lt j i) H).
  - destruct (Nat.le_gt_cases (List.length l) i) as [Hl|Hl].
    + rewrite firstn_all2 by assumption.
      rewrite skipn_all2 by lia. rewrite List.app_nil_r.
      rewrite (proj2 (nth_error_None l j)) by lia.
      symmetry. apply nth_error_None. lia.
    + rewrite nth_error_app2 by (rewrite length_firstn; lia).
      rewrite length_firstn, Nat.min_l by lia.
      rewrite nth_error_skipn. f_equal. lia.
Qed.

Lemma NoDup_list_del {A : Type} (l : list A) i : NoDup l -> NoDup (list_del l i).
Proof.
  intros H. unfold list_del.
  rewrite <- (firstn_skipn i l) in H.
  apply NoDup_app_remove_l in H as H2.
  destruct (skipn i l) as [|x r] eqn:E.
  - replace (skipn (S i) l) with (@nil A).
    + rewrite List.app_nil_r in *. exact H.
    + symmetry. apply skipn_all2.
      assert (List.length (skipn i l) = 0) by now rewrite E.
      rewrite length_skipn in *. lia.
  - replace (skipn (S i) l) with r.
    + now apply NoDup_remove_1 in H.
    + change (S i) with (1 + i). rewrite <- skipn_skipn, E. reflexivity.
Qed.

Lemma map_list_del {A B : Type} (f : A -> B) l i :
  map f (list_del l i) = list_del (map f l) i.
Proof. unfold list_del. now rewrite map_app, firstn_map, skipn_map. Qed.

Section DeleteFacts.

Variable str_lower : pystr -> pystr.
Variable askyesno : pystr -> pystr -> bool.

(** X26. [_delete_node] refuses to delete the last node: with one node (or
    none) left it shows the warning and changes nothing else; and when the
    user answers no to the question, nothing changes at all. *)
Theorem delete_node_refused :
  forall (st : App) (idx : nat),
    current_node_index st = Some idx ->
    (List.length (nodes (project st)) <= 1 ->
     _delete_node str_lower askyesno st
     = (Ok tt,
        show_dialog
          (ShowWarning (lit "Nein.")
             (lit "Mindestens ein Knoten muss bleiben. (Sonst stolpert die HTML über die Leere.)"))
          st))
    /\ (forall n,
           1 < List.length (nodes (project st)) ->
           nth_error (nodes (project st)) idx = Some n ->
           askyesno (lit "Knoten löschen")
             (lit "Knoten '" ++ node_id n ++ lit "' wirklich löschen?") = false ->
           _delete_node str_lower askyesno st = (Ok tt, st)).
Proof.
  intros st idx Hc. split.
  - intros Hl. unfold _delete_node. cbn [bind Monad_Ed ed_get]. rewrite Hc.
    now rewrite (proj2 (Nat.leb_le _ _) Hl).
  - intros n Hl Hn Ha. unfold _delete_node. cbn [bind Monad_Ed ed_get].
    rewrite Hc. rewrite (proj2 (Nat.leb_gt _ _) Hl).
    unfold ed_lift, list_index. rewrite Hn. cbn [bind Monad_Ed].
    now rewrite Ha.
Qed.

(** X27. Deleting, once confirmed, removes the selected node and nothing
    else: the other nodes keep their order and content, unique ids stay
    unique, the graph keeps at least one node, the node before the deleted
    one (or the first) becomes the selected one and fills the form; the
    edits pending in the form are dropped, not written. *)
Theorem delete_node_removes_one :
  forall (st : App) (idx : nat) (n : Node),
    current_node_index st = Some idx ->
    nth_error (nodes (project st)) idx = Some n ->
    1 < List.length (nodes (project st)) ->
    askyesno (lit "Knoten löschen")
      (lit "Knoten '" ++ node_id n ++ lit "' wirklich löschen?") = true ->
    exists st' m,
      _delete_node str_lower askyesno st = (Ok tt, st')
      /\ nodes (project st') = list_del (nodes (project st)) idx
      /\ meta (project st') = meta (project st)
      /\ S (List.length (nodes (project st')))
         = List.length (nodes (project st))
      /\ nodes (project st') <> []
      /\ (forall j, nth_error (nodes (project st')) j
                    = if j <? idx then nth_error (nodes (project st)) j
                      else nth_error (nodes (project st)) (S j))
      /\ (NoDup (map node_id (nodes (project st))) ->
          NoDup (map node_id (nodes (project st'))))
      /\ current_node_index st' = Some (idx - 1)
      /\ nth_error (nodes (project st')) (idx - 1) = Some m
      /\ node_form st' = form_of_node m
      /\ dialogs st' = dialogs st.
Proof.
  intros st idx n Hc Hn Hl Ha.
  assert (Hi : idx < List.length (nodes (project st)))
    by (apply nth_error_Some; congruence).
  pose proof (length_list_del _ Hi) as Hd.
  destruct (nth_error (list_del (nodes (project st)) idx) (idx - 1))
    as [m|] eqn:Hm.
  2:{ apply nth_error_None in Hm. lia. }
  unfold _delete_node. cbn [bind Monad_Ed ed_get]. rewrite Hc.
  rewrite (proj2 (Nat.leb_gt _ _) Hl).
  unfold ed_lift, list_index. rewrite Hn. cbn [bind Monad_Ed]. rewrite Ha.
  cbn [negb bind Monad_Ed ed_modify _refresh_node_list].
  unfold _select_node.
  cbn [bind Monad_Ed ed_get ed_modify current_node_index
       set_current_node_index set_listbox set_project ret project nodes
       Nat.max].
  unfold ed_lift, list_index. rewrite Hm. unfold ed_modify.
  eexists. exists m. split; [reflexivity|].
  cbn [project nodes meta set_listbox set_node_form set_current_node_index
       set_project current_node_index node_form dialogs].
  repeat split; auto.
  - intros E. rewrite E in Hd. simpl in Hd. lia.
  - intros j. apply nth_error_list_del.
  - intros Hnd. rewrite map_list_del. now apply NoDup_list_del.
Qed.

End DeleteFacts.

Section MoveFacts.

Variable str_lower : pystr -> pystr.

(** X28. [_move_node] does nothing at the ends of the sequence: without
    selection, or when the place to move to lies before the first or behind
    the last node, the state stays as it is (the form is not even
    applied). *)
Theorem move_node_at_boundary :
  forall (st : App) (direction : Z),
    (current_node_index st = None ->
     _move_node str_lower direction st = (Ok tt, st))
    /\ (forall idx,
           current_node_index st = Some idx ->
           (Z.of_nat idx + direction < 0
            \/ Z.of_nat (List.length (nodes (project st)))
               <= Z.of_nat idx + direction)%Z ->
           _move_node str_lower direction st = (Ok tt, st)).
Proof.
  intros st direction. split.
  - intros Hc. unfold _move_node. cbn [bind Monad_Ed ed_get]. now rewrite Hc.
  - intros idx Hc Hb. unfold _move_node. cbn [bind Monad_Ed ed_get].
    rewrite Hc. cbv zeta.
    replace ((Z.of_nat idx + direction <? 0)
             || (Z.of_nat (List.length (nodes (project st)))
                 <=? Z.of_nat idx + direction))%Z with true; [reflexivity|].
    symmetry. apply orb_true_iff.
    destruct Hb as [Hb|Hb]; [left; now apply Z.ltb_lt | right; now apply Z.leb_le].
Qed.

(** X29. Moving swaps two nodes: in a graph with unique ids and a form
    without pending edits, the selected node and the node at the place
    moved to change places, every other node stays where it is, and the
    moved node stays selected and shown in the form; no dialog appears. *)
Theorem move_node_swaps :
  forall (st : App) (direction : Z) (idx j : nat) (n m : Node),
    current_node_index st = Some idx ->
    nth_error (nodes (project st)) idx = Some n ->
    form_in_sync str_lower st n ->
    NoDup (map node_id (nodes (project st))) ->
    (Z.of_nat idx + direction = Z.of_nat j)%Z ->
    j <> idx ->
    nth_error (nodes (project st)) j = Some m ->
    exists st',
      _move_node str_lower direction st = (Ok tt, st')
      /\ nodes (project st')
         = list_set (list_set (nodes (project st)) idx m) j n
      /\ nth_error (nodes (project st')) j = Some n
      /\ nth_error (nodes (project st')) idx = Some m
      /\ (forall k, k <> idx -> k <> j ->
                    nth_error (nodes (project st')) k
                    = nth_error (nodes (project st)) k)
      /\ current_node_index st' = Some j
      /\ node_form st' = form_of_node n
      /\ dialogs st' = dialogs st.
Proof.
  intros st direction idx j n m Hc Hn Hs Hnd Hd Hj Hm.
  assert (Hi : idx < List.length (nodes (project st)))
    by (apply nth_error_Some; congruence).
  assert (Hjl : j < List.length (nodes (project st)))
    by (apply nth_error_Some; congruence).
  assert (Hid : sanitize_id str_lower (var_node_id (node_form st)) = node_id n).
  { unfold form_in_sync in Hs. rewrite <- Hs. reflexivity. }
  unfold _move_node. cbn [bind Monad_Ed ed_get]. rewrite Hc. cbv zeta.
  rewrite Hd, Nat2Z.id.
  replace ((Z.of_nat j <? 0)
           || (Z.of_nat (List.length (nodes (project st))) <=? Z.of_nat j))%Z
    with false.
  2:{ symmetry. apply orb_false_iff. split.
      - apply Z.ltb_ge. lia.
      - apply Z.leb_gt. lia. }
  rewrite (@_apply_current_node_in_sync str_lower true st idx n Hc Hn Hs).
  cbn [project set_listbox set_project].
  unfold ed_lift, list_index. rewrite Hm, Hn.
  cbn [ed_modify _refresh_node_list bind Monad_Ed ed_get].
  set (nodes' := list_set (list_set (nodes (project st)) idx m) j n).
  set (st3 := set_listbox _ None (set_project _ _)).
  assert (N3 : nodes (project st3) = nodes') by reflexivity.
  assert (C3 : current_node_index st3 = Some idx) by exact Hc.
  assert (F3 : node_form st3 = node_form st) by reflexivity.
  assert (Hm3 : nth_error (nodes (project st3)) idx = Some m).
  { rewrite N3. unfold nodes'.
    rewrite nth_error_list_set_neq by congruence.
    now apply nth_error_list_set_eq. }
  assert (Hn3 : nth_error (nodes (project st3)) j = Some n).
  { rewrite N3. unfold nodes'. apply nth_error_list_set_eq.
    now rewrite length_list_set. }
  unfold _select_node. cbn [bind Monad_Ed ed_get]. rewrite C3.
  rewrite (@_apply_current_node_collision str_lower true st3 idx m C3 Hm3).
  2:{ rewrite F3, Hid. intros E. apply Hj.
      exact (NoDup_map_nth_error node_id _ _ _ Hnd Hm Hn (eq_sym E)). }
  2:{ rewrite F3, Hid. apply in_map_iff. exists n. split; auto.
      eapply nth_error_In; exact Hn3. }
  unfold rejected_state.
  cbn [ed_modify project set_node_form set_current_node_index set_listbox].
  unfold ed_lift, list_index. rewrite Hn3. unfold ed_modify.
  eexists. split; [reflexivity|].
  cbn [project nodes set_listbox set_node_form set_current_node_index
       set_project current_node_index node_form dialogs].
  repeat split; auto.
  intros k Hk1 Hk2. rewrite N3. unfold nodes'.
  rewrite !nth_error_list_set_neq by congruence. reflexivity.
Qed.

End MoveFacts.

Lemma delete_node_refused_witness :
  _delete_node ascii_lower (fun _ _ => true) st_initial
  = (Ok tt,
     show_dialog
       (ShowWarning (lit "Nein.")
          (lit "Mindestens ein Knoten muss bleiben. (Sonst stolpert die HTML über die Leere.)"))
       st_initial).
Proof.
  apply (proj1 (@delete_node_refused ascii_lower (fun _ _ => true)
                  st_initial 0 eq_refl)).
  apply le_n.
Defined.

Lemma delete_node_removes_one_witness :
  exists st' m,
    _delete_node ascii_lower (fun _ _ => true) st_ardea = (Ok tt, st')
    /\ nodes (project st') = list_del (nodes (project st_ardea)) 0
    /\ meta (project st') = meta (project st_ardea)
    /\ S (List.length (nodes (project st')))
       = List.length (nodes (project st_ardea))
    /\ nodes (project st') <> []
    /\ (forall j, nth_error (nodes (project st')) j
                  = if j <? 0 then nth_error (nodes (project st_ardea)) j
                    else nth_error (nodes (project st_ardea)) (S j))
    /\ (NoDup (map node_id (nodes (project st_ardea))) ->
        NoDup (map node_id (nodes (project st'))))
    /\ current_node_index st' = Some (0 - 1)
    /\ nth_error (nodes (project st')) (0 - 1) = Some m
    /\ node_form st' = form_of_node m
    /\ dialogs st' = dialogs st_ardea.
Proof.
  apply (@delete_node_removes_one ascii_lower (fun _ _ => true) st_ardea 0
           (Node_default (lit "start") (lit "Start")
              [mkOption (lit "Go") (lit "finish")])).
  - reflexivity.
  - reflexivity.
  - apply le_n.
  - reflexivity.
Defined.

Lemma move_node_at_boundary_witness :
  _move_node ascii_lower 1 st_initial = (Ok tt, st_initial).
Proof.
  apply (proj2 (move_node_at_boundary ascii_lower st_initial 1) 0).
  - reflexivity.
  - right. simpl. lia.
Defined.

Lemma st_ardea_NoDup : NoDup (map node_id (nodes (project st_ardea))).
Proof.
  apply NoDup_cons; [|apply NoDup_cons; [intros []|apply NoDup_nil]].
  intros [H|[]]. vm_compute in H. discriminate H.
Qed.

Lemma st_ardea_in_sync :
  form_in_sync ascii_lower st_ardea
    (Node_default (lit "start") (lit "Start")
       [mkOption (lit "Go") (lit "finish")]).
Proof. vm_compute. reflexivity. Qed.

Lemma move_node_swaps_witness :
  exists st',
    _move_node ascii_lower 1 st_ardea = (Ok tt, st')
    /\ map node_id (nodes (project st')) = [lit "finish"; lit "start"]
    /\ current_node_index st' = Some 1.
Proof.
  destruct (@move_node_swaps ascii_lower st_ardea 1 0 1
              (Node_default (lit "start") (lit "Start")
                 [mkOption (lit "Go") (lit "finish")])
              (Node_default (lit "finish") (lit "Finish") [])
              eq_refl eq_refl st_ardea_in_sync st_ardea_NoDup eq_refl
              (@Nat.neq_succ_0 0) eq_refl)
    as (st' & E & N & _ & _ & _ & C & _).
  exists st'. split; [exact E|]. split; [|exact C].
  rewrite N. vm_compute. reflexivity.
Defined.

Section SelectFacts.

Variable str_lower : pystr -> pystr.

(** X30. Selecting another node first writes the form into the node that
    was selected (silently), then shows the newly selected node: when the id
    of the form is free or the node's own, the project afterwards is the
    one after the apply, the node at the new index fills the form and is the
    selection of the list box. *)
Theorem select_node_commits :
  forall (st : App) (idx j : nat) (n m : Node),
    current_node_index st = Some idx ->
    nth_error (nodes (project st)) idx = Some n ->
    (sanitize_id str_lower (var_node_id (node_form st)) = node_id n
     \/ ~ In (sanitize_id str_lower (var_node_id (node_form st)))
             (map node_id (nodes (project st)))) ->
    nth_error (nodes (project (applied_state str_lower idx st))) j = Some m ->
    exists st',
      _select_node str_lower j st = (Ok tt, st')
      /\ project st' = project (applied_state str_lower idx st)
      /\ nth_error (nodes (project st')) idx
         = Some (node_from_form str_lower
                   (sanitize_id str_lower (var_node_id (node_form st)))
                   (node_form st))
      /\ current_node_index st' = Some j
      /\ lst_selection st' = Some j
      /\ node_form st' = form_of_node m
      /\ dialogs st' = dialogs st.
Proof.
  intros st idx j n m Hc Hn Hd Hm.
  unfold _select_node. cbn [bind Monad_Ed ed_get]. rewrite Hc.
  rewrite (@_apply_current_node_applies str_lower true st idx n Hc Hn Hd).
  cbn [bind Monad_Ed ed_modify ed_get].
  unfold ed_lift, list_index.
  cbn [project set_current_node_index].
  rewrite Hm. unfold ed_modify.
  eexists. split; [reflexivity|].
  cbn [project set_listbox set_node_form set_current_node_index
       current_node_index lst_selection node_form dialogs].
  repeat split; auto.
  unfold applied_state. cbn. apply nth_error_list_set_eq.
  apply nth_error_Some. congruence.
Qed.

End SelectFacts.

Lemma select_node_commits_witness :
  exists st',
    _select_node ascii_lower 1 st_ardea = (Ok tt, st')
    /\ current_node_index st' = Some 1
    /\ node_form st' = form_of_node (Node_default (lit "finish") (lit "Finish") []).
Proof.
  destruct (@select_node_commits ascii_lower st_ardea 0 1
              (Node_default (lit "start") (lit "Start")
                 [mkOption (lit "Go") (lit "finish")])
              (Node_default (lit "finish") (lit "Finish") []))
    as (st' & E & _ & _ & C & _ & F & _).
  - reflexivity.
  - reflexivity.
  - left. vm_compute. reflexivity.
  - vm_compute. reflexivity.
  - exists st'. auto.
Defined.

(** ** Escaping at every place of the document *)

Lemma prefixb_app p t b : prefixb p t = true -> prefixb p (t ++ b) = true.
Proof.
  intros H. apply prefixb_spec in H as (r & ->). apply prefixb_spec.
  exists (r ++ b). now rewrite app_assoc.
Qed.

Lemma amp_ok_app a b :
  amp_ok a = true -> amp_ok b = true -> amp_ok (a ++ b) = true.
Proof.
  intros Ha Hb. induction a as [|c t IH]; [exact Hb|].
  rewrite <- app_comm_cons. cbn [amp_ok] in *.
  apply andb_true_iff in Ha as [H1 H2].
  rewrite (IH H2), andb_true_r.
  destruct (cp_eqb c 38%N); auto.
  apply orb_true_iff in H1 as [H1|H1];
    [apply orb_true_iff in H1 as [H1|H1]|];
    apply (prefixb_app _ _ b) in H1; rewrite H1;
    rewrite ?orb_true_r; reflexivity.
Qed.

Lemma amp_ok_suffix a b : amp_ok (a ++ b) = true -> amp_ok b = true.
Proof.
  induction a as [|c t IH]; [auto|].
  rewrite <- app_comm_cons. cbn [amp_ok].
  intros H. apply andb_true_iff in H as [_ H]. auto.
Qed.

Lemma esc_char_amp_ok c : amp_ok (esc_char c) = true.
Proof.
  unfold esc_char.
  destruct (cp_eqb c 38%N) eqn:E1; [reflexivity|].
  destruct (cp_eqb c 60%N); [reflexivity|].
  destruct (cp_eqb c 62%N); [reflexivity|].
  cbn [amp_ok]. now rewrite E1.
Qed.

Lemma html_escape_amp_ok s : amp_ok (html_escape s) = true.
Proof.
  rewrite html_escape_flat_map.
  induction s as [|c s IH]; [reflexivity|].
  cbn [flat_map]. apply amp_ok_app; [apply esc_char_amp_ok | exact IH].
Qed.

Lemma amp_ok_join sep parts :
  amp_ok sep = true -> Forall (fun x => amp_ok x = true) parts ->
  amp_ok (str_join sep parts) = true.
Proof.
  intros Hs H. induction H as [|p rest Hp Hr IH]; auto.
  destruct rest as [|q rest']; [exact Hp|].
  change (str_join sep (p :: q :: rest'))
    with (p ++ sep ++ str_join sep (q :: rest')).
  auto using amp_ok_app.
Qed.

(** What [amp_ok] says of the occurrences of [&]. *)
Lemma amp_ok_spec s :
  amp_ok s = true ->
  forall pre post, s = pre ++ 38%N :: post ->
    starts_with (lit "amp;") post \/ starts_with (lit "lt;") post
    \/ starts_with (lit "gt;") post.
Proof.
  intros H pre post ->. apply amp_ok_suffix in H.
  cbn [amp_ok] in H. apply andb_true_iff in H as [H _].
  change (cp_eqb 38%N 38%N) with true in H. cbv iota in H.
  apply orb_true_iff in H as [H|H];
    [apply orb_true_iff in H as [H|H]|];
    apply prefixb_spec in H; auto.
Qed.

Create HintDb ampok.

Ltac amp_tac :=
  lazymatch goal with
  | |- amp_ok (html_escape _) = true => apply html_escape_amp_ok
  | |- amp_ok (_ ++ _) = true => apply amp_ok_app; amp_tac
  | |- amp_ok (str_join _ _) = true => apply amp_ok_join; amp_tac
  | |- amp_ok (if ?c then _ else _) = true => destruct c; amp_tac
  | |- amp_ok _ = true =>
      first [ assumption | solve [auto with ampok] | vm_compute; reflexivity | idtac ]
  | |- Forall _ [] => apply Forall_nil
  | |- Forall _ (_ :: _) => apply Forall_cons; amp_tac
  | |- Forall _ (if _ then _ ++ _ else _) => apply Forall_if_app; amp_tac
  | |- Forall _ (_ ++ _) => apply Forall_app; split; amp_tac
  | |- Forall _ (map _ _) =>
      apply Forall_map, Forall_forall; intros ? _; amp_tac
  | _ => idtac
  end.

Lemma render_nav_amp_ok nodes : amp_ok (render_nav nodes) = true.
Proof. unfold render_nav. cbv zeta. amp_tac. Qed.

Lemma render_meta_list_amp_ok meta : amp_ok (render_meta_list meta) = true.
Proof. unfold render_meta_list. cbv zeta. cbn [map fst snd]. amp_tac. Qed.

Lemma render_option_amp_ok ids opt : amp_ok (render_option ids opt) = true.
Proof. unfold render_option. cbv zeta. amp_tac. Qed.

#[local] Hint Resolve render_option_amp_ok : ampok.

Lemma render_options_amp_ok node ids : amp_ok (render_options node ids) = true.
Proof. unfold render_options. cbv zeta. amp_tac. Qed.

Lemma render_list_block_amp_ok title items :
  amp_ok (render_list_block title items) = true.
Proof.
  destruct items as [|x items]; [reflexivity|].
  rewrite render_list_block_cons. amp_tac.
Qed.

Lemma render_details_amp_ok title items :
  amp_ok (render_details title items) = true.
Proof.
  destruct items as [|x items]; [reflexivity|].
  rewrite render_details_cons. amp_tac.
Qed.

Lemma render_top_section_amp_ok meta first :
  amp_ok (render_top_section meta first) = true.
Proof.
  rewrite render_top_section_eq.
  pose proof (render_meta_list_amp_ok meta). amp_tac.
Qed.

#[local] Hint Resolve render_nav_amp_ok render_options_amp_ok
  render_list_block_amp_ok render_details_amp_ok
  render_top_section_amp_ok : ampok.

Lemma render_node_section_amp_ok node ids :
  amp_ok (render_node_section node ids) = true.
Proof. unfold render_node_section. cbv zeta. amp_tac. Qed.

#[local] Hint Resolve render_node_section_amp_ok : ampok.

Lemma CSS_BLOCK_amp_ok : amp_ok CSS_BLOCK = true.
Proof. vm_compute. reflexivity. Qed.

Lemma JS_BLOCK_amp_ok : amp_ok JS_BLOCK = true.
Proof. vm_compute. reflexivity. Qed.

#[local] Hint Resolve CSS_BLOCK_amp_ok JS_BLOCK_amp_ok : ampok.

Lemma render_html_with_amp_ok version p js :
  amp_ok (render_html_with version p js) = true.
Proof.
  unfold render_html_with, render_document. cbv zeta.
  assert (S : amp_ok
                (str_join (lit "

    ") (map (fun n => render_node_section n (map node_id (nodes p)))
          (nodes p))) = true).
  { apply amp_ok_join; [reflexivity|].
    apply Forall_map, Forall_forall. intros n _. auto with ampok. }
  amp_tac.
Qed.

(** *** Where each text of the project stands in the document *)

Lemma str_join_app sep a b :
  a <> [] -> b <> [] ->
  str_join sep (a ++ b) = str_join sep a ++ sep ++ str_join sep b.
Proof.
  intros Ha Hb. induction a as [|x a IH]; [contradiction|].
  destruct a as [|y a'].
  - destruct b as [|z b']; [contradiction|]. reflexivity.
  - change (str_join sep ((x :: y :: a') ++ b))
      with (x ++ sep ++ str_join sep ((y :: a') ++ b)).
    rewrite IH by discriminate.
    change (str_join sep (x :: y :: a'))
      with (x ++ sep ++ str_join sep (y :: a')).
    now rewrite <- !app_assoc.
Qed.

(** Consecutive parts stand in the joined text as they are joined. *)
Lemma contains_join_segment sep u mid v :
  mid <> [] ->
  contains (str_join sep mid) (str_join sep (u ++ mid ++ v)).
Proof.
  intros Hm.
  assert (R : contains (str_join sep mid) (str_join sep (mid ++ v))).
  { destruct v as [|z v'].
    - rewrite List.app_nil_r. apply contains_refl.
    - rewrite str_join_app by (auto; discriminate).
      apply contains_app_l, contains_refl. }
  destruct u as [|z u']; [exact R|].
  rewrite str_join_app.
  - apply contains_app_r, contains_app_r, R.
  - discriminate.
  - destruct mid; [contradiction|discriminate].
Qed.

Lemma seg_if_app {A : Type} (mid : list A) (c : bool) (l e : list A) :
  (exists u v, l = u ++ mid ++ v) ->
  exists u v, (if c then l ++ e else l) = u ++ mid ++ v.
Proof.
  intros (u & v & ->). destruct c; [|eauto].
  exists u, (v ++ e). now rewrite <- !app_assoc.
Qed.

Lemma seg_app_l {A : Type} (mid l e : list A) :
  (exists u v, l = u ++ mid ++ v) -> exists u v, l ++ e = u ++ mid ++ v.
Proof.
  intros (u & v & ->). exists u, (v ++ e). now rewrite <- !app_assoc.
Qed.

(** Membership in the list of parts, found by position. *)
Ltac in_syn :=
  lazymatch goal with
  | |- In ?x (?y :: ?r) =>
      first [ constr_eq x y; left; reflexivity | right; in_syn ]
  | |- In ?x (if _ then _ ++ _ else _) => apply In_if_app; in_syn
  | |- In ?x (?l ++ ?e) =>
      first [ apply in_or_app; right; in_syn | apply in_or_app; left; in_syn ]
  end.

Lemma contains_lit_prefix pre a full rest :
  full = pre ++ a -> contains (a ++ rest) (full ++ rest).
Proof.
  intros ->. exists pre, []. now rewrite List.app_nil_r, <- app_assoc.
Qed.

Lemma render_node_section_open n ids :
  contains (lit "<section id=" ++ dq ++ html_escape (node_id n) ++ dq ++ lit ">")
    (render_node_section n ids).
Proof.
  unfold render_node_section. cbv zeta. apply contains_join. in_syn.
Qed.

Lemma render_node_section_scene n ids :
  truthy (str_strip (scene n)) = true ->
  contains
    (lit "<p><strong>Szene:</strong> " ++ html_escape (str_strip (scene n))
       ++ lit "</p>")
    (render_node_section n ids).
Proof.
  intros H.
  apply contains_trans
    with (lit "  <p><strong>Szene:</strong> "
            ++ html_escape (str_strip (scene n)) ++ lit "</p>").
  - apply (@contains_lit_prefix (lit "  ")). vm_compute. reflexivity.
  - unfold render_node_section. cbv zeta. rewrite H. cbv iota.
    apply contains_join. in_syn.
Qed.

Lemma render_node_section_content n ids :
  truthy (str_strip (content n)) = true ->
  contains
    (lit "<p><strong>Inhalt:</strong> " ++ html_escape (str_strip (content n))
       ++ lit "</p>")
    (render_node_section n ids).
Proof.
  intros H.
  apply contains_trans
    with (lit "  <p><strong>Inhalt:</strong> "
            ++ html_escape (str_strip (content n)) ++ lit "</p>").
  - apply (@contains_lit_prefix (lit "  ")). vm_compute. reflexivity.
  - unfold render_node_section. cbv zeta. rewrite H. cbv iota.
    apply contains_join. in_syn.
Qed.

Lemma render_node_section_notes n ids :
  truthy (str_strip (notes n)) = true ->
  contains
    (lit "<p><strong>Notizen:</strong> " ++ html_escape (str_strip (notes n))
       ++ lit "</p>")
    (render_node_section n ids).
Proof.
  intros H.
  apply contains_trans
    with (lit "  <p><strong>Notizen:</strong> "
            ++ html_escape (str_strip (notes n)) ++ lit "</p>").
  - apply (@contains_lit_prefix (lit "  ")). vm_compute. reflexivity.
  - unfold render_node_section. cbv zeta. rewrite H. cbv iota.
    apply contains_join. in_syn.
Qed.

(** The dialog stands between the lines that open and close the [pre]
    block. *)
Lemma render_node_section_dialog n ids :
  truthy (str_strip (dialog n)) = true ->
  contains
    (str_join (lit "
    ") [ lit "    <pre>"; html_escape (str_strip (dialog n)); lit "    </pre>" ])
    (render_node_section n ids).
Proof.
  intros H. unfold render_node_section. cbv zeta. rewrite H. cbv iota.
  match goal with
  | |- contains (str_join ?sep ?mid) (str_join ?sep ?parts) =>
      assert (E : exists u v, parts = u ++ mid ++ v)
  end.
  { apply seg_app_l, seg_if_app, seg_app_l, seg_if_app, seg_if_app, seg_if_app.
    match goal with
    | |- exists u v, ?l ++ [?a; ?b; _; _; _; ?f] = _ =>
        exists (l ++ [a; b]), [f]
    end.
    rewrite <- !app_assoc. reflexivity. }
  destruct E as (u & v & ->).
  apply contains_join_segment. discriminate.
Qed.

Lemma render_list_block_item title items it :
  In it items ->
  truthy (render_list_block title items) = true
  /\ contains (lit "<li>" ++ html_escape it ++ lit "</li>")
       (render_list_block title items).
Proof.
  intros H. destruct items as [|x items]; [contradiction|].
  rewrite render_list_block_cons. split; [reflexivity|].
  match goal with
  | |- contains _ (str_join _ [_; _; _; ?l; _]) =>
      apply contains_trans with l; [|apply contains_join; in_list]
  end.
  apply contains_app_r, contains_join.
  exact (in_map (fun it => lit "<li>" ++ html_escape it ++ lit "</li>") _ _ H).
Qed.

Lemma render_details_item title items it :
  In it items ->
  truthy (render_details title items) = true
  /\ contains (lit "<li>" ++ html_escape it ++ lit "</li>")
       (render_details title items).
Proof.
  intros H. destruct items as [|x items]; [contradiction|].
  rewrite render_details_cons. split; [reflexivity|].
  match goal with
  | |- contains _ (str_join _ [_; _; _; _; ?l; _; _]) =>
      apply contains_trans with l; [|apply contains_join; in_list]
  end.
  apply contains_app_r, contains_join.
  exact (in_map (fun it => lit "<li>" ++ html_escape it ++ lit "</li>") _ _ H).
Qed.

Lemma render_node_section_info n ids it :
  In it (info_items n) ->
  contains (lit "<li>" ++ html_escape it ++ lit "</li>")
    (render_node_section n ids).
Proof.
  intros H.
  destruct (render_list_block_item (lit "Wichtige Information") _ _ H)
    as (T & C).
  eapply contains_trans; [exact C|].
  unfold render_node_section. cbv zeta. rewrite T. cbv iota.
  apply contains_join. in_syn.
Qed.

Lemma render_node_section_tech n ids it :
  In it (tech_flags n) ->
  contains (lit "<li>" ++ html_escape it ++ lit "</li>")
    (render_node_section n ids).
Proof.
  intros H.
  destruct (render_details_item (lit "Technik/Flags") _ _ H) as (T & C).
  eapply contains_trans; [exact C|].
  unfold render_node_section. cbv zeta. rewrite T. cbv iota.
  apply contains_join. in_syn.
Qed.

Lemma render_node_section_outcomes n ids it :
  In it (outcomes n) ->
  contains (lit "<li>" ++ html_escape it ++ lit "</li>")
    (render_node_section n ids).
Proof.
  intros H.
  destruct (render_details_item (lit "Enden/Outcomes (Notizblock)") _ _ H)
    as (T & C).
  eapply contains_trans; [exact C|].
  unfold render_node_section. cbv zeta. rewrite T. cbv iota.
  apply contains_join. in_syn.
Qed.

Lemma render_option_link ids opt :
  contains
    (lit "<a href=" ++ dq ++ lit "#"
       ++ html_escape
            (if str_in (str_strip (target opt)) ids
             then str_strip (target opt)
             else str_or (str_strip (target opt)) (lit "top"))
       ++ dq ++ lit ">"
       ++ html_escape (str_or (str_strip (label opt)) (lit "Option"))
       ++ lit "</a>")
    (render_option ids opt).
Proof.
  unfold render_option. cbv zeta.
  destruct (str_in (str_strip (target opt)) ids); cbn [negb].
  - exists (lit "<li>"), (lit "</li>"). rewrite <- !app_assoc. reflexivity.
  - exists (lit "<li>"),
      (lit " <em style=" ++ dq ++ lit "color:#b42318;" ++ dq
         ++ lit ">(Ziel unbekannt)</em></li>").
    rewrite <- !app_assoc. reflexivity.
Qed.

(** *** The lines of the document *)

Lemma render_meta_list_item m k v :
  In (k, v)
     [ (lit "Questgeber", quest_giver m);
       (lit "Voraussetzung", prerequisite m);
       (lit "Art", quest_type m);
       (lit "Kurzbeschreibung", meta_short m);
       (lit "Belohnungen", rewards m);
       (lit "Wichtige Flags", important_flags m) ] ->
  contains
    (lit "<li><strong>" ++ html_escape k ++ lit ":</strong> "
       ++ html_escape (str_or (str_strip v) (lit "—")) ++ lit "</li>")
    (render_meta_list m).
Proof.
  intros H. unfold render_meta_list. cbv zeta. apply contains_join.
  exact (in_map
           (fun kv : pystr * pystr =>
              lit "<li><strong>" ++ html_escape (fst kv) ++ lit ":</strong> "
                ++ html_escape (str_or (str_strip (snd kv)) (lit "—"))
                ++ lit "</li>") _ _ H).
Qed.

Lemma render_html_with_contains_top version p js :
  contains
    (render_top_section (meta p)
       (match nodes p with [] => lit "top" | n :: _ => node_id n end))
    (render_html_with version p js).
Proof.
  unfold render_html_with, render_document. cbv zeta.
  apply contains_join. in_syn.
Qed.

Lemma render_top_section_short m first :
  contains
    (lit "<p><strong>Kurzbeschreibung:</strong> "
       ++ html_escape (str_or (str_strip (short_description m)) (lit "—"))
       ++ lit "</p>")
    (render_top_section m first).
Proof.
  rewrite render_top_section_eq.
  apply contains_trans
    with (lit "      <p><strong>Kurzbeschreibung:</strong> "
            ++ html_escape (str_or (str_strip (short_description m)) (lit "—"))
            ++ lit "</p>").
  - apply (@contains_lit_prefix (lit "      ")). vm_compute. reflexivity.
  - apply contains_join. in_syn.
Qed.

Lemma render_top_section_meta_list m first :
  contains (render_meta_list m) (render_top_section m first).
Proof.
  rewrite render_top_section_eq.
  apply contains_trans with (lit "        " ++ render_meta_list m).
  - apply contains_app_r, contains_refl.
  - apply contains_join. in_syn.
Qed.

Lemma render_top_section_start m first :
  contains
    (lit "<p><a href=" ++ dq ++ lit "#" ++ html_escape first ++ dq
       ++ lit ">→ Zum Start</a></p>")
    (render_top_section m first).
Proof.
  rewrite render_top_section_eq.
  apply contains_trans
    with (lit "      <p><a href=" ++ dq ++ lit "#" ++ html_escape first ++ dq
            ++ lit ">→ Zum Start</a></p>").
  - apply (@contains_lit_prefix (lit "      ")). vm_compute. reflexivity.
  - apply contains_join. in_syn.
Qed.

Lemma render_html_with_title version p js :
  contains
    (lit "<title>"
       ++ html_escape (str_strip (lit "Quest-Präsentator: " ++ quest_name (meta p)))
       ++ lit "</title>")
    (render_html_with version p js).
Proof.
  unfold render_html_with, render_document. cbv zeta.
  apply contains_trans
    with (lit "  <title>"
            ++ html_escape
                 (str_strip (lit "Quest-Präsentator: " ++ quest_name (meta p)))
            ++ lit "</title>").
  - apply (@contains_lit_prefix (lit "  ")). vm_compute. reflexivity.
  - apply contains_join. in_syn.
Qed.

Lemma render_html_with_h1 version p js :
  contains
    (lit "<h1>Quest: "
       ++ html_escape (str_or (str_strip (quest_name (meta p))) (lit "—"))
       ++ lit "</h1>")
    (render_html_with version p js).
Proof.
  unfold render_html_with, render_document. cbv zeta.
  apply contains_trans
    with (lit "    <h1>Quest: "
            ++ html_escape (str_or (str_strip (quest_name (meta p))) (lit "—"))
            ++ lit "</h1>").
  - apply (@contains_lit_prefix (lit "    ")). vm_compute. reflexivity.
  - apply contains_join. in_syn.
Qed.

Lemma render_html_with_region version p js :
  contains
    (lit "<p><strong>Region:</strong> "
       ++ html_escape (str_or (str_strip (region (meta p))) (lit "—"))
       ++ lit "</p>")
    (render_html_with version p js).
Proof.
  unfold render_html_with, render_document. cbv zeta.
  apply contains_trans
    with (lit "    <p><strong>Region:</strong> "
            ++ html_escape (str_or (str_strip (region (meta p))) (lit "—"))
            ++ lit "</p>").
  - apply (@contains_lit_prefix (lit "    ")). vm_compute. reflexivity.
  - apply contains_join. in_syn.
Qed.

Lemma render_html_with_footer version p js :
  contains
    (lit "<p><small>Quest-Präsentator — Stand: " ++ html_escape version
       ++ lit "</small></p>")
    (render_html_with version p js).
Proof.
  unfold render_html_with, render_document. cbv zeta.
  apply contains_trans
    with (lit "    <p><small>Quest-Präsentator — Stand: "
            ++ html_escape version ++ lit "</small></p>").
  - apply (@contains_lit_prefix (lit "    ")). vm_compute. reflexivity.
  - apply contains_join. in_syn.
Qed.

Lemma render_html_with_nav_link version p js n :
  In n (nodes p) ->
  contains
    (lit "<a href=" ++ dq ++ lit "#" ++ html_escape (node_id n) ++ dq
       ++ lit ">" ++ html_escape (str_or (title n) (node_id n)) ++ lit "</a>")
    (render_html_with version p js).
Proof.
  intros H.
  eapply contains_trans; [|apply render_html_with_contains_nav].
  rewrite render_nav_links. apply contains_join.
  apply in_or_app. right. apply in_or_app. left.
  exact (in_map nav_link _ _ H).
Qed.

(** C6. Every text of the project stands in the document escaped by
    [html_escape], at each place where [render_html] and its helpers insert
    it.  For every graph, flag and clock, the document holds: the quest name
    in the [title] and the [h1] line, the region, the short description, the
    six entries of the meta list, the id of the first node in the link to the
    start and the version stamp (or the clock) in the footer; and for every
    node its id and title in the navigation link, its id in the opening tag
    of its section, its title in the heading, scene, content, dialog and
    notes (when not blank) in their lines, every information item, technical
    flag and outcome as a list item, and label and target of every choice in
    its link -- each one passed through [html_escape] as a whole.  So a node
    whose title is [<b>&"x"</b>] gives [&lt;b&gt;&amp;"x"&lt;/b&gt;].  In
    the whole document every [&] starts one of [&amp;], [&lt;], [&gt;], and
    [<b>] does not occur.  [html_escape] maps each character on its own:
    [&], [<], [>] to [&amp;], [&lt;], [&gt;], every other to itself; its
    result has no [<] and no [>]. *)
Theorem render_html_escapes_user_text :
  forall (p : QuestProject) (js : bool) (now html : pystr),
    run_Eff now (render_html p js) = Ok html ->
    (contains
       (lit "<title>"
          ++ html_escape
               (str_strip (lit "Quest-Präsentator: " ++ quest_name (meta p)))
          ++ lit "</title>") html
     /\ contains
          (lit "<h1>Quest: "
             ++ html_escape (str_or (str_strip (quest_name (meta p))) (lit "—"))
             ++ lit "</h1>") html
     /\ contains
          (lit "<p><strong>Region:</strong> "
             ++ html_escape (str_or (str_strip (region (meta p))) (lit "—"))
             ++ lit "</p>") html
     /\ contains
          (lit "<p><strong>Kurzbeschreibung:</strong> "
             ++ html_escape
                  (str_or (str_strip (short_description (meta p))) (lit "—"))
             ++ lit "</p>") html
     /\ (forall k v,
            In (k, v)
               [ (lit "Questgeber", quest_giver (meta p));
                 (lit "Voraussetzung", prerequisite (meta p));
                 (lit "Art", quest_type (meta p));
                 (lit "Kurzbeschreibung", meta_short (meta p));
                 (lit "Belohnungen", rewards (meta p));
                 (lit "Wichtige Flags", important_flags (meta p)) ] ->
            contains
              (lit "<li><strong>" ++ html_escape k ++ lit ":</strong> "
                 ++ html_escape (str_or (str_strip v) (lit "—"))
                 ++ lit "</li>") html)
     /\ contains
          (lit "<p><a href=" ++ dq ++ lit "#"
             ++ html_escape
                  (match nodes p with [] => lit "top" | n :: _ => node_id n end)
             ++ dq ++ lit ">→ Zum Start</a></p>") html
     /\ contains
          (lit "<p><small>Quest-Präsentator — Stand: "
             ++ html_escape
                  (if truthy (str_strip (version_stamp (meta p)))
                   then str_strip (version_stamp (meta p)) else now)
             ++ lit "</small></p>") html)
    /\ (forall n : Node,
           In n (nodes p) ->
           contains
             (lit "<a href=" ++ dq ++ lit "#" ++ html_escape (node_id n) ++ dq
                ++ lit ">" ++ html_escape (str_or (title n) (node_id n))
                ++ lit "</a>") html
           /\ contains
                (lit "<section id=" ++ dq ++ html_escape (node_id n) ++ dq
                   ++ lit ">") html
           /\ contains
                (lit "<h2>"
                   ++ html_escape (str_or (str_strip (title n)) (node_id n))
                   ++ lit "</h2>") html
           /\ (truthy (str_strip (scene n)) = true ->
               contains
                 (lit "<p><strong>Szene:</strong> "
                    ++ html_escape (str_strip (scene n)) ++ lit "</p>") html)
           /\ (truthy (str_strip (content n)) = true ->
               contains
                 (lit "<p><strong>Inhalt:</strong> "
                    ++ html_escape (str_strip (content n)) ++ lit "</p>") html)
           /\ (truthy (str_strip (dialog n)) = true ->
               contains
                 (str_join (lit "
    ") [ lit "    <pre>"; html_escape (str_strip (dialog n));
         lit "    </pre>" ]) html)
           /\ (forall it,
                  In it (info_items n) \/ In it (tech_flags n)
                  \/ In it (outcomes n) ->
                  contains (lit "<li>" ++ html_escape it ++ lit "</li>") html)
           /\ (forall opt,
                  In opt (options n) ->
                  contains
                    (lit "<a href=" ++ dq ++ lit "#"
                       ++ html_escape
                            (if str_in (str_strip (target opt))
                                  (map node_id (nodes p))
                             then str_strip (target opt)
                             else str_or (str_strip (target opt)) (lit "top"))
                       ++ dq ++ lit ">"
                       ++ html_escape
                            (str_or (str_strip (label opt)) (lit "Option"))
                       ++ lit "</a>") html)
           /\ (truthy (str_strip (notes n)) = true ->
               contains
                 (lit "<p><strong>Notizen:</strong> "
                    ++ html_escape (str_strip (notes n)) ++ lit "</p>") html)
           /\ (title n = lit "<b>&" ++ dq ++ lit "x" ++ dq ++ lit "</b>" ->
               contains
                 (lit "&lt;b&gt;&amp;" ++ dq ++ lit "x" ++ dq
                    ++ lit "&lt;/b&gt;") html))
    /\ (forall pre post,
           html = pre ++ 38%N :: post ->
           starts_with (lit "amp;") post \/ starts_with (lit "lt;") post
           \/ starts_with (lit "gt;") post)
    /\ ~ contains (lit "<b>") html
    /\ (forall s, html_escape s = flat_map esc_char s)
    /\ (forall s, Forall (fun d => d <> 60%N /\ d <> 62%N) (html_escape s)).
Proof.
  intros p js now html H. rewrite render_html_run in H. injection H as <-.
  cbv zeta.
  set (version := if truthy (str_strip (version_stamp (meta p)))
                  then str_strip (version_stamp (meta p)) else now).
  split; [|split; [|split; [|split; [|split]]]].
  - split; [apply render_html_with_title|].
    split; [apply render_html_with_h1|].
    split; [apply render_html_with_region|].
    split; [|split; [|split]].
    + eapply contains_trans; [apply render_top_section_short|].
      apply render_html_with_contains_top.
    + intros k v Hkv.
      eapply contains_trans; [apply render_meta_list_item, Hkv|].
      eapply contains_trans; [apply render_top_section_meta_list|].
      apply render_html_with_contains_top.
    + eapply contains_trans; [apply render_top_section_start|].
      apply render_html_with_contains_top.
    + apply render_html_with_footer.
  - intros n Hn.
    assert (S : forall x,
               contains x (render_node_section n (map node_id (nodes p))) ->
               contains x (render_html_with version p js)).
    { intros x Hx. eapply contains_trans; [exact Hx|].
      apply render_html_with_contains_section, Hn. }
    split; [apply render_html_with_nav_link, Hn|].
    split; [apply S, render_node_section_open|].
    split; [apply S, render_node_section_heading|].
    split; [intros E; apply S, render_node_section_scene, E|].
    split; [intros E; apply S, render_node_section_content, E|].
    split; [intros E; apply S, render_node_section_dialog, E|].
    split; [|split; [|split]].
    + intros it [Hi|[Hi|Hi]]; apply S.
      * apply render_node_section_info, Hi.
      * apply render_node_section_tech, Hi.
      * apply render_node_section_outcomes, Hi.
    + intros opt Ho.
      eapply contains_trans; [apply render_option_link|].
      apply render_html_with_contains_option with n; assumption.
    + intros E. apply S, render_node_section_notes, E.
    + intros Ht. apply S.
      eapply contains_trans; [|apply render_node_section_heading].
      rewrite Ht. exists (lit "<h2>"), (lit "</h2>"). reflexivity.
  - apply amp_ok_spec, render_html_with_amp_ok.
  - apply tagsafe_no_b_tag, render_html_with_tagsafe.
  - apply html_escape_flat_map.
  - apply html_escape_no_angle.
Qed.

Lemma render_html_escapes_user_text_witness :
  let t := lit "<b>&" ++ dq ++ lit "x" ++ dq ++ lit "</b>" in
  let n := mkNode (lit "start") t (lit "a < b") [] [] [lit "R&D"] [] [] []
             [mkOption (lit "<go>") (lit "start")] in
  let p := mkQuestProject QuestMeta_default [n] in
  exists html,
    run_Eff (lit "2026-01-01 12:00") (render_html p true) = Ok html
    /\ contains
         (lit "&lt;b&gt;&amp;" ++ dq ++ lit "x" ++ dq ++ lit "&lt;/b&gt;") html
    /\ contains (lit "<p><strong>Szene:</strong> a &lt; b</p>") html
    /\ contains (lit "<li>R&amp;D</li>") html
    /\ contains
         (lit "<a href=" ++ dq ++ lit "#start" ++ dq ++ lit ">&lt;go&gt;</a>")
         html
    /\ ~ contains (lit "<b>") html.
Proof.
  cbv zeta.
  set (n := mkNode (lit "start")
              (lit "<b>&" ++ dq ++ lit "x" ++ dq ++ lit "</b>") (lit "a < b")
              [] [] [lit "R&D"] [] [] []
              [mkOption (lit "<go>") (lit "start")]).
  set (p := mkQuestProject QuestMeta_default [n]).
  eexists. split; [apply render_html_run|].
  destruct (@render_html_escapes_user_text p true (lit "2026-01-01 12:00") _
              (render_html_run p true (lit "2026-01-01 12:00")))
    as (_ & Hn & _ & Hb & _).
  destruct (Hn n (or_introl eq_refl))
    as (_ & _ & _ & Hs & _ & _ & Hi & Ho & _ & Ht).
  split; [apply Ht; reflexivity|].
  split; [|split; [|split; [|exact Hb]]].
  - eapply contains_trans; [|apply Hs; vm_compute; reflexivity].
    exists [], []. vm_compute. reflexivity.
  - eapply contains_trans;
      [|apply (Hi (lit "R&D")); left; left; reflexivity].
    exists [], []. vm_compute. reflexivity.
  - eapply contains_trans;
      [|apply (Ho (mkOption (lit "<go>") (lit "start"))); left; reflexivity].
    exists [], []. vm_compute. reflexivity.
Defined.
